(** * Verification of the market-making bots (polarityorg/bots)

    A shallow embedding of the TypeScript sources
      - src/core/utils.ts          (order comparison and matching),
      - src/bots/BaseBot.ts        (the self-rescheduling timer loop),
      - src/bots/MarketMakerBot.ts (ladder generation and reconciliation),
      - src/bots/MarketTakerBot.ts (strategy-driven order synthesis),
      - src/trading/PairTrader.ts, src/trading/BotManager.ts, src/index.ts
        (start/stop ordering, process start-up and shutdown),
      - src/market_data/ccxtProvider.ts (the ticker the bots read),
    followed by the properties the specification states about them.

    Numbers.  The specification treats prices and sizes as decimal
    quantities; a JavaScript [number] is modelled by an exact rational [Q].
    The only operation of the sources that can leave the finite numbers on
    finite arguments is a division by zero.  Two divisors can be zero: the
    size of the resting order in [compareOrders], whose result type [xnum]
    therefore carries [+Infinity] and [NaN], and the average of the price
    window in the mean-reversion strategy, where the two outcomes are
    written out.  Binary rounding of IEEE doubles is not modelled: the
    model computes the exact values, from which the doubles of the source
    differ by rounding errors, so that a bound the exact value stays
    strictly below can be reached in the source.

    Randomness.  [Math.random()] is a stream [rnd : nat -> Q]; a function
    that draws takes the index of the next draw and returns the index after
    its last draw, so that draws happen in the order of the source.

    Object identity.  The sources compare order objects by reference
    ([Set<Order>.has], [o === order]).  A desired order is identified by its
    slot in the [newOrders] array, a resting order by its key in the
    [activeMakerOrders] map (every value of that map is a freshly allocated
    object, so key and reference determine each other). *)

From Stdlib Require Import QArith Qround Qabs Qminmax Lqa Lia ZArith.
From stdpp Require Import base option list gmap sets strings.

Local Open Scope Q_scope.

(** ** JavaScript numbers *)

Module Js.

(** Truthiness of a number: every number but [0] (and [NaN]) is truthy. *)
Definition truthy (x : Q) : bool := negb (Qeq_bool x 0).

(** Truthiness of a string: every string but the empty one. *)
Definition truthy_str (s : string) : bool :=
  match s with EmptyString => false | _ => true end.

Definition ltb (x y : Q) : bool :=
  match x ?= y with Lt => true | _ => false end.
Definition leb (x y : Q) : bool := Qle_bool x y.
Definition gtb (x y : Q) : bool := ltb y x.
Definition geb (x y : Q) : bool := leb y x.

(** [Number.MAX_VALUE] = (2^53 - 1) * 2^971. *)
Definition MAX_VALUE : Q := inject_Z ((2 ^ 53 - 1) * 2 ^ 971).

(** [Math.round]: the nearest integer, halves towards +Infinity. *)
Definition Math_round (x : Q) : Z := Qfloor (x + (1 # 2)).

Definition Math_min (x y : Q) : Q := if ltb y x then y else x.
Definition Math_max (x y : Q) : Q := if ltb x y then y else x.

(** Results of a division whose divisor may be zero. *)
Inductive xnum : Type :=
| Fin (q : Q)
| PosInf
| NaN.

(** [Math.abs (a / b)]:  [|a| / 0] is [+Infinity], [0 / 0] is [NaN]. *)
Definition abs_div (a b : Q) : xnum :=
  if truthy b then Fin (Qabs (a / b))
  else if truthy a then PosInf else NaN.

Definition xadd (x y : xnum) : xnum :=
  match x, y with
  | Fin a, Fin b => Fin (a + b)
  | NaN, _ | _, NaN => NaN
  | _, _ => PosInf
  end.

(** The comparisons [x < y], [x <= y] and [x > y]; each is false as soon
    as an operand is [NaN]. *)
Definition xltb (x y : xnum) : bool :=
  match x, y with
  | Fin a, Fin b => ltb a b
  | Fin _, PosInf => true
  | _, _ => false
  end.
Definition xleb (x y : xnum) : bool :=
  match x, y with
  | Fin a, Fin b => leb a b
  | Fin _, PosInf | PosInf, PosInf => true
  | _, _ => false
  end.
Definition xgtb (x y : xnum) : bool := xltb y x.

End Js.

(** ** src/core/types.ts *)

Inductive OrderSide : Type := bid | ask.
Inductive OrderType : Type := limit | market.
Inductive OrderStatus : Type := st_new | st_open | st_closed | st_canceled.

#[global] Instance OrderSide_eq_dec : EqDecision OrderSide.
Proof. solve_decision. Defined.
#[global] Instance OrderType_eq_dec : EqDecision OrderType.
Proof. solve_decision. Defined.
#[global] Instance OrderStatus_eq_dec : EqDecision OrderStatus.
Proof. solve_decision. Defined.

Record Order : Type := mkOrder {
  pair : string;
  side : OrderSide;
  type : OrderType;
  price : option Q;          (* optional for market orders *)
  size : Q;
  timestamp : Z;
  level : option nat;
  id : option string;
  status : option OrderStatus
}.

Record OrderMatch : Type := mkOrderMatch {
  existingOrder : Order;
  newOrder : Order;
  priceDeviation : Js.xnum;
  sizeDeviation : Js.xnum
}.

Record TickerData : Type := mkTicker {
  tk_symbol : string;
  tk_timestamp : Z;
  tk_bid : option Q;         (* number | null *)
  tk_ask : option Q;
  tk_last : option Q
}.

(** ** src/core/utils.ts *)

(** [getRandomArbitrary min max], with the draw made explicit. *)
Definition getRandomArbitrary (r : Q) (min max : Q) : Q := r * (max - min) + min.

(** [applyVariance baseValue varianceFactor], with the draw made explicit. *)
Definition applyVariance (r : Q) (baseValue varianceFactor : Q) : Q :=
  let variance := getRandomArbitrary r (- varianceFactor) varianceFactor in
  baseValue * (1 + variance).

Definition roundToDecimalPlaces (num : Q) (decimalPlaces : nat) : Q :=
  let factor := inject_Z (10 ^ Z.of_nat decimalPlaces) in
  inject_Z (Js.Math_round (num * factor)) / factor.

Definition compareOrders (existing new_ : Order) : OrderMatch :=
  let priceDeviation :=
    match price existing, price new_ with
    | Some pe, Some pn =>
        if Js.truthy pe && Js.truthy pn
        then Js.Fin (Qabs ((pe - pn) / pe))
        else Js.Fin 1
    | _, _ => Js.Fin 1
    end in
  let sizeDeviation := Js.abs_div (size existing - size new_) (size existing) in
  {| existingOrder := existing;
     newOrder := new_;
     priceDeviation := priceDeviation;
     sizeDeviation := sizeDeviation |}.

Definition shouldReplaceOrder (m : OrderMatch) (maxPriceDeviation maxSizeDeviation : Q) : bool :=
  Js.xgtb (priceDeviation m) (Js.Fin maxPriceDeviation)
  || Js.xgtb (sizeDeviation m) (Js.Fin maxSizeDeviation).

Definition default_maxPriceDeviation : Q := 1 # 1000.
Definition default_maxSizeDeviation : Q := 1 # 10.

Section FindMatchingOrder.
(** Candidates are references to order objects: [Ref] is the type of the
    references and [deref] reads the object behind one. *)
Context {Ref : Type} (deref : Ref -> Order).

Definition sameTypeOrder (existingOrder : Order) (r : Ref) : bool :=
  bool_decide (side (deref r) = side existingOrder)
  && bool_decide (type (deref r) = type existingOrder).

Definition totalDeviation (existingOrder : Order) (r : Ref) : Js.xnum :=
  let m := compareOrders existingOrder (deref r) in
  Js.xadd (priceDeviation m) (sizeDeviation m).

Definition withinThresholds (existingOrder : Order) (r : Ref)
    (maxPriceDeviation maxSizeDeviation : Q) : bool :=
  let m := compareOrders existingOrder (deref r) in
  Js.xleb (priceDeviation m) (Js.Fin maxPriceDeviation)
  && Js.xleb (sizeDeviation m) (Js.Fin maxSizeDeviation).

(** The [for ... of sameTypeOrders] loop, on the loop state
    [(bestMatch, minDeviation)]. *)
Fixpoint findLoop (existingOrder : Order) (maxPriceDeviation maxSizeDeviation : Q)
    (cands : list Ref) (bestMatch : option Ref) (minDeviation : Js.xnum) : option Ref :=
  match cands with
  | [] => bestMatch
  | newOrder :: rest =>
      if Js.xltb (totalDeviation existingOrder newOrder) minDeviation
         && withinThresholds existingOrder newOrder maxPriceDeviation maxSizeDeviation
      then findLoop existingOrder maxPriceDeviation maxSizeDeviation rest
             (Some newOrder) (totalDeviation existingOrder newOrder)
      else findLoop existingOrder maxPriceDeviation maxSizeDeviation rest
             bestMatch minDeviation
  end.

Definition findMatchingOrder (existingOrder : Order) (newOrders : list Ref)
    (maxPriceDeviation maxSizeDeviation : Q) : option Ref :=
  let sameTypeOrders := filter (fun r => sameTypeOrder existingOrder r = true) newOrders in
  findLoop existingOrder maxPriceDeviation maxSizeDeviation sameTypeOrders
    None (Js.Fin Js.MAX_VALUE).
End FindMatchingOrder.

(** ** Configuration (src/core/types.ts)

    [PairConfig] holds [Partial<...>] records: every field may be absent. *)

Record MarketMakerConfig : Type := mkMakerConfig {
  baseSpreadPercentage : option Q;
  spreadVolatilityMultiplier : option Q;
  depthLevels : option nat;
  baseSizePerLevel : option Q;
  sizeRandomizationFactor : option Q;
  updateIntervalMs : option Q;
  updateIntervalVariance : option Q;
  cancelReplaceRatio : option Q
}.

Record StrategyProbabilities : Type := mkProbs {
  p_random : Q;
  p_momentum : Q;
  p_meanReversion : Q;
  p_passiveLimit : Q
}.

(** The taker reads its configuration through a cast to
    [Required<MarketTakerConfig>]: every field is present. *)
Record MarketTakerConfig : Type := mkTakerConfig {
  avgActionIntervalMs : Q;
  actionIntervalVariance : Q;
  marketOrderProbability : Q;
  baseOrderSize : Q;
  taker_sizeRandomizationFactor : Q;
  strategyProbabilities : StrategyProbabilities;
  momentumLookbackTicks : nat;
  meanReversionThreshold : Q
}.

Record PairConfig : Type := mkPairConfig {
  marketMaker : MarketMakerConfig;
  marketTaker : MarketTakerConfig;
  volatilityEstimate : option Q
}.

Record TradingPair : Type := mkPair {
  symbol : string;
  baseAsset : string;
  quoteAsset : string;
  ccxtSymbol : string
}.

(** [x ?? d] *)
Definition nullish {A} (x : option A) (d : A) : A := default d x.

(** [x || d] on an optional number. *)
Definition or_else (x : option Q) (d : Q) : Q :=
  match x with Some q => if Js.truthy q then q else d | None => d end.

(** ** The order-execution client (external collaborator)

    One reconcile cycle calls [cancelOrders] at most once and [submitOrder]
    once per desired order it places.  The venue's answers are an oracle:
    whether the batch cancel resolves, and, for the desired order of each
    slot, what its [submitOrder] call does. *)

Inductive SubmitResult : Type :=
| SubmitThrows                             (* the call rejects *)
| SubmitIds (orderIds : list string).      (* [result.getOrderIds()] *)

Record Venue : Type := mkVenue {
  cancelOrders : list string -> bool;      (* [true]: resolves, [false]: throws *)
  submitOrder : nat -> SubmitResult
}.

(** The requests a cycle sends to the client, in order. *)
Inductive VenueCall : Type :=
| CallCancelOrders (orderIds : list string)
| CallSubmitOrder (slot : nat) (o : Order).

(** ** src/bots/MarketMakerBot.ts *)

Module MarketMakerBot.

(** [Map<string, Order>]: entries in insertion order, keys pairwise
    distinct. *)
Abbreviation RestingMap := (list (string * Order)).

Definition map_has (k : string) (m : RestingMap) : bool :=
  bool_decide (k ∈ m.*1).

(** [Map.prototype.set]: an existing key keeps its position. *)
Definition map_set (k : string) (v : Order) (m : RestingMap) : RestingMap :=
  if map_has k m
  then (fun e : string * Order => if bool_decide (e.1 = k) then (k, v) else e) <$> m
  else m ++ [(k, v)].

(** [Map.prototype.delete] *)
Definition map_delete (k : string) (m : RestingMap) : RestingMap :=
  filter (fun e : string * Order => e.1 <> k) m.

(** The desired orders with their slots, as references: [slots newOrders]
    is [[(0, o0); (1, o1); ...]]. *)
Fixpoint slotsFrom (j : nat) (newOrders : list Order) : list (nat * Order) :=
  match newOrders with
  | [] => []
  | o :: rest => (j, o) :: slotsFrom (S j) rest
  end.

Definition slots (newOrders : list Order) : list (nat * Order) :=
  slotsFrom 0 newOrders.

(** [newOrders.filter((o) => !matchedNewOrders.has(o))] *)
Definition unmatched (newOrders : list Order) (matchedNewOrders : gset nat)
    : list (nat * Order) :=
  filter (fun r : nat * Order => r.1 ∉ matchedNewOrders) (slots newOrders).

Definition maxPriceDeviation : Q := 1 # 1000.
Definition maxSizeDeviation : Q := 1 # 10.

(** State of the first pass of [manageOrders]. *)
Record Classification : Type := mkClassification {
  matchedNewOrders : gset nat;
  ordersToKeep : list (string * Order);
  ordersToCancel : list (string * Order);
  nextDraw : nat
}.

(** Body of the first loop, for the entry [(orderId, existingOrder)].
    [Math.random()] is only evaluated when a match was found. *)
Definition classifyStep (rnd : nat -> Q) (cancelReplaceRatio : Q)
    (newOrders : list Order) (c : Classification) (entry : string * Order)
    : Classification :=
  let matchingNewOrder :=
    findMatchingOrder snd entry.2 (unmatched newOrders (matchedNewOrders c))
      maxPriceDeviation maxSizeDeviation in
  match matchingNewOrder with
  | Some r =>
      if Js.gtb (rnd (nextDraw c)) cancelReplaceRatio
      then {| matchedNewOrders := matchedNewOrders c ∪ {[ r.1 ]};
              ordersToKeep := ordersToKeep c ++ [entry];
              ordersToCancel := ordersToCancel c;
              nextDraw := S (nextDraw c) |}
      else {| matchedNewOrders := matchedNewOrders c;
              ordersToKeep := ordersToKeep c;
              ordersToCancel := ordersToCancel c ++ [entry];
              nextDraw := S (nextDraw c) |}
  | None =>
      {| matchedNewOrders := matchedNewOrders c;
         ordersToKeep := ordersToKeep c;
         ordersToCancel := ordersToCancel c ++ [entry];
         nextDraw := nextDraw c |}
  end.

Definition classify (rnd : nat -> Q) (n : nat) (cancelReplaceRatio : Q)
    (newOrders : list Order) (activeMakerOrders : RestingMap) : Classification :=
  foldl (classifyStep rnd cancelReplaceRatio newOrders)
    {| matchedNewOrders := ∅; ordersToKeep := []; ordersToCancel := [];
       nextDraw := n |}
    activeMakerOrders.

(** Body of [ordersToCancel.forEach] after a successful batch cancel: the
    entry holding the order object is looked up, and deleted when its key
    is truthy. *)
Definition removeCanceled (m : RestingMap) (entry : string * Order) : RestingMap :=
  match find (fun e : string * Order => bool_decide (e.1 = entry.1)) m with
  | Some (orderId, _) => if Js.truthy_str orderId then map_delete orderId m else m
  | None => m
  end.

(** Step 2 of [manageOrders]. *)
Definition cancelStep (venue : Venue) (ordersToCancel : list (string * Order))
    (m : RestingMap) : RestingMap * list VenueCall :=
  match ordersToCancel with
  | [] => (m, [])
  | _ =>
      let orderIdsToCancel := omap (fun e : string * Order => id e.2) ordersToCancel in
      match orderIdsToCancel with
      | [] => (m, [])
      | _ =>
          if cancelOrders venue orderIdsToCancel
          then (foldl removeCanceled m ordersToCancel,
                [CallCancelOrders orderIdsToCancel])
          else (m, [CallCancelOrders orderIdsToCancel])
      end
  end.

(** [{ ...order, id: orderId, status: "new" }] *)
Definition finalOrder (order : Order) (orderId : string) : Order :=
  {| pair := pair order; side := side order; type := type order;
     price := price order; size := size order; timestamp := timestamp order;
     level := level order; id := Some orderId; status := Some st_new |}.

(** Body of the placement loop, for the desired order of slot [r.1]. *)
Definition placeStep (venue : Venue) (acc : RestingMap * list VenueCall)
    (r : nat * Order) : RestingMap * list VenueCall :=
  let calls := acc.2 ++ [CallSubmitOrder r.1 r.2] in
  match submitOrder venue r.1 with
  | SubmitThrows => (acc.1, calls)
  | SubmitIds [] => (acc.1, calls)
  | SubmitIds (orderId :: _) =>
      if Js.truthy_str orderId
      then (map_set orderId (finalOrder r.2 orderId) acc.1, calls)
      else (acc.1, calls)
  end.

Record ManageResult : Type := mkManageResult {
  resting : RestingMap;                  (* [activeMakerOrders] afterwards *)
  calls : list VenueCall;                (* requests sent to the client *)
  kept : list (string * Order);
  cancelled : list (string * Order);
  toPlace : list (nat * Order);
  drawsAfter : nat
}.

Definition manageOrders (cfg : PairConfig) (venue : Venue) (rnd : nat -> Q) (n : nat)
    (activeMakerOrders : RestingMap) (newOrders : list Order) : ManageResult :=
  let ratio := nullish (cancelReplaceRatio (marketMaker cfg)) 0 in
  let c := classify rnd n ratio newOrders activeMakerOrders in
  let '(m1, calls1) := cancelStep venue (ordersToCancel c) activeMakerOrders in
  let ordersToPlace := unmatched newOrders (matchedNewOrders c) in
  let '(m2, calls2) := foldl (placeStep venue) (m1, calls1) ordersToPlace in
  {| resting := m2; calls := calls2; kept := ordersToKeep c;
     cancelled := ordersToCancel c; toPlace := ordersToPlace;
     drawsAfter := nextDraw c |}.

(** *** [manageOrders] and what runs between its awaits

    [manageOrders] as defined above is one cycle during which nothing else
    touches the map.  The source suspends at
    [await this.client.cancelOrders(...)] and at every
    [await this.client.submitOrder(...)]; while it is suspended other code
    of the bot can run and change [this.activeMakerOrders], which the
    cycle reads again when it resumes: [stop()], which clears the map, or
    another cycle that is in flight.  The lists [ordersToKeep],
    [ordersToCancel] and [ordersToPlace] are computed before the first
    await.  [during k] is what the code that runs during await [k] of the
    cycle does to the map (the identity when nothing runs): await 0 is
    that of the batch cancel, await [S j] that of the placement of the
    [j]-th order to place. *)
Definition cancelStepAsync (venue : Venue) (during : nat -> RestingMap -> RestingMap)
    (ordersToCancel : list (string * Order)) (m : RestingMap)
    : RestingMap * list VenueCall :=
  match ordersToCancel with
  | [] => (m, [])
  | _ =>
      let orderIdsToCancel := omap (fun e : string * Order => id e.2) ordersToCancel in
      match orderIdsToCancel with
      | [] => (m, [])
      | _ =>
          let m0 := during 0%nat m in
          if cancelOrders venue orderIdsToCancel
          then (foldl removeCanceled m0 ordersToCancel,
                [CallCancelOrders orderIdsToCancel])
          else (m0, [CallCancelOrders orderIdsToCancel])
      end
  end.

(** Body of the placement loop on the state (map, requests, number of
    placements awaited so far). *)
Definition placeStepAsync (venue : Venue) (during : nat -> RestingMap -> RestingMap)
    (acc : RestingMap * list VenueCall * nat) (r : nat * Order)
    : RestingMap * list VenueCall * nat :=
  let '(m, calls, j) := acc in
  let calls' := calls ++ [CallSubmitOrder r.1 r.2] in
  let m0 := during (S j) m in
  match submitOrder venue r.1 with
  | SubmitThrows => (m0, calls', S j)
  | SubmitIds [] => (m0, calls', S j)
  | SubmitIds (orderId :: _) =>
      if Js.truthy_str orderId
      then (map_set orderId (finalOrder r.2 orderId) m0, calls', S j)
      else (m0, calls', S j)
  end.

Definition manageOrdersAsync (cfg : PairConfig) (venue : Venue) (rnd : nat -> Q) (n : nat)
    (during : nat -> RestingMap -> RestingMap) (activeMakerOrders : RestingMap)
    (newOrders : list Order) : ManageResult :=
  let ratio := nullish (cancelReplaceRatio (marketMaker cfg)) 0 in
  let c := classify rnd n ratio newOrders activeMakerOrders in
  let '(m1, calls1) := cancelStepAsync venue during (ordersToCancel c) activeMakerOrders in
  let ordersToPlace := unmatched newOrders (matchedNewOrders c) in
  let '(m2, calls2, _) :=
    foldl (placeStepAsync venue during) (m1, calls1, 0%nat) ordersToPlace in
  {| resting := m2; calls := calls2; kept := ordersToKeep c;
     cancelled := ordersToCancel c; toPlace := ordersToPlace;
     drawsAfter := nextDraw c |}.

(** *** [run]: the quote ladder *)

Inductive Generated : Type :=
| SkipNoTicker                    (* no valid ticker data: skip the cycle *)
| SkipCrossed                     (* bid >= ask not resolved: skip the cycle *)
| Ladder (newOrders : list Order) (nextDraw : nat).

(** Body of [for (let i = 0; i < depthLevels; i++)], on the loop state
    [(newOrders, index of the next draw)]. *)
Definition ladderStep (rnd : nat -> Q) (sym : string) (now : Z)
    (targetBestBid targetBestAsk priceIncrement baseSizePerLevel
     sizeRandomizationFactor : Q)
    (acc : list Order * nat) (i : nat) : list Order * nat :=
  let '(newOrders, n) := acc in
  let levelFactor := 1 + inject_Z (Z.of_nat i) * (1 # 10) in
  let bidPrice :=
    roundToDecimalPlaces
      (targetBestBid - inject_Z (Z.of_nat i) * priceIncrement * levelFactor) 5 in
  if Js.leb bidPrice 0 then (newOrders, n)          (* continue *)
  else
    let bidSize :=
      roundToDecimalPlaces
        (applyVariance (rnd n) (baseSizePerLevel * levelFactor) sizeRandomizationFactor) 8 in
    let newOrders1 :=
      if Js.gtb bidSize 0
      then newOrders ++
           [{| pair := sym; side := bid; type := limit; price := Some bidPrice;
               size := bidSize; timestamp := now; level := Some (i + 1)%nat;
               id := None; status := None |}]
      else newOrders in
    let askPrice :=
      roundToDecimalPlaces
        (targetBestAsk + inject_Z (Z.of_nat i) * priceIncrement * levelFactor) 5 in
    let askSize :=
      roundToDecimalPlaces
        (applyVariance (rnd (S n)) (baseSizePerLevel * levelFactor) sizeRandomizationFactor) 8 in
    let newOrders2 :=
      if Js.gtb askSize 0
      then newOrders1 ++
           [{| pair := sym; side := ask; type := limit; price := Some askPrice;
               size := askSize; timestamp := now; level := Some (i + 1)%nat;
               id := None; status := None |}]
      else newOrders1 in
    (newOrders2, S (S n)).

(** The target best bid and ask after the sanity check of [run], or
    [None] when the cycle is skipped. *)
Definition targetPrices (cfg : PairConfig) (tbid task : Q) : option (Q * Q) :=
  let midPrice := (tbid + task) / 2 in
  let currentVolatility := or_else (volatilityEstimate cfg) (1 # 100) in
  let baseSpreadPercentage := nullish (baseSpreadPercentage (marketMaker cfg)) (1 # 1000) in
  let spreadVolatilityMultiplier := nullish (spreadVolatilityMultiplier (marketMaker cfg)) 1 in
  let spread := baseSpreadPercentage * (1 + currentVolatility * spreadVolatilityMultiplier) in
  let targetBestAsk := midPrice * (1 + spread / 2) in
  let targetBestBid := midPrice * (1 - spread / 2) in
  if Js.geb targetBestBid targetBestAsk
  then
    let targetBestAsk' := targetBestAsk * (10001 # 10000) in
    let targetBestBid' := targetBestBid * (9999 # 10000) in
    if Js.geb targetBestBid' targetBestAsk' then None
    else Some (targetBestBid', targetBestAsk')
  else Some (targetBestBid, targetBestAsk).

(** The part of [run] that computes [newOrders]. *)
Definition generateOrders (p : TradingPair) (cfg : PairConfig) (now : Z)
    (rnd : nat -> Q) (n : nat) (ticker : option TickerData) : Generated :=
  match ticker with
  | Some {| tk_bid := Some tbid; tk_ask := Some task |} =>
      match targetPrices cfg tbid task with
      | None => SkipCrossed
      | Some (targetBestBid, targetBestAsk) =>
          let depthLevels := nullish (depthLevels (marketMaker cfg)) 1%nat in
          let baseSizePerLevel := nullish (baseSizePerLevel (marketMaker cfg)) (1 # 10) in
          let sizeRandomizationFactor :=
            nullish (sizeRandomizationFactor (marketMaker cfg)) (1 # 10) in
          let priceIncrement := (targetBestAsk - targetBestBid) / 2 in
          let '(newOrders, n') :=
            foldl (ladderStep rnd (symbol p) now targetBestBid targetBestAsk
                     priceIncrement baseSizePerLevel sizeRandomizationFactor)
                  ([], n) (seq 0 depthLevels) in
          Ladder newOrders n'
      end
  | _ => SkipNoTicker
  end.

(** The orders a cycle emits ([[]] when the cycle is skipped). *)
Definition emitted (g : Generated) : list Order :=
  match g with Ladder newOrders _ => newOrders | _ => [] end.

(** *** [stop]: the part after the timer is cleared *)

Inductive StopEffect : Type :=
| LogSimulatedCancel (pseudoId : string)   (* logger.debug "Simulating CANCEL Order" *)
| ClientCall (c : VenueCall).              (* a request sent to the client *)

(** [stop] logs one line per resting order and clears the map.  It sends
    nothing to the client: the returned effects hold no [ClientCall]. *)
Definition stopOrders (activeMakerOrders : RestingMap) : RestingMap * list StopEffect :=
  match activeMakerOrders with
  | [] => ([], [])
  | _ => ([], (fun e : string * Order => LogSimulatedCancel e.1) <$> activeMakerOrders)
  end.

(** [stop()] running during await [k0] of a cycle, and nothing during the
    other awaits. *)
Definition stopDuring (k0 : nat) : nat -> RestingMap -> RestingMap :=
  fun k m => if bool_decide (k = k0) then (stopOrders m).1 else m.

(** [getUpdateInterval()], with the draw made explicit. *)
Definition getUpdateInterval (cfg : PairConfig) (r : Q) : Q :=
  let updateIntervalMs := nullish (updateIntervalMs (marketMaker cfg)) 5000 in
  let updateIntervalVariance := nullish (updateIntervalVariance (marketMaker cfg)) (1 # 10) in
  applyVariance r updateIntervalMs updateIntervalVariance.

End MarketMakerBot.

(** ** src/bots/MarketTakerBot.ts *)

Module MarketTakerBot.

Inductive Strategy : Type :=
| s_random | s_momentum | s_meanReversion | s_passiveLimit.

(** [updateRecentPrices]: a sliding window of at most
    [momentumLookbackTicks] prices. *)
Definition updateRecentPrices (cfg : MarketTakerConfig) (recentPrices : list Q)
    (lastPrice : Q) : list Q :=
  let pushed := recentPrices ++ [lastPrice] in
  if bool_decide (momentumLookbackTicks cfg < length pushed)%nat
  then tail pushed else pushed.

Definition chooseStrategy (cfg : MarketTakerConfig) (rand : Q) : Strategy :=
  let probs := strategyProbabilities cfg in
  let c1 := 0 + p_random probs in
  let c2 := c1 + p_momentum probs in
  let c3 := c2 + p_meanReversion probs in
  let c4 := c3 + p_passiveLimit probs in
  if Js.ltb rand c1 then s_random
  else if Js.ltb rand c2 then s_momentum
  else if Js.ltb rand c3 then s_meanReversion
  else if Js.ltb rand c4 then s_passiveLimit
  else s_random.

(** [Math.random() < 0.5 ? "bid" : "ask"] *)
Definition coinSide (r : Q) : OrderSide := if Js.ltb r (1 # 2) then bid else ask.

(** The local variables [side], [type] and [price] of
    [generateOrderBasedOnStrategy], with the index of the next draw. *)
Record Draft : Type := mkDraft {
  d_side : OrderSide;
  d_type : OrderType;
  d_price : option Q;
  d_next : nat
}.

(** The [switch (strategy)]; [None] is [return null].  [n] is the index
    of the next draw and [type0] the kind drawn before the switch. *)
Definition strategySwitch (cfg : MarketTakerConfig) (rnd : nat -> Q) (n : nat)
    (recentPrices : list Q) (strategy : Strategy) (type0 : OrderType)
    (tbid task tlast : Q) : option Draft :=
  match strategy with
  | s_momentum =>
      let side0 :=
        if bool_decide (2 <= length recentPrices)%nat then
          let trend := default 0 (last recentPrices) - default 0 (head recentPrices) in
          if Js.gtb trend 0 then Some bid
          else if Js.ltb trend 0 then Some ask
          else None
        else None in
      match side0 with
      | Some s => Some (mkDraft s type0 None n)
      | None => Some (mkDraft (coinSide (rnd n)) type0 None (S n))
      end
  | s_meanReversion =>
      let side0 :=
        if bool_decide (1 < length recentPrices)%nat then
          let avgPrice :=
            foldl Qplus 0 recentPrices / inject_Z (Z.of_nat (length recentPrices)) in
          let threshold := meanReversionThreshold cfg in
          if Js.truthy avgPrice then
            let deviation := (tlast - avgPrice) / avgPrice in
            if Js.gtb deviation threshold then Some ask
            else if Js.ltb deviation (- threshold) then Some bid
            else None
          else
            (* division by zero: the deviation is +Infinity or -Infinity
               with the sign of [ticker.last], which is not zero here *)
            if Js.gtb tlast 0 then Some ask else Some bid
        else None in
      match side0 with
      | Some s => Some (mkDraft s type0 None n)
      | None => None
      end
  | s_passiveLimit =>
      let s := coinSide (rnd n) in
      let price0 :=
        match s with
        | bid => roundToDecimalPlaces
                   (tbid * (1 + getRandomArbitrary (rnd (S n)) (1 # 10000) (5 # 10000))) 5
        | ask => roundToDecimalPlaces
                   (task * (1 - getRandomArbitrary (rnd (S n)) (1 # 10000) (5 # 10000))) 5
        end in
      let price1 :=
        if bool_decide (s = bid) && Js.gtb price0 task then task else price0 in
      let price2 :=
        if bool_decide (s = ask) && Js.ltb price1 tbid then tbid else price1 in
      let price3 :=
        if Js.leb price2 tbid && bool_decide (s = ask) then tbid else price2 in
      let price4 :=
        if Js.geb price3 task && bool_decide (s = bid) then task else price3 in
      Some (mkDraft s limit (Some price4) (S (S n)))
  | s_random =>
      Some (mkDraft (coinSide (rnd n)) type0 None (S n))
  end.

(** "Determine price for non-passive limit orders", then "Ensure price
    has valid number of decimals". *)
Definition limitPricing (rnd : nat -> Q) (tbid task : Q) (d : Draft) : Draft :=
  let midPrice := (tbid + task) / 2 in
  let d1 :=
    match d_type d, d_price d with
    | limit, None =>
        let n := d_next d in
        match d_side d with
        | bid =>
            let p0 := roundToDecimalPlaces
                        (getRandomArbitrary (rnd n) (tbid * (9995 # 10000)) midPrice) 5 in
            let p1 := Js.Math_min p0 (task * (9999 # 10000)) in
            let p2 := Js.Math_max p1 (tbid * (99 # 100)) in
            let p3 := if Js.geb p2 task then task else p2 in
            mkDraft bid limit (Some p3) (S n)
        | ask =>
            let p0 := roundToDecimalPlaces
                        (getRandomArbitrary (rnd n) midPrice (task * (10005 # 10000))) 5 in
            let p1 := Js.Math_max p0 (tbid * (10001 # 10000)) in
            let p2 := Js.Math_min p1 (task * (101 # 100)) in
            let p3 := if Js.leb p2 tbid then tbid else p2 in
            mkDraft ask limit (Some p3) (S n)
        end
    | _, _ => d
    end in
  match d_price d1 with
  | Some p => mkDraft (d_side d1) (d_type d1) (Some (roundToDecimalPlaces p 5)) (d_next d1)
  | None => d1
  end.

(** "Final sanity check for limit orders": the resulting kind and price. *)
Definition finalSanityCheck (tbid task : Q) (s : OrderSide) (t : OrderType)
    (p : option Q) : OrderType * option Q :=
  match t with
  | limit =>
      match p with
      | None => (market, None)
      | Some q =>
          if Js.leb q 0 then (market, None)
          else if bool_decide (s = bid) && Js.gtb q task then (limit, Some task)
          else if bool_decide (s = ask) && Js.ltb q tbid then (limit, Some tbid)
          else (limit, Some q)
      end
  | market => (market, p)
  end.

(** The draft on which the final sanity check runs; [None] is
    [return null]. *)
Definition draftOrder (cfg : MarketTakerConfig) (rnd : nat -> Q) (n : nat)
    (recentPrices : list Q) (strategy : Strategy) (ticker : TickerData)
    : option (Q * Q * Q * Draft) :=
  let isMarketOrder := Js.ltb (rnd n) (marketOrderProbability cfg) in
  let size :=
    roundToDecimalPlaces
      (applyVariance (rnd (S n)) (baseOrderSize cfg) (taker_sizeRandomizationFactor cfg)) 8 in
  if Js.leb size 0 then None
  else
    let type0 := if isMarketOrder then market else limit in
    match tk_bid ticker, tk_ask ticker, tk_last ticker with
    | Some tbid, Some task, Some tlast =>
        if Js.truthy tbid && Js.truthy task && Js.truthy tlast then
          match strategySwitch cfg rnd (S (S n)) recentPrices strategy type0
                  tbid task tlast with
          | Some d => Some (size, tbid, task, limitPricing rnd tbid task d)
          | None => None
          end
        else None
    | _, _, _ => None
    end.

Definition generateOrderBasedOnStrategy (p : TradingPair) (cfg : MarketTakerConfig)
    (now : Z) (rnd : nat -> Q) (n : nat) (recentPrices : list Q)
    (strategy : Strategy) (ticker : TickerData) : option Order :=
  match draftOrder cfg rnd n recentPrices strategy ticker with
  | Some (size, tbid, task, d) =>
      let '(type', price') := finalSanityCheck tbid task (d_side d) (d_type d) (d_price d) in
      Some {| pair := symbol p; side := d_side d; type := type'; price := price';
              size := size; timestamp := now; level := None; id := None;
              status := None |}
  | None => None
  end.

(** [getActionInterval()], with the draw made explicit. *)
Definition getActionInterval (cfg : MarketTakerConfig) (r : Q) : Q :=
  applyVariance r (avgActionIntervalMs cfg) (actionIntervalVariance cfg).

End MarketTakerBot.

(** ** src/bots/BaseBot.ts and the [start]/[stop]/[run] of the two bots

    JavaScript runs one callback at a time; an agent is a state machine whose
    steps are the calls of [start] and [stop], the firing of an armed timer,
    and the return of a [run] that was begun earlier (its [finally]).  Real
    time is not modelled: an armed timer may fire at any later step. *)

Inductive BotKind : Type := Maker | Taker.

#[global] Instance BotKind_eq_dec : EqDecision BotKind.
Proof. solve_decision. Defined.

(** What an agent does that others can see. *)
Inductive Obs : Type :=
| ObsRunBegins (k : BotKind)                 (* a run cycle fires *)
| ObsStopping (k : BotKind)                  (* logger.info "... stopping ..." *)
| ObsStop (e : MarketMakerBot.StopEffect)
| ObsCall (k : BotKind) (c : VenueCall).     (* a request sent to the client *)

(** What one [run] reads from outside: the ticker it fetches, the venue's
    answers, its random draws and the clock. *)
Record CycleInput : Type := mkCycleInput {
  ci_ticker : option TickerData;
  ci_venue : Venue;
  ci_rnd : nat -> Q;
  ci_now : Z
}.

Module BaseBot.

Record Agent : Type := mkAgent {
  kind : BotKind;
  agentPair : TradingPair;
  config : PairConfig;
  isRunning : bool;
  timeoutId : option nat;          (* handle of the last timer set, or null *)
  armed : list nat;                (* timers of this agent the runtime holds *)
  nextHandle : nat;                (* the handle [setTimeout] returns next *)
  inFlight : nat;                  (* [run] calls begun and not yet returned *)
  activeMakerOrders : MarketMakerBot.RestingMap;   (* maker only *)
  recentPrices : list Q                            (* taker only *)
}.

Definition newAgent (k : BotKind) (p : TradingPair) (cfg : PairConfig) : Agent :=
  {| kind := k; agentPair := p; config := cfg; isRunning := false;
     timeoutId := None; armed := []; nextHandle := 0; inFlight := 0;
     activeMakerOrders := []; recentPrices := [] |}.

Definition clearTimeout (h : nat) (timers : list nat) : list nat :=
  filter (fun x => x <> h) timers.

(** [scheduleNextRun(delay)] *)
Definition scheduleNextRun (a : Agent) : Agent :=
  if negb (isRunning a) then a
  else
    let timers := match timeoutId a with
                  | Some h => clearTimeout h (armed a)
                  | None => armed a
                  end in
    {| kind := kind a; agentPair := agentPair a; config := config a;
       isRunning := isRunning a;
       timeoutId := Some (nextHandle a);
       armed := timers ++ [nextHandle a];
       nextHandle := S (nextHandle a);
       inFlight := inFlight a;
       activeMakerOrders := activeMakerOrders a;
       recentPrices := recentPrices a |}.

(** [start()], the same in both bots up to the first delay. *)
Definition start (a : Agent) : Agent :=
  if isRunning a then a
  else
    scheduleNextRun
      {| kind := kind a; agentPair := agentPair a; config := config a;
         isRunning := true; timeoutId := timeoutId a; armed := armed a;
         nextHandle := nextHandle a; inFlight := inFlight a;
         activeMakerOrders := activeMakerOrders a;
         recentPrices := recentPrices a |}.

(** [stop()] of [MarketMakerBot] and of [MarketTakerBot]. *)
Definition stop (a : Agent) : Agent * list Obs :=
  let timers := match timeoutId a with
                | Some h => clearTimeout h (armed a)
                | None => armed a
                end in
  let '(orders, effects) :=
    match kind a with
    | Maker => MarketMakerBot.stopOrders (activeMakerOrders a)
    | Taker => (activeMakerOrders a, [])
    end in
  ({| kind := kind a; agentPair := agentPair a; config := config a;
      isRunning := false; timeoutId := None; armed := timers;
      nextHandle := nextHandle a; inFlight := inFlight a;
      activeMakerOrders := orders; recentPrices := recentPrices a |},
   ObsStopping (kind a) :: (ObsStop <$> effects)).

(** The body of [run] up to its [finally]: the new agent data, the
    requests sent, and whether the [try] block already called
    [scheduleNextRun] (the two "skipping cycle" returns). *)
Definition runBody (a : Agent) (i : CycleInput)
    : MarketMakerBot.RestingMap * list Q * list VenueCall * bool :=
  match kind a with
  | Maker =>
      match MarketMakerBot.generateOrders (agentPair a) (config a) (ci_now i)
              (ci_rnd i) 0 (ci_ticker i) with
      | MarketMakerBot.Ladder newOrders n =>
          let r := MarketMakerBot.manageOrders (config a) (ci_venue i) (ci_rnd i) n
                     (activeMakerOrders a) newOrders in
          (MarketMakerBot.resting r, recentPrices a, MarketMakerBot.calls r, false)
      | _ => (activeMakerOrders a, recentPrices a, [], true)
      end
  | Taker =>
      match ci_ticker i with
      | Some ({| tk_bid := Some _; tk_ask := Some _; tk_last := Some tlast |} as ticker) =>
          let cfg := marketTaker (config a) in
          let prices := MarketTakerBot.updateRecentPrices cfg (recentPrices a) tlast in
          let strategy := MarketTakerBot.chooseStrategy cfg (ci_rnd i 0%nat) in
          let sent :=
            match MarketTakerBot.generateOrderBasedOnStrategy (agentPair a) cfg
                    (ci_now i) (ci_rnd i) 1 prices strategy ticker with
            | Some order => [CallSubmitOrder 0 order]
            | None => []
            end in
          (activeMakerOrders a, prices, sent, false)
      | _ => (activeMakerOrders a, recentPrices a, [], true)
      end
  end.

Inductive Event : Type :=
| EStart                                  (* [start()] is called *)
| EStop                                   (* [stop()] is called *)
| ETimerFires (h : nat)                   (* the runtime runs the callback of [h] *)
| ERunReturns (i : CycleInput).           (* a begun [run] reaches its end *)

(** One step; [None] when the event cannot happen in this state. *)
Definition step (a : Agent) (e : Event) : option (Agent * list Obs) :=
  match e with
  | EStart => Some (start a, [])
  | EStop => Some (stop a)
  | ETimerFires h =>
      if bool_decide (h ∈ armed a) then
        let fired :=
          {| kind := kind a; agentPair := agentPair a; config := config a;
             isRunning := isRunning a; timeoutId := timeoutId a;
             armed := clearTimeout h (armed a);
             nextHandle := nextHandle a;
             inFlight := if isRunning a then S (inFlight a) else inFlight a;
             activeMakerOrders := activeMakerOrders a;
             recentPrices := recentPrices a |} in
        Some (fired, if isRunning a then [ObsRunBegins (kind a)] else [])
      else None
  | ERunReturns i =>
      match inFlight a with
      | O => None
      | S k =>
          let '(orders, prices, sent, early) := runBody a i in
          let a1 :=
            {| kind := kind a; agentPair := agentPair a; config := config a;
               isRunning := isRunning a; timeoutId := timeoutId a;
               armed := armed a; nextHandle := nextHandle a; inFlight := k;
               activeMakerOrders := orders; recentPrices := prices |} in
          let a2 := if early then scheduleNextRun a1 else a1 in
          Some (scheduleNextRun a2, ObsCall (kind a) <$> sent)
      end
  end.

Fixpoint exec (a : Agent) (es : list Event) : option (Agent * list Obs) :=
  match es with
  | [] => Some (a, [])
  | e :: rest =>
      match step a e with
      | Some (a1, o1) =>
          match exec a1 rest with
          | Some (a2, o2) => Some (a2, o1 ++ o2)
          | None => None
          end
      | None => None
      end
  end.

(** The states an agent reaches from its construction. *)
Inductive reachable : Agent -> Prop :=
| reach_new k p cfg : reachable (newAgent k p cfg)
| reach_step a e a' o : reachable a -> step a e = Some (a', o) -> reachable a'.

End BaseBot.

(** ** src/trading/PairTrader.ts *)

Module PairTrader.

Record PairTrader : Type := mkPairTrader {
  pair_ : TradingPair;
  mmBot : BaseBot.Agent;
  mtBot : BaseBot.Agent;
  isRunning : bool
}.

Definition new (p : TradingPair) (cfg : PairConfig) : PairTrader :=
  {| pair_ := p;
     mmBot := BaseBot.newAgent Maker p cfg;
     mtBot := BaseBot.newAgent Taker p cfg;
     isRunning := false |}.

(** How [initializeClient] of the two bots ends: [true] when the client
    initializes and is authenticated, [false] when the call throws. *)
Record ClientInit : Type := mkClientInit {
  makerClientOk : bool;
  takerClientOk : bool
}.

(** [start()] run to its end with nothing else happening during its
    two-second wait: [None] when it rejects.  [startBegin] and
    [startResume] below are its two halves. *)
Definition start (env : ClientInit) (t : PairTrader) : option PairTrader :=
  if negb (makerClientOk env) then None
  else if negb (takerClientOk env) then None
  else if isRunning t then Some t
  else
    Some {| pair_ := pair_ t;
            mmBot := BaseBot.start (mmBot t);
            mtBot := BaseBot.start (mtBot t);
            isRunning := true |}.

(** [stop()]: the taker bot is stopped first, then the maker bot. *)
Definition stop (t : PairTrader) : PairTrader * list Obs :=
  if negb (isRunning t) then (t, [])
  else
    let '(mt, o1) := BaseBot.stop (mtBot t) in
    let '(mm, o2) := BaseBot.stop (mmBot t) in
    ({| pair_ := pair_ t; mmBot := mm; mtBot := mt; isRunning := false |},
     o1 ++ o2).

(** [start()] up to its two-second wait: the clients are initialized, the
    pair is marked running and the maker is started.  [None] when a client
    fails; the flag tells whether the call goes on to the wait ([false]:
    the pair was running already and the call has returned). *)
Definition startBegin (env : ClientInit) (t : PairTrader) : option (PairTrader * bool) :=
  if negb (makerClientOk env) then None
  else if negb (takerClientOk env) then None
  else if isRunning t then Some (t, false)
  else
    Some ({| pair_ := pair_ t;
             mmBot := BaseBot.start (mmBot t);
             mtBot := mtBot t;
             isRunning := true |}, true).

(** The rest of [start()], run when the wait is over:
    [await this.mtBot.start()].  Nothing is checked again. *)
Definition startResume (t : PairTrader) : PairTrader :=
  {| pair_ := pair_ t;
     mmBot := mmBot t;
     mtBot := BaseBot.start (mtBot t);
     isRunning := isRunning t |}.

End PairTrader.

(** ** src/trading/BotManager.ts and src/index.ts *)

Module BotManager.

Record BotManager : Type := mkBotManager {
  traders : list (string * PairTrader.PairTrader);   (* Map<string, PairTrader> *)
  isRunning : bool
}.

Definition new : BotManager := {| traders := []; isRunning := false |}.

(** What start-up reads from outside: whether
    [marketDataProvider.initialize()] resolves, the configured pairs with
    their effective configuration, and how the clients of each pair
    initialize. *)
Record Env : Type := mkEnv {
  marketDataInitOk : bool;
  pairs : list (TradingPair * PairConfig);
  clientInit : string -> PairTrader.ClientInit
}.

Definition traders_set (k : string) (v : PairTrader.PairTrader)
    (m : list (string * PairTrader.PairTrader)) : list (string * PairTrader.PairTrader) :=
  if bool_decide (k ∈ m.*1)
  then (fun e : string * PairTrader.PairTrader =>
          if bool_decide (e.1 = k) then (k, v) else e) <$> m
  else m ++ [(k, v)].

(** [initialize()]: the [catch] turns a failure into the result [false]. *)
Definition initialize (env : Env) (b : BotManager) : BotManager * bool :=
  if marketDataInitOk env
  then
    ({| traders :=
          foldl (fun m pc => traders_set (symbol pc.1) (PairTrader.new pc.1 pc.2) m)
                (traders b) (pairs env);
        isRunning := isRunning b |}, true)
  else (b, false).

(** How an [async] call that returns nothing ends. *)
Inductive Completion : Type := Returns | Throws.

(** [await Promise.all(traders.map(t => t.start()))]: every [start] runs;
    the whole rejects when one of them does. *)
Definition startAll (env : Env) (ts : list (string * PairTrader.PairTrader))
    : list (string * PairTrader.PairTrader) * Completion :=
  let results :=
    (fun e : string * PairTrader.PairTrader =>
       (e, PairTrader.start (clientInit env e.1) e.2)) <$> ts in
  ((fun r : (string * PairTrader.PairTrader) * option PairTrader.PairTrader =>
      match r.2 with Some t' => (r.1.1, t') | None => r.1 end) <$> results,
   if forallb (fun r : (string * PairTrader.PairTrader) * option PairTrader.PairTrader =>
                 bool_decide (is_Some r.2)) results
   then Returns else Throws).

(** [start()] *)
Definition start (env : Env) (b : BotManager) : BotManager * Completion :=
  if isRunning b then (b, Returns)
  else
    let '(b1, initialized) := initialize env b in
    if negb initialized then (b1, Returns)
    else
      let '(ts, c) := startAll env (traders b1) in
      ({| traders := ts; isRunning := true |}, c).

(** The pair traders that are running. *)
Definition started (b : BotManager) : list string :=
  (filter (fun e : string * PairTrader.PairTrader => PairTrader.isRunning e.2 = true)
          (traders b)).*1.

(** [Promise.all(traders.map(t => t.stop()))]: the stopped traders and
    what their stops did.  Each [stop()] runs up to its first [await], that
    is through the stop of its taker, before the next one is called; the
    makers are stopped when the calls resume: every running pair's taker
    is stopped, in the order of the map, before any maker. *)
Definition stopAll (ts : list (string * PairTrader.PairTrader))
    : list (string * PairTrader.PairTrader) * list Obs :=
  let running :=
    filter (fun e : string * PairTrader.PairTrader => PairTrader.isRunning e.2 = true) ts in
  ((fun e : string * PairTrader.PairTrader => (e.1, (PairTrader.stop e.2).1)) <$> ts,
   concat ((fun e : string * PairTrader.PairTrader =>
              (BaseBot.stop (PairTrader.mtBot e.2)).2) <$> running)
   ++ concat ((fun e : string * PairTrader.PairTrader =>
                 (BaseBot.stop (PairTrader.mmBot e.2)).2) <$> running)).

(** [stop()]: the manager afterwards (its map is cleared), the traders it
    stopped, and what their stops did. *)
Definition stop (b : BotManager)
    : BotManager * list (string * PairTrader.PairTrader) * list Obs :=
  if negb (isRunning b) then (b, [], [])
  else
    let '(stopped, obs) := stopAll (traders b) in
    ({| traders := []; isRunning := false |}, stopped, obs).

End BotManager.

(** [main] of src/index.ts, up to its last [await], on a start-up during
    which no signal arrives.  [Waiting] says that [main] got there without
    calling [process.exit]; the process itself then runs on only while a
    timer or a cycle of some bot is pending, and ends by itself with status
    0 when there is none. *)
Inductive ProcessState : Type :=
| Exited (code : Z)            (* [process.exit(code)] was called *)
| Waiting                      (* [main] is suspended in its last [await] *).

Definition main (env : BotManager.Env) : BotManager.BotManager * ProcessState :=
  match BotManager.start env BotManager.new with
  | (b, BotManager.Returns) => (b, Waiting)
  | (b, BotManager.Throws) => (b, Exited 1)
  end.


(** ** src/market_data/ccxtProvider.ts *)

Module CcxtProvider.

(** A field of the exchange's ticker: a number, [null] or [undefined]. *)
Inductive JsNum : Type :=
| Undefined
| Null
| Num (q : Q).

(** [x ?? y] *)
Definition nullishNum (x y : JsNum) : JsNum :=
  match x with Num q => Num q | _ => y end.

(** A field as [TickerData] stores it ([number | null]). *)
Definition toField (x : JsNum) : option Q :=
  match x with Num q => Some q | _ => None end.

Record ExchangeTicker : Type := mkExchangeTicker {
  et_bid : JsNum;
  et_ask : JsNum;
  et_last : JsNum;
  et_timestamp : option Z
}.

(** How [exchange.fetchTicker(symbol)] ends. *)
Inductive FetchResult : Type :=
| FetchThrows
| FetchReturns (ticker : option ExchangeTicker).   (* [None]: a falsy answer *)

(** The exchange instance: the symbols of its loaded markets, if any. *)
Record Exchange : Type := mkExchange {
  markets : option (list string)
}.

(** [fetchTicker(ccxtSymbol)] on the provider whose [exchange] field is
    [exchange] ([None] while the field is [null], as it is before
    [initialize] has created the instance). *)
Definition fetchTicker (exchange : option Exchange) (fetch : string -> FetchResult)
    (now : Z) (ccxtSymbol : string) : option TickerData :=
  match exchange with
  | None => None
  | Some ex =>
      match markets ex with
      | None => None
      | Some ms =>
          if bool_decide (ccxtSymbol ∈ ms) then
            match fetch ccxtSymbol with
            | FetchThrows => None
            | FetchReturns None => None
            | FetchReturns (Some ticker) =>
                match et_bid ticker, et_ask ticker with
                | Undefined, _ | _, Undefined => None
                | _, _ =>
                    Some {| tk_symbol := ccxtSymbol;
                            tk_timestamp := default now (et_timestamp ticker);
                            tk_bid := toField (et_bid ticker);
                            tk_ask := toField (et_ask ticker);
                            tk_last := toField (nullishNum (et_last ticker) (et_bid ticker)) |}
                end
            end
          else None
      end
  end.

End CcxtProvider.

(** * Specification predicates *)

Section MatcherSpec.
Context {Ref : Type} (deref : Ref -> Order).
Variables (existingOrder : Order) (maxP maxS : Q).

(** A candidate is eligible when it has the side and the kind of the
    resting order and both deviations are within their thresholds. *)
Definition eligible (r : Ref) : bool :=
  sameTypeOrder deref existingOrder r
  && withinThresholds deref existingOrder r maxP maxS.

End MatcherSpec.

(** An order without a usable price: the field is absent, or it is [0]
    (falsy, like an absent one). *)
Definition noUsablePrice (o : Order) : Prop :=
  price o = None \/ exists q, price o = Some q /\ q == 0.

(** Sample orders. *)
Definition sampleOrder (s : OrderSide) (t : OrderType) (p : option Q) (sz : Q) : Order :=
  {| pair := "BTC-USDB"; side := s; type := t; price := p; size := sz;
     timestamp := 0; level := None; id := None; status := None |}.

(** ** Reconciliation *)

(** The resting map as the bot maintains it: keys are pairwise distinct,
    and every order is stored under its own, non-empty id. *)
Definition wf_resting (m : MarketMakerBot.RestingMap) : Prop :=
  NoDup m.*1
  /\ Forall (fun e : string * Order => id e.2 = Some e.1 /\ Js.truthy_str e.1 = true) m.

(** The id under which a placement is recorded: the first id of the
    answer, when the call resolves with one that is not empty. *)
Definition placedId (r : SubmitResult) : option string :=
  match r with
  | SubmitIds (orderId :: _) => if Js.truthy_str orderId then Some orderId else None
  | _ => None
  end.

(** The map entries of the placements that succeed among [toPlace]. *)
Definition placedEntries (venue : Venue) (toPlace : list (nat * Order))
    : list (string * Order) :=
  omap (fun r : nat * Order =>
          (fun orderId => (orderId, MarketMakerBot.finalOrder r.2 orderId))
            <$> placedId (submitOrder venue r.1))
       toPlace.

(** Venue-assigned ids identify orders: the ids the venue returns for the
    placements [toPlace] are pairwise distinct and none is a key of the
    map. *)
Definition fresh_ids (venue : Venue) (m : MarketMakerBot.RestingMap)
    (toPlace : list (nat * Order)) : Prop :=
  NoDup (m.*1 ++ (placedEntries venue toPlace).*1).

(** What the specification says of the map after a cycle with the result
    [r]: it holds exactly the orders marked keep, the orders marked cancel
    when the batch cancel failed, and every order of a placement that
    succeeded, under the returned id. *)
Definition holdsExactly (venue : Venue) (r : MarketMakerBot.ManageResult) : Prop :=
  forall e : string * Order,
    e ∈ MarketMakerBot.resting r
    <-> e ∈ MarketMakerBot.kept r
        \/ (e ∈ MarketMakerBot.cancelled r
            /\ cancelOrders venue
                 (omap (fun c : string * Order => id c.2) (MarketMakerBot.cancelled r))
               = false)
        \/ exists slot d orderId,
             (slot, d) ∈ MarketMakerBot.toPlace r
             /\ placedId (submitOrder venue slot) = Some orderId
             /\ e = (orderId, MarketMakerBot.finalOrder d orderId).

(** [l] split into [K] and [C], each in the order of [l]. *)
Inductive Partition {A : Type} : list A -> list A -> list A -> Prop :=
| part_nil : Partition [] [] []
| part_keep x l K C : Partition l K C -> Partition (x :: l) (x :: K) C
| part_cancel x l K C : Partition l K C -> Partition (x :: l) K (x :: C).

(** Two orders quote the same: same side and kind, the same non-zero price
    and the same non-zero size. *)
Definition sameQuote (a b : Order) : Prop :=
  side a = side b /\ type a = type b
  /\ (exists p q, price a = Some p /\ price b = Some q /\ p == q /\ ~ p == 0)
  /\ size a == size b /\ ~ size a == 0.

(** The desired orders are the resting orders again, in any order: there
    is a one-to-one pairing [ps] of the resting orders with the desired
    orders (each with its slot) in which every desired order quotes the
    same as its resting order. *)
Definition exactRepeat (m : MarketMakerBot.RestingMap) (newOrders : list Order) : Prop :=
  exists ps : list (nat * Order),
    ps ≡ₚ MarketMakerBot.slots newOrders
    /\ Forall2 (fun (e : string * Order) (p : nat * Order) => sameQuote e.2 p.2) m ps.

(** The desired orders repeat the resting orders within tolerance, in any
    order and without ambiguity: there is a one-to-one pairing [ps] in
    which every desired order is eligible for its resting order and its
    summed deviation from it is strictly below that of every other desired
    order eligible for that resting order. *)
Definition closestRepeat (m : MarketMakerBot.RestingMap) (newOrders : list Order) : Prop :=
  exists ps : list (nat * Order),
    ps ≡ₚ MarketMakerBot.slots newOrders
    /\ Forall2
         (fun (e : string * Order) (p : nat * Order) =>
            eligible snd e.2 MarketMakerBot.maxPriceDeviation
              MarketMakerBot.maxSizeDeviation p = true
            /\ forall d : nat * Order,
                 d ∈ MarketMakerBot.slots newOrders -> d <> p ->
                 eligible snd e.2 MarketMakerBot.maxPriceDeviation
                   MarketMakerBot.maxSizeDeviation d = true ->
                 Js.xltb (totalDeviation snd e.2 p) (totalDeviation snd e.2 d) = true)
         m ps.

(** The desired orders repeat the resting orders within tolerance, slot by
    slot: each desired order is eligible for the resting order of its
    slot. *)
Definition toleranceRepeat (m : MarketMakerBot.RestingMap) (newOrders : list Order) : Prop :=
  Forall2 (fun (e : string * Order) (d : Order) =>
             eligible (fun o : Order => o) e.2 MarketMakerBot.maxPriceDeviation
               MarketMakerBot.maxSizeDeviation d = true)
          m newOrders.

(** ** Sample data *)

Definition sampleMakerConfig (ratio : Q) : MarketMakerConfig :=
  {| baseSpreadPercentage := Some (1 # 1000);
     spreadVolatilityMultiplier := Some (15 # 10);
     depthLevels := Some 1%nat;
     baseSizePerLevel := Some (1 # 10);
     sizeRandomizationFactor := Some (2 # 10);
     updateIntervalMs := Some 1000;
     updateIntervalVariance := Some (3 # 10);
     cancelReplaceRatio := Some ratio |}.

Definition sampleTakerConfig : MarketTakerConfig :=
  {| avgActionIntervalMs := 5000;
     actionIntervalVariance := 2 # 10;
     marketOrderProbability := 6 # 10;
     baseOrderSize := 2 # 100;
     taker_sizeRandomizationFactor := 3 # 10;
     strategyProbabilities :=
       {| p_random := 5 # 10; p_momentum := 3 # 10;
          p_meanReversion := 1 # 10; p_passiveLimit := 1 # 10 |};
     momentumLookbackTicks := 3;
     meanReversionThreshold := 3 # 1000 |}.

Definition sampleConfig (ratio : Q) : PairConfig :=
  {| marketMaker := sampleMakerConfig ratio;
     marketTaker := sampleTakerConfig;
     volatilityEstimate := Some (1 # 100) |}.

Definition samplePair : TradingPair :=
  {| symbol := "BTC-USDB"; baseAsset := "BTC"; quoteAsset := "USDB";
     ccxtSymbol := "BTC/USD" |}.

(** A resting order as the maker stores it. *)
Definition restingOrder (k : string) (s : OrderSide) (p sz : Q) : string * Order :=
  (k, {| pair := "BTC-USDB"; side := s; type := limit; price := Some p; size := sz;
         timestamp := 0; level := Some 1%nat; id := Some k; status := Some st_new |}).

(** Every draw of [Math.random()] returns [r]. *)
Definition constDraws (r : Q) : nat -> Q := fun _ => r.

(** A venue whose batch cancel ends as [cancelOk] and whose placements all
    throw, except that of slot [slot], which returns the id [orderId]. *)
Definition sampleVenue (cancelOk : bool) (slot : nat) (orderId : string) : Venue :=
  {| cancelOrders := fun _ => cancelOk;
     submitOrder := fun i => if bool_decide (i = slot) then SubmitIds [orderId]
                             else SubmitThrows |}.

Definition sampleTicker (b a l : Q) : TickerData :=
  {| tk_symbol := "BTC/USD"; tk_timestamp := 0;
     tk_bid := Some b; tk_ask := Some a; tk_last := Some l |}.

(** The sample configuration with a ladder of [depth] levels. *)
Definition deepConfig (depth : nat) : PairConfig :=
  {| marketMaker :=
       {| baseSpreadPercentage := Some (1 # 1000);
          spreadVolatilityMultiplier := Some (15 # 10);
          depthLevels := Some depth;
          baseSizePerLevel := Some (1 # 10);
          sizeRandomizationFactor := Some (2 # 10);
          updateIntervalMs := Some 1000;
          updateIntervalVariance := Some (3 # 10);
          cancelReplaceRatio := Some 0 |};
     marketTaker := sampleTakerConfig;
     volatilityEstimate := Some (1 # 100) |}.

(** The unrounded ask price of the ladder at loop index [i]. *)
Definition askPriceAt (targetBestBid targetBestAsk : Q) (i : nat) : Q :=
  targetBestAsk
  + inject_Z (Z.of_nat i) * ((targetBestAsk - targetBestBid) / 2)
    * (1 + inject_Z (Z.of_nat i) * (1 # 10)).

(** A quote with a positive price and a positive size. *)
Definition positiveQuote (o : Order) : Prop :=
  match price o with Some p => 0 < p | None => False end /\ 0 < size o.

(** ** Lifecycle *)

(** An observation is a request sent to the order-execution client. *)
Definition isClientCall (o : Obs) : bool :=
  match o with
  | ObsCall _ _ => true
  | ObsStop (MarketMakerBot.ClientCall _) => true
  | _ => false
  end.

(** At most the timer whose handle the agent holds is armed. *)
Definition timers_tracked (a : BaseBot.Agent) : Prop :=
  forall h, h ∈ BaseBot.armed a -> BaseBot.timeoutId a = Some h.

(** The agent is stopped and no timer of it is armed. *)
Definition quiescent (a : BaseBot.Agent) : Prop :=
  BaseBot.isRunning a = false /\ BaseBot.armed a = [].

(** The agent after the given events, from its construction. *)
Definition agentAfter (k : BotKind) (es : list BaseBot.Event) : BaseBot.Agent :=
  match BaseBot.exec (BaseBot.newAgent k samplePair (sampleConfig 0)) es with
  | Some (a, _) => a
  | None => BaseBot.newAgent k samplePair (sampleConfig 0)
  end.

(** What a cycle reads when the ticker is 100 / 100.1 and the venue
    accepts everything. *)
Definition sampleInput : CycleInput :=
  {| ci_ticker := Some (sampleTicker 100 (1001 # 10) 100);
     ci_venue := sampleVenue true 0 "id-1";
     ci_rnd := constDraws (1 # 2);
     ci_now := 0 |}.

(** A started pair whose maker has run one cycle on [sampleInput]: it
    holds the level-1 bid, placed under the id "id-1" (the placement of the
    ask was rejected). *)
Definition runningPair : PairTrader.PairTrader :=
  {| PairTrader.pair_ := samplePair;
     PairTrader.mmBot :=
       agentAfter Maker [BaseBot.EStart; BaseBot.ETimerFires 0;
                         BaseBot.ERunReturns sampleInput];
     PairTrader.mtBot := agentAfter Taker [BaseBot.EStart];
     PairTrader.isRunning := true |}.

(** ** The ladder *)

(** The unrounded bid price of the ladder at loop index [i]. *)
Definition bidPriceAt (targetBestBid targetBestAsk : Q) (i : nat) : Q :=
  targetBestBid
  - inject_Z (Z.of_nat i) * ((targetBestAsk - targetBestBid) / 2)
    * (1 + inject_Z (Z.of_nat i) * (1 # 10)).

(** [o] is a quote of the ladder built from the targets [tb] and [ta]
    with [depth] levels: a limit order without id, of positive size, whose
    price is the rounded price of its side at its level. *)
Definition ladderQuote (sym : string) (depth : nat) (tb ta : Q) (o : Order) : Prop :=
  pair o = sym /\ type o = limit /\ id o = None /\ status o = None /\ 0 < size o
  /\ exists i : nat,
       (i < depth)%nat /\ level o = Some (i + 1)%nat
       /\ ((side o = bid /\ price o = Some (roundToDecimalPlaces (bidPriceAt tb ta i) 5))
           \/ (side o = ask /\ price o = Some (roundToDecimalPlaces (askPriceAt tb ta i) 5))).


(** The quotes of the ladder at loop index [i] when the level is not
    discarded, the two sizes being drawn at [n] and [n + 1]: the bid when
    its size is positive, then the ask when its size is positive. *)
Definition levelQuotes (rnd : nat -> Q) (sym : string) (now : Z)
    (tb ta base srf : Q) (n i : nat) : list Order :=
  let levelFactor := 1 + inject_Z (Z.of_nat i) * (1 # 10) in
  let bidSize :=
    roundToDecimalPlaces (applyVariance (rnd n) (base * levelFactor) srf) 8 in
  let askSize :=
    roundToDecimalPlaces (applyVariance (rnd (S n)) (base * levelFactor) srf) 8 in
  (if Js.gtb bidSize 0
   then [{| pair := sym; side := bid; type := limit;
            price := Some (roundToDecimalPlaces (bidPriceAt tb ta i) 5);
            size := bidSize; timestamp := now; level := Some (i + 1)%nat;
            id := None; status := None |}]
   else [])
  ++ (if Js.gtb askSize 0
      then [{| pair := sym; side := ask; type := limit;
               price := Some (roundToDecimalPlaces (askPriceAt tb ta i) 5);
               size := askSize; timestamp := now; level := Some (i + 1)%nat;
               id := None; status := None |}]
      else []).

(** The ladder of [depth] levels, level by level: nothing for a level
    whose rounded bid price is not positive, the quotes of the level
    otherwise. *)
Definition ladderOf (rnd : nat -> Q) (sym : string) (now : Z)
    (tb ta base srf : Q) (n depth : nat) : list Order :=
  concat ((fun i : nat =>
             if Js.leb (roundToDecimalPlaces (bidPriceAt tb ta i) 5) 0 then []
             else levelQuotes rnd sym now tb ta base srf (n + 2 * i) i)
          <$> seq 0 depth).

(** A maker configuration whose size factor lets a size reach 0. *)
Definition wideSizeConfig : PairConfig :=
  {| marketMaker :=
       {| baseSpreadPercentage := Some (1 # 1000);
          spreadVolatilityMultiplier := Some (15 # 10);
          depthLevels := Some 2%nat;
          baseSizePerLevel := Some (1 # 10);
          sizeRandomizationFactor := Some 1;
          updateIntervalMs := Some 1000;
          updateIntervalVariance := Some (3 # 10);
          cancelReplaceRatio := Some 0 |};
     marketTaker := sampleTakerConfig;
     volatilityEstimate := Some (1 # 100) |}.

(** ** Requests of a cycle *)

Definition isCancelCall (c : VenueCall) : bool :=
  match c with CallCancelOrders _ => true | CallSubmitOrder _ _ => false end.

(** The orders of the placements among the requests [cs]. *)
Definition submittedOrders (cs : list VenueCall) : list Order :=
  omap (fun c => match c with CallSubmitOrder _ o => Some o | CallCancelOrders _ => None end) cs.

(** ** The taker's price window *)


(** ** The timer loop *)

(** The timers of an agent: at most one is armed, it is the one whose
    handle the agent holds, and none is armed while the agent is stopped. *)
Definition timer_inv (a : BaseBot.Agent) : Prop :=
  timers_tracked a
  /\ (length (BaseBot.armed a) <= 1)%nat
  /\ (BaseBot.isRunning a = false -> BaseBot.armed a = []).

(** The loop of an agent that was never stopped: while it runs, either
    its timer is armed or one cycle is in flight, never both and never two
    cycles; before its start there is neither. *)
Definition loop_alive (a : BaseBot.Agent) : Prop :=
  if BaseBot.isRunning a
  then (length (BaseBot.armed a) + BaseBot.inFlight a = 1)%nat
  else BaseBot.armed a = [] /\ BaseBot.inFlight a = 0%nat.

(** ** Start-up *)

(** Both clients of a pair initialize. *)
Definition clientsOk (c : PairTrader.ClientInit) : bool :=
  PairTrader.makerClientOk c && PairTrader.takerClientOk c.


(** An exchange that lists the sample symbol and answers with bid 100,
    ask 100.1 and no last price. *)
Definition sampleExchange : option CcxtProvider.Exchange :=
  Some {| CcxtProvider.markets := Some ["BTC/USD"] |}.

Definition sampleFetch : string -> CcxtProvider.FetchResult :=
  fun _ =>
    CcxtProvider.FetchReturns
      (Some {| CcxtProvider.et_bid := CcxtProvider.Num 100;
               CcxtProvider.et_ask := CcxtProvider.Num (1001 # 10);
               CcxtProvider.et_last := CcxtProvider.Undefined;
               CcxtProvider.et_timestamp := None |}).

(** * Properties *)

(** ** Comparisons of JavaScript numbers *)

Lemma ltb_lt (x y : Q) : Js.ltb x y = true <-> x < y.
Proof.
  unfold Js.ltb. rewrite Qlt_alt. destruct (x ?= y); split; congruence.
Qed.

Lemma ltb_ge (x y : Q) : Js.ltb x y = false <-> y <= x.
Proof.
  split.
  - intros H. destruct (Qlt_le_dec x y) as [L | L]; [| exact L].
    apply ltb_lt in L. congruence.
  - intros H. destruct (Js.ltb x y) eqn:E; [| reflexivity].
    apply ltb_lt in E. lra.
Qed.

Lemma leb_le (x y : Q) : Js.leb x y = true <-> x <= y.
Proof. apply Qle_bool_iff. Qed.

Lemma leb_gt (x y : Q) : Js.leb x y = false <-> y < x.
Proof.
  split.
  - intros H. destruct (Qlt_le_dec y x) as [L | L]; [exact L |].
    apply leb_le in L. congruence.
  - intros H. destruct (Js.leb x y) eqn:E; [| reflexivity].
    apply leb_le in E. lra.
Qed.

Lemma truthy_true (x : Q) : Js.truthy x = true <-> ~ x == 0.
Proof.
  unfold Js.truthy. rewrite negb_true_iff. split.
  - intros H E. apply Qeq_bool_iff in E. congruence.
  - intros H. destruct (Qeq_bool x 0) eqn:E; [| reflexivity].
    apply Qeq_bool_iff in E. contradiction.
Qed.

Lemma truthy_false (x : Q) : Js.truthy x = false <-> x == 0.
Proof.
  unfold Js.truthy. rewrite negb_false_iff. apply Qeq_bool_iff.
Qed.

(** ** The matcher ([findMatchingOrder]) *)

Section Matcher.
Context {Ref : Type} (deref : Ref -> Order).
Variables (existingOrder : Order) (maxP maxS : Q).

Abbreviation total := (totalDeviation deref existingOrder).
Abbreviation elig := (eligible deref existingOrder maxP maxS).

(** Within the thresholds, the deviations are finite and bounded. *)
Lemma within_finite (r : Ref) :
  withinThresholds deref existingOrder r maxP maxS = true ->
  exists p s,
    priceDeviation (compareOrders existingOrder (deref r)) = Js.Fin p
    /\ sizeDeviation (compareOrders existingOrder (deref r)) = Js.Fin s
    /\ total r = Js.Fin (p + s) /\ p <= maxP /\ s <= maxS.
Proof.
  unfold withinThresholds, totalDeviation. cbv zeta.
  generalize (priceDeviation (compareOrders existingOrder (deref r))).
  generalize (sizeDeviation (compareOrders existingOrder (deref r))).
  intros [s | |] [p | |]; cbn [Js.xleb Js.xadd andb]; rewrite ?andb_false_r;
    try discriminate.
  intros H. apply andb_prop in H as [Hp Hs].
  apply leb_le in Hp. apply leb_le in Hs.
  exists p, s. repeat split; assumption.
Qed.

(** The loop from the state [(best, Fin q)]: either no candidate beats
    [q] and [best] stays, or the result is the first minimizer below
    [q]. *)
Lemma findLoop_spec (cands : list Ref) :
  forall (best : option Ref) (q : Q),
    let res := findLoop deref existingOrder maxP maxS
                 (filter (fun r => sameTypeOrder deref existingOrder r = true) cands)
                 best (Js.Fin q) in
    (res = best
     /\ forall r, r ∈ cands -> elig r = true -> Js.xleb (Js.Fin q) (total r) = true)
    \/ (exists l1 b l2,
          cands = l1 ++ b :: l2 /\ res = Some b /\ elig b = true
          /\ Js.xltb (total b) (Js.Fin q) = true
          /\ (forall r, r ∈ l1 -> elig r = true -> Js.xltb (total b) (total r) = true)
          /\ (forall r, r ∈ l2 -> elig r = true -> Js.xleb (total b) (total r) = true)).
Proof.
  induction cands as [| c l IH]; intros best q; cbn zeta.
  - left. split; [reflexivity |]. intros r Hr. inversion Hr.
  - rewrite filter_cons.
    destruct (decide (sameTypeOrder deref existingOrder c = true)) as [Hs | Hs].
    + cbn [findLoop].
      destruct (Js.xltb (total c) (Js.Fin q)) eqn:Hlt; cbn [andb].
      * destruct (withinThresholds deref existingOrder c maxP maxS) eqn:Hw.
        -- destruct (within_finite c Hw) as (p & s & _ & _ & Ht & _ & _).
           rewrite Ht in *. cbn in Hlt. apply ltb_lt in Hlt.
           destruct (IH (Some c) (p + s)) as [[Hres Hall] | (l1 & b & l2 & Hl & Hres & Hb & Hbq & H1 & H2)].
           ++ right. exists [], c, l. repeat split.
              ** exact Hres.
              ** unfold eligible. rewrite Hs, Hw. reflexivity.
              ** rewrite Ht. cbn. apply ltb_lt. exact Hlt.
              ** intros r Hr. inversion Hr.
              ** intros r Hr He. rewrite Ht. apply Hall; assumption.
           ++ right. exists (c :: l1), b, l2. repeat split.
              ** rewrite Hl. reflexivity.
              ** exact Hres.
              ** exact Hb.
              ** destruct (total b) as [tb | |]; cbn in *; try discriminate.
                 apply ltb_lt. apply ltb_lt in Hbq. lra.
              ** intros r Hr He. apply elem_of_cons in Hr as [-> | Hr].
                 --- rewrite Ht. exact Hbq.
                 --- apply H1; assumption.
              ** exact H2.
        -- destruct (IH best q) as [[Hres Hall] | (l1 & b & l2 & Hl & Hres & Hb & Hbq & H1 & H2)].
           ++ left. split; [exact Hres |].
              intros r Hr He. apply elem_of_cons in Hr as [-> | Hr].
              ** unfold eligible in He. rewrite Hs, Hw in He. discriminate.
              ** apply Hall; assumption.
           ++ right. exists (c :: l1), b, l2. repeat split; try assumption.
              ** rewrite Hl. reflexivity.
              ** intros r Hr He. apply elem_of_cons in Hr as [-> | Hr].
                 --- unfold eligible in He. rewrite Hs, Hw in He. discriminate.
                 --- apply H1; assumption.
      * destruct (IH best q) as [[Hres Hall] | (l1 & b & l2 & Hl & Hres & Hb & Hbq & H1 & H2)].
        -- left. split; [exact Hres |].
           intros r Hr He. apply elem_of_cons in Hr as [-> | Hr].
           ** unfold eligible in He. apply andb_prop in He as [_ Hw].
              destruct (within_finite c Hw) as (p & s & _ & _ & Ht & _ & _).
              rewrite Ht in *. cbn in *. apply leb_le. apply ltb_ge in Hlt. exact Hlt.
           ** apply Hall; assumption.
        -- right. exists (c :: l1), b, l2. repeat split; try assumption.
           ** rewrite Hl. reflexivity.
           ** intros r Hr He. apply elem_of_cons in Hr as [-> | Hr].
              --- unfold eligible in He. apply andb_prop in He as [_ Hw].
                  destruct (within_finite c Hw) as (p & s & _ & _ & Ht & _ & _).
                  rewrite Ht in *. destruct (total b) as [tb | |]; cbn in *; try discriminate.
                  apply ltb_lt. apply ltb_lt in Hbq. apply ltb_ge in Hlt. lra.
              --- apply H1; assumption.
    + destruct (IH best q) as [[Hres Hall] | (l1 & b & l2 & Hl & Hres & Hb & Hbq & H1 & H2)].
      * left. split; [exact Hres |].
        intros r Hr He. apply elem_of_cons in Hr as [-> | Hr].
        -- unfold eligible in He. apply andb_prop in He as [He _]. contradiction.
        -- apply Hall; assumption.
      * right. exists (c :: l1), b, l2. repeat split; try assumption.
        -- rewrite Hl. reflexivity.
        -- intros r Hr He. apply elem_of_cons in Hr as [-> | Hr].
           ++ unfold eligible in He. apply andb_prop in He as [He _]. contradiction.
           ++ apply H1; assumption.
Qed.

(** A match is an eligible candidate of the list. *)
Lemma findMatchingOrder_Some (cands : list Ref) (b : Ref) :
  findMatchingOrder deref existingOrder cands maxP maxS = Some b ->
  b ∈ cands /\ elig b = true.
Proof.
  unfold findMatchingOrder. intros H.
  destruct (findLoop_spec cands None Js.MAX_VALUE)
    as [[Hres _] | (l1 & b' & l2 & Hl & Hres & Hb & _)]; cbn zeta in Hres.
  - congruence.
  - rewrite Hres in H. injection H as ->. split; [| exact Hb].
    rewrite Hl. apply elem_of_app. right. apply elem_of_cons. left. reflexivity.
Qed.

End Matcher.




(** C10.  [compareOrders] gives the price deviation 1 as soon as one of
    the two orders has no price or the price 0; hence, for every
    [maxPriceDeviation < 1], [findMatchingOrder] never returns a candidate
    when the resting order or that candidate has no price or the price 0. *)
Theorem C10_falsy_price_never_matches
    {Ref : Type} (deref : Ref -> Order) (existingOrder : Order) (c : Ref) :
  noUsablePrice existingOrder \/ noUsablePrice (deref c) ->
  priceDeviation (compareOrders existingOrder (deref c)) = Js.Fin 1
  /\ forall (newOrders : list Ref) (maxP maxS : Q),
       maxP < 1 ->
       findMatchingOrder deref existingOrder newOrders maxP maxS <> Some c.
Proof.
  intros Hno.
  assert (Hdev : priceDeviation (compareOrders existingOrder (deref c)) = Js.Fin 1).
  { unfold compareOrders. cbn [priceDeviation].
    destruct Hno as [[He | (q & He & Hq)] | [Hc | (q & Hc & Hq)]].
    - rewrite He. reflexivity.
    - rewrite He. destruct (price (deref c)); [| reflexivity].
      apply truthy_false in Hq. rewrite Hq. reflexivity.
    - rewrite Hc. destruct (price existingOrder); reflexivity.
    - rewrite Hc. destruct (price existingOrder); [| reflexivity].
      apply truthy_false in Hq. rewrite Hq, andb_false_r. reflexivity. }
  split; [exact Hdev |].
  intros newOrders maxP maxS Hlt Hfind.
  apply findMatchingOrder_Some in Hfind as [_ He].
  unfold eligible in He. apply andb_prop in He as [_ Hw].
  destruct (within_finite deref existingOrder maxP maxS c Hw)
    as (p & s & Hp & _ & _ & Hle & _).
  rewrite Hdev in Hp. injection Hp as <-. lra.
Qed.

(** A resting order with the price 0 against an identical candidate. *)
Lemma C10_witness :
  (noUsablePrice (sampleOrder bid limit (Some 0) 1)
   \/ noUsablePrice (sampleOrder bid limit (Some 0) 1))
  /\ (1 # 1000) < 1
  /\ priceDeviation (compareOrders (sampleOrder bid limit (Some 0) 1)
                       (sampleOrder bid limit (Some 0) 1)) = Js.Fin 1
  /\ findMatchingOrder (fun o : Order => o) (sampleOrder bid limit (Some 0) 1)
       [sampleOrder bid limit (Some 0) 1] (1 # 1000) (1 # 10)
     <> Some (sampleOrder bid limit (Some 0) 1).
Proof.
  assert (H : noUsablePrice (sampleOrder bid limit (Some 0) 1)
              \/ noUsablePrice (sampleOrder bid limit (Some 0) 1)).
  { left. right. exists 0. split; reflexivity. }
  assert (L : (1 # 1000) < 1) by reflexivity.
  destruct (C10_falsy_price_never_matches (fun o : Order => o)
              (sampleOrder bid limit (Some 0) 1) (sampleOrder bid limit (Some 0) 1) H)
    as [Hd Hf].
  split; [exact H |]. split; [exact L |]. split; [exact Hd |].
  exact (Hf [sampleOrder bid limit (Some 0) 1] (1 # 1000) (1 # 10) L).
Defined.

(** ** The matcher on an exact copy *)

Lemma MAX_VALUE_pos : 0 < Js.MAX_VALUE.
Proof. vm_compute. reflexivity. Qed.

Lemma totalDeviation_nonneg {Ref : Type} (deref : Ref -> Order)
    (existingOrder : Order) (r : Ref) (t : Q) :
  totalDeviation deref existingOrder r = Js.Fin t -> 0 <= t.
Proof.
  unfold totalDeviation, compareOrders. cbn [priceDeviation sizeDeviation].
  assert (Hp : exists p, 0 <= p /\
            match price existingOrder, price (deref r) with
            | Some pe, Some pn =>
                if Js.truthy pe && Js.truthy pn
                then Js.Fin (Qabs ((pe - pn) / pe)) else Js.Fin 1
            | _, _ => Js.Fin 1
            end = Js.Fin p).
  { destruct (price existingOrder) as [pe |], (price (deref r)) as [pn |];
      try (exists 1; split; [lra | reflexivity]).
    destruct (Js.truthy pe && Js.truthy pn).
    - eexists. split; [apply Qabs_nonneg | reflexivity].
    - exists 1. split; [lra | reflexivity]. }
  destruct Hp as (p & Hp0 & ->).
  unfold Js.abs_div.
  destruct (Js.truthy (size existingOrder)).
  - cbn [Js.xadd].
    pose proof (Qabs_nonneg ((size existingOrder - size (deref r)) / size existingOrder)) as Hs.
    revert Hs. generalize (Qabs ((size existingOrder - size (deref r)) / size existingOrder)).
    intros a Ha [= <-]. lra.
  - destruct (Js.truthy (size existingOrder - size (deref r))); cbn [Js.xadd]; discriminate.
Qed.

(** An exact copy deviates by nothing and is eligible under non-negative
    thresholds. *)
Lemma sameQuote_zero {Ref : Type} (deref : Ref -> Order)
    (existingOrder : Order) (r : Ref) (maxP maxS : Q) :
  sameQuote existingOrder (deref r) -> 0 <= maxP -> 0 <= maxS ->
  eligible deref existingOrder maxP maxS r = true
  /\ exists t, totalDeviation deref existingOrder r = Js.Fin t /\ t == 0.
Proof.
  intros (Hside & Htype & (p & q & Hpe & Hpn & Hpq & Hp0) & Hsz & Hs0) HP HS.
  assert (Hq0 : ~ q == 0) by (intros E; apply Hp0; rewrite Hpq; exact E).
  assert (Ed : (p - q) / p == 0).
  { rewrite Hpq. field. exact Hq0. }
  assert (Es : (size existingOrder - size (deref r)) / size existingOrder == 0).
  { rewrite <- Hsz. field. exact Hs0. }
  unfold eligible, sameTypeOrder, withinThresholds, totalDeviation, compareOrders.
  cbn [priceDeviation sizeDeviation]. rewrite Hpe, Hpn.
  apply truthy_true in Hp0. apply truthy_true in Hq0. apply truthy_true in Hs0.
  unfold Js.abs_div. rewrite Hp0, Hq0, Hs0. cbn [andb Js.xleb Js.xadd].
  rewrite !bool_decide_eq_true_2 by (symmetry; assumption). cbn [andb].
  split.
  - apply andb_true_intro. split; apply leb_le.
    + rewrite Ed. cbn. exact HP.
    + rewrite Es. cbn. exact HS.
  - eexists. split; [reflexivity |]. rewrite Ed, Es. reflexivity.
Qed.

(** When the first candidate is eligible and deviates by nothing, it is the
    match. *)
Lemma findMatchingOrder_head_zero {Ref : Type} (deref : Ref -> Order)
    (existingOrder : Order) (c : Ref) (rest : list Ref) (maxP maxS t : Q) :
  eligible deref existingOrder maxP maxS c = true ->
  totalDeviation deref existingOrder c = Js.Fin t -> t == 0 ->
  findMatchingOrder deref existingOrder (c :: rest) maxP maxS = Some c.
Proof.
  intros He Ht Ht0. unfold findMatchingOrder.
  destruct (findLoop_spec deref existingOrder maxP maxS (c :: rest) None Js.MAX_VALUE)
    as [[_ Hall] | (l1 & b & l2 & Hl & Hres & Hb & Hbq & H1 & _)]; cbn zeta in *.
  - exfalso. specialize (Hall c (list_elem_of_here _ _) He).
    rewrite Ht in Hall. cbn in Hall. apply leb_le in Hall.
    pose proof MAX_VALUE_pos. lra.
  - rewrite Hres. destruct l1 as [| c' l1].
    + cbn in Hl. injection Hl as -> _. reflexivity.
    + exfalso. cbn in Hl. injection Hl as <- _.
      specialize (H1 c (list_elem_of_here _ _) He). rewrite Ht in H1.
      destruct (totalDeviation deref existingOrder b) as [tb | |] eqn:Eb;
        cbn in H1; try discriminate.
      apply ltb_lt in H1. apply totalDeviation_nonneg in Eb. lra.
Qed.

(** ** Reconciliation ([manageOrders]) *)

Section Reconcile.
Import MarketMakerBot.

Lemma Partition_elem_of {A : Type} (l K C : list A) (x : A) :
  Partition l K C -> x ∈ l <-> x ∈ K \/ x ∈ C.
Proof.
  induction 1 as [| y l K C _ IH | y l K C _ IH]; rewrite ?elem_of_cons, ?elem_of_nil.
  - tauto.
  - rewrite IH. tauto.
  - rewrite IH. tauto.
Qed.

Lemma Partition_nil_r {A : Type} (l K : list A) : Partition l K [] -> K = l.
Proof.
  remember (@nil A) as C eqn:E. induction 1; subst; try discriminate.
  - reflexivity.
  - f_equal. auto.
Qed.

Lemma filter_ext_elem_of {A : Type} (P1 P2 : A -> Prop)
    `{!forall x, Decision (P1 x), !forall x, Decision (P2 x)} (l : list A) :
  (forall x, x ∈ l -> P1 x <-> P2 x) -> filter P1 l = filter P2 l.
Proof.
  induction l as [| a l IH]; intros Hext; [reflexivity |].
  assert (Ha : P1 a <-> P2 a) by (apply Hext; apply list_elem_of_here).
  assert (Hl : filter P1 l = filter P2 l).
  { apply IH. intros x Hx. apply Hext. apply list_elem_of_further. exact Hx. }
  destruct (decide (P1 a)) as [Y | N].
  - rewrite !filter_cons_True by tauto. rewrite Hl. reflexivity.
  - rewrite !filter_cons_False by tauto. exact Hl.
Qed.

(** Deleting the keys of [C] from [l] leaves [K]. *)
Lemma Partition_filter (l K C : RestingMap) :
  Partition l K C -> NoDup l.*1 ->
  filter (fun e : string * Order => e.1 ∉ C.*1) l = K.
Proof.
  induction 1 as [| x l K C HP IH | x l K C HP IH]; intros Hnd.
  - reflexivity.
  - rewrite fmap_cons in Hnd. apply NoDup_cons in Hnd as [Hx Hnd].
    rewrite filter_cons_True.
    + f_equal. apply IH. exact Hnd.
    + intros Hin. apply Hx. apply list_elem_of_fmap in Hin as (e & He & HeC).
      apply list_elem_of_fmap. exists e. split; [exact He |].
      apply (Partition_elem_of _ _ _ e HP). right. exact HeC.
  - rewrite fmap_cons in Hnd. apply NoDup_cons in Hnd as [Hx Hnd].
    rewrite filter_cons_False.
    + rewrite <- (IH Hnd). apply filter_ext_elem_of.
      intros e He. rewrite fmap_cons, elem_of_cons. split.
      * intros Hn Hin. apply Hn. right. exact Hin.
      * intros Hn [Heq | Hin]; [| contradiction].
        apply Hx. rewrite <- Heq. apply list_elem_of_fmap. exists e. split; [reflexivity | exact He].
    + intros Hn. apply Hn. rewrite fmap_cons. apply list_elem_of_here.
Qed.

Lemma filter_all {A : Type} (P : A -> Prop) `{!forall x, Decision (P x)} (l : list A) :
  (forall x, x ∈ l -> P x) -> filter P l = l.
Proof.
  induction l as [| a l IH]; intros Hall; [reflexivity |].
  rewrite filter_cons_True by (apply Hall; apply list_elem_of_here).
  f_equal. apply IH. intros x Hx. apply Hall. apply list_elem_of_further. exact Hx.
Qed.

Lemma classifyStep_lists (rnd : nat -> Q) (ratio : Q) (newOrders : list Order)
    (c : Classification) (e : string * Order) :
  (ordersToKeep (classifyStep rnd ratio newOrders c e) = ordersToKeep c ++ [e]
   /\ ordersToCancel (classifyStep rnd ratio newOrders c e) = ordersToCancel c)
  \/ (ordersToKeep (classifyStep rnd ratio newOrders c e) = ordersToKeep c
      /\ ordersToCancel (classifyStep rnd ratio newOrders c e) = ordersToCancel c ++ [e]).
Proof.
  unfold classifyStep.
  destruct (findMatchingOrder snd e.2 (unmatched newOrders (matchedNewOrders c))
              maxPriceDeviation maxSizeDeviation) as [r |];
    [destruct (Js.gtb (rnd (nextDraw c)) ratio) |]; cbn; auto.
Qed.

(** The first pass splits the entries it visits, in order, between
    [ordersToKeep] and [ordersToCancel]. *)
Lemma classify_partition (rnd : nat -> Q) (ratio : Q) (newOrders : list Order)
    (l : RestingMap) :
  forall c : Classification,
    exists K C,
      ordersToKeep (foldl (classifyStep rnd ratio newOrders) c l) = ordersToKeep c ++ K
      /\ ordersToCancel (foldl (classifyStep rnd ratio newOrders) c l) = ordersToCancel c ++ C
      /\ Partition l K C.
Proof.
  induction l as [| e l IH]; intros c.
  - exists [], []. cbn. rewrite !app_nil_r. repeat split. constructor.
  - cbn [foldl].
    destruct (IH (classifyStep rnd ratio newOrders c e)) as (K & C & HK & HC & HP).
    destruct (classifyStep_lists rnd ratio newOrders c e) as [[EK EC] | [EK EC]];
      rewrite EK, EC in *.
    + exists (e :: K), C. rewrite HK, HC, <- app_assoc. repeat split. constructor. exact HP.
    + exists K, (e :: C). rewrite HK, HC, <- app_assoc. repeat split. constructor. exact HP.
Qed.

Lemma removeCanceled_filter (m : RestingMap) (e : string * Order) :
  Js.truthy_str e.1 = true ->
  removeCanceled m e = filter (fun x : string * Order => x.1 <> e.1) m.
Proof.
  intros Ht. unfold removeCanceled.
  destruct (find (fun x : string * Order => bool_decide (x.1 = e.1)) m)
    as [[k o] |] eqn:Ef.
  - apply find_some in Ef as [_ Hk]. apply bool_decide_eq_true in Hk. cbn in Hk.
    subst k. rewrite Ht. reflexivity.
  - symmetry. apply filter_all. intros x Hx.
    pose proof (find_none _ _ Ef x) as Hn. cbv beta in Hn.
    rewrite bool_decide_eq_false in Hn. apply Hn. apply list_elem_of_In. exact Hx.
Qed.

(** After a successful batch cancel the loop over [ordersToCancel] deletes
    exactly their keys. *)
Lemma foldl_removeCanceled (C : list (string * Order)) :
  Forall (fun e : string * Order => Js.truthy_str e.1 = true) C ->
  forall m : RestingMap,
    foldl removeCanceled m C = filter (fun e : string * Order => e.1 ∉ C.*1) m.
Proof.
  induction 1 as [| e C He _ IH]; intros m.
  - cbn. symmetry. apply filter_all. intros x _. apply not_elem_of_nil.
  - cbn [foldl]. rewrite IH, (removeCanceled_filter m e He), list_filter_filter.
    apply list_filter_iff. intros x. rewrite fmap_cons, not_elem_of_cons. tauto.
Qed.

Lemma map_set_fresh (k : string) (v : Order) (m : RestingMap) :
  k ∉ m.*1 -> map_set k v m = m ++ [(k, v)].
Proof.
  intros Hk. unfold map_set, map_has. rewrite bool_decide_eq_false_2 by exact Hk.
  reflexivity.
Qed.

(** With fresh ids, every successful placement appends one entry, and every
    desired order to place is submitted once, in order. *)
Lemma foldl_placeStep (venue : Venue) (toPlace : list (nat * Order)) :
  forall (m : RestingMap) (sent : list VenueCall),
    NoDup (m.*1 ++ (placedEntries venue toPlace).*1) ->
    foldl (placeStep venue) (m, sent) toPlace
    = (m ++ placedEntries venue toPlace,
       sent ++ ((fun r : nat * Order => CallSubmitOrder r.1 r.2) <$> toPlace)).
Proof.
  induction toPlace as [| r l IH]; intros m sent Hnd.
  - cbn. rewrite !app_nil_r. reflexivity.
  - cbn [foldl]. unfold placeStep at 2. cbn [fst snd].
    unfold placedEntries in *. cbn [omap list_omap] in *. unfold placedId in *.
    destruct (submitOrder venue r.1) as [| [| orderId ids]]; cbn [fmap option_fmap option_map] in *.
    + rewrite IH by exact Hnd. rewrite fmap_cons, <- !app_assoc. reflexivity.
    + rewrite IH by exact Hnd. rewrite fmap_cons, <- !app_assoc. reflexivity.
    + destruct (Js.truthy_str orderId); cbn [fmap option_fmap option_map] in *.
      * rewrite map_set_fresh.
        -- rewrite IH.
           ++ rewrite fmap_cons, <- !app_assoc. reflexivity.
           ++ rewrite fmap_app, <- app_assoc. exact Hnd.
        -- apply NoDup_app in Hnd as (_ & Hd & _). intros Hin.
           apply (Hd _ Hin). rewrite fmap_cons. apply list_elem_of_here.
      * rewrite IH by exact Hnd. rewrite fmap_cons, <- !app_assoc. reflexivity.
Qed.

Lemma Partition_sublist {A : Type} (l K C : list A) :
  Partition l K C -> K `sublist_of` l.
Proof. induction 1; constructor; assumption. Qed.

Lemma omap_sublist {A B : Type} (f : A -> option B) (l1 l2 : list A) :
  l1 `sublist_of` l2 -> omap f l1 `sublist_of` omap f l2.
Proof.
  induction 1 as [| x l1 l2 _ IH | x l1 l2 _ IH]; cbn.
  - constructor.
  - destruct (f x); [constructor |]; exact IH.
  - destruct (f x); [constructor |]; exact IH.
Qed.

Lemma placedEntries_spec (venue : Venue) (toPlace : list (nat * Order))
    (e : string * Order) :
  e ∈ placedEntries venue toPlace
  <-> exists slot d orderId,
        (slot, d) ∈ toPlace
        /\ placedId (submitOrder venue slot) = Some orderId
        /\ e = (orderId, finalOrder d orderId).
Proof.
  unfold placedEntries. rewrite list_elem_of_omap. split.
  - intros ([slot d] & Hin & Hf). cbn in Hf.
    destruct (placedId (submitOrder venue slot)) as [orderId |] eqn:Ep; [| discriminate].
    injection Hf as <-. exists slot, d, orderId. auto.
  - intros (slot & d & orderId & Hin & Hp & ->). exists (slot, d).
    split; [exact Hin |]. cbn. rewrite Hp. reflexivity.
Qed.

Lemma placedId_truthy (r : SubmitResult) (orderId : string) :
  placedId r = Some orderId -> Js.truthy_str orderId = true.
Proof.
  destruct r as [| [| i ids]]; cbn; try discriminate.
  destruct (Js.truthy_str i) eqn:E; [| discriminate]. intros [= <-]. exact E.
Qed.

(** Under a well-formed map, the ids collected for the batch cancel are the
    keys of the orders to cancel. *)
Lemma cancel_ids_keys (m C : RestingMap) :
  Forall (fun e : string * Order => id e.2 = Some e.1 /\ Js.truthy_str e.1 = true) m ->
  (forall e, e ∈ C -> e ∈ m) ->
  omap (fun e : string * Order => id e.2) C = C.*1.
Proof.
  intros Hwf. rewrite Forall_forall in Hwf.
  induction C as [| e C IH]; intros Hsub; [reflexivity |].
  cbn. destruct (Hwf e (Hsub e (list_elem_of_here _ _))) as [-> _].
  f_equal. apply IH. intros x Hx. apply Hsub. apply list_elem_of_further. exact Hx.
Qed.

(** What step 2 leaves in the map. *)
Lemma cancelStep_resting (venue : Venue) (m K C : RestingMap) :
  wf_resting m -> Partition m K C ->
  (cancelStep venue C m).1 = (if cancelOrders venue C.*1 then K else m)
  /\ (cancelStep venue C m).2
     = match C with [] => [] | _ => [CallCancelOrders C.*1] end.
Proof.
  intros [Hnd Hwf] HP.
  assert (Hsub : forall e, e ∈ C -> e ∈ m).
  { intros e He. apply (Partition_elem_of _ _ _ e HP). right. exact He. }
  destruct C as [| e0 C'].
  - cbn. apply Partition_nil_r in HP. subst K. destruct (cancelOrders venue []); auto.
  - unfold cancelStep. rewrite (cancel_ids_keys m (e0 :: C') Hwf Hsub).
    rewrite fmap_cons. rewrite <- (fmap_cons fst e0 C').
    destruct (cancelOrders venue (e0 :: C').*1) eqn:Eok; rewrite fmap_cons;
      rewrite <- (fmap_cons fst e0 C'); rewrite ?Eok; cbn [fst snd].
    + split; [| reflexivity].
      rewrite foldl_removeCanceled.
      * apply Partition_filter; assumption.
      * rewrite Forall_forall in *. intros e He. apply Hwf. apply Hsub. exact He.
    + auto.
Qed.

Lemma manageOrders_eq (cfg : PairConfig) (venue : Venue) (rnd : nat -> Q) (n : nat)
    (m : RestingMap) (newOrders : list Order) :
  let c := classify rnd n (nullish (cancelReplaceRatio (marketMaker cfg)) 0) newOrders m in
  let cs := cancelStep venue (ordersToCancel c) m in
  let ps := foldl (placeStep venue) cs (unmatched newOrders (matchedNewOrders c)) in
  manageOrders cfg venue rnd n m newOrders
  = {| resting := ps.1; calls := ps.2; kept := ordersToKeep c;
       cancelled := ordersToCancel c;
       toPlace := unmatched newOrders (matchedNewOrders c);
       drawsAfter := nextDraw c |}.
Proof.
  cbv zeta. unfold manageOrders.
  destruct (cancelStep venue _ m) as [m1 calls1].
  destruct (foldl (placeStep venue) (m1, calls1) _) as [m2 calls2]. reflexivity.
Qed.

Lemma classify_Partition (rnd : nat -> Q) (n : nat) (ratio : Q) (newOrders : list Order)
    (m : RestingMap) :
  Partition m (ordersToKeep (classify rnd n ratio newOrders m))
              (ordersToCancel (classify rnd n ratio newOrders m)).
Proof.
  unfold classify.
  destruct (classify_partition rnd ratio newOrders m
              {| matchedNewOrders := ∅; ordersToKeep := []; ordersToCancel := [];
                 nextDraw := n |}) as (K & C & -> & -> & HP).
  exact HP.
Qed.

(** The map of a new maker is well-formed. *)
Lemma wf_resting_nil : wf_resting [].
Proof. split; [apply NoDup_nil_2 | constructor]. Qed.

End Reconcile.

(** ** Reconciliation: the map after a cycle *)

Section MapAfterCycle.
Import MarketMakerBot.

Lemma foldl_placeStepAsync_quiet (venue : Venue) (during : nat -> RestingMap -> RestingMap)
    (toPlace : list (nat * Order)) :
  (forall k m0, during k m0 = m0) ->
  forall (m : RestingMap) (sent : list VenueCall) (j : nat),
    (foldl (placeStepAsync venue during) (m, sent, j) toPlace).1
    = foldl (placeStep venue) (m, sent) toPlace.
Proof.
  intros Hq. induction toPlace as [| r l IH]; intros m sent j; [reflexivity |].
  cbn [foldl]. unfold placeStepAsync at 2, placeStep at 2. cbn [fst snd].
  rewrite Hq.
  destruct (submitOrder venue r.1) as [| [| orderId ids]]; try apply IH.
  destruct (Js.truthy_str orderId); apply IH.
Qed.

(** A cycle during which no other code changes the map is the cycle of
    [manageOrders]. *)
Lemma manageOrdersAsync_quiet (cfg : PairConfig) (venue : Venue) (rnd : nat -> Q)
    (n : nat) (during : nat -> RestingMap -> RestingMap) (m : RestingMap)
    (newOrders : list Order) :
  (forall k m0, during k m0 = m0) ->
  manageOrdersAsync cfg venue rnd n during m newOrders
  = manageOrders cfg venue rnd n m newOrders.
Proof.
  intros Hq. unfold manageOrdersAsync, manageOrders. cbv zeta.
  assert (Ec : forall C, cancelStepAsync venue during C m = cancelStep venue C m).
  { intros C. unfold cancelStepAsync, cancelStep. rewrite Hq. reflexivity. }
  rewrite Ec. destruct (cancelStep venue _ m) as [m1 calls1].
  pose proof (foldl_placeStepAsync_quiet venue during
                (unmatched newOrders
                   (matchedNewOrders
                      (classify rnd n (nullish (cancelReplaceRatio (marketMaker cfg)) 0)
                         newOrders m))) Hq m1 calls1 0%nat) as Ef.
  destruct (foldl (placeStepAsync venue during) _ _) as [[m2 calls2] j].
  cbn [fst] in Ef. rewrite <- Ef. reflexivity.
Qed.

(** The first pass pairs every resting order it keeps with a desired order
    of its own: [claims] lists, in the order of [ordersToKeep], the desired
    orders claimed. *)
Lemma classify_claims (rnd : nat -> Q) (ratio : Q) (newOrders : list Order)
    (l : RestingMap) :
  forall c : Classification,
    (exists claims : list (nat * Order),
       Forall2 (fun (e : string * Order) (d : nat * Order) =>
                  d ∈ slots newOrders
                  /\ eligible snd e.2 maxPriceDeviation maxSizeDeviation d = true)
               (ordersToKeep c) claims
       /\ NoDup claims.*1
       /\ forall i, i ∈ matchedNewOrders c <-> i ∈ claims.*1) ->
    exists claims : list (nat * Order),
      Forall2 (fun (e : string * Order) (d : nat * Order) =>
                 d ∈ slots newOrders
                 /\ eligible snd e.2 maxPriceDeviation maxSizeDeviation d = true)
              (ordersToKeep (foldl (classifyStep rnd ratio newOrders) c l)) claims
      /\ NoDup claims.*1
      /\ forall i,
           i ∈ matchedNewOrders (foldl (classifyStep rnd ratio newOrders) c l)
           <-> i ∈ claims.*1.
Proof.
  induction l as [| e l IH]; intros c Hc; [exact Hc |].
  cbn [foldl]. apply IH. destruct Hc as (claims & HF & Hnd & HM).
  unfold classifyStep.
  destruct (findMatchingOrder snd e.2 (unmatched newOrders (matchedNewOrders c))
              maxPriceDeviation maxSizeDeviation) as [r |] eqn:E;
    [| exists claims; cbn; auto].
  destruct (Js.gtb _ _); [| exists claims; cbn; auto].
  destruct (findMatchingOrder_Some snd e.2 maxPriceDeviation maxSizeDeviation _ r E)
    as [Hin Hel].
  unfold unmatched in Hin. apply list_elem_of_filter in Hin as [Hnew Hslot].
  exists (claims ++ [r]). cbn [ordersToKeep matchedNewOrders]. split; [| split].
  - apply Forall2_app; [exact HF |]. constructor; [| constructor]. split; assumption.
  - rewrite fmap_app. cbn. apply NoDup_app. split; [exact Hnd |].
    split; [| apply NoDup_singleton].
    intros x Hx Hx'. apply list_elem_of_singleton in Hx'. subst x.
    apply Hnew. apply HM. exact Hx.
  - intros i. rewrite elem_of_union, elem_of_singleton, fmap_app, elem_of_app, HM.
    cbn. rewrite list_elem_of_singleton. reflexivity.
Qed.

(** C1 (amended).  A reconcile cycle on a well-formed map, during whose
    awaits no other code changes the map ([stop()] is not called and no
    other cycle of the bot is in flight), and in which the venue returns,
    for the placements of the cycle, ids that are pairwise distinct and
    not keys of the map.  The first pass splits the resting orders into
    those marked keep and those marked cancel; every kept order has
    claimed a desired order of its own, within tolerance, and the orders
    to place are exactly the desired orders that no kept order claimed.
    The orders marked cancel are cancelled in one batch call and each
    order to place is submitted on its own.  The map afterwards holds
    exactly the kept orders, the orders marked cancel when the batch
    cancel failed (the map is then unchanged for them), and every order to
    place whose placement returned an id, recorded under that id with
    status "new"; an order whose placement failed adds no entry.  The map
    stays well formed. *)
Theorem C1_resting_map_after_cycle (cfg : PairConfig) (venue : Venue) (rnd : nat -> Q)
    (n : nat) (during : nat -> RestingMap -> RestingMap) (m : RestingMap)
    (newOrders : list Order) :
  wf_resting m ->
  (forall k m0, during k m0 = m0) ->
  fresh_ids venue m (toPlace (manageOrdersAsync cfg venue rnd n during m newOrders)) ->
  Partition m (kept (manageOrdersAsync cfg venue rnd n during m newOrders))
              (cancelled (manageOrdersAsync cfg venue rnd n during m newOrders))
  /\ (exists claims : list (nat * Order),
        Forall2 (fun (e : string * Order) (d : nat * Order) =>
                   d ∈ slots newOrders
                   /\ eligible snd e.2 maxPriceDeviation maxSizeDeviation d = true)
                (kept (manageOrdersAsync cfg venue rnd n during m newOrders)) claims
        /\ NoDup claims.*1
        /\ toPlace (manageOrdersAsync cfg venue rnd n during m newOrders)
           = filter (fun s : nat * Order => s.1 ∉ claims.*1) (slots newOrders))
  /\ calls (manageOrdersAsync cfg venue rnd n during m newOrders)
     = match cancelled (manageOrdersAsync cfg venue rnd n during m newOrders) with
       | [] => []
       | _ => [CallCancelOrders
                 (cancelled (manageOrdersAsync cfg venue rnd n during m newOrders)).*1]
       end
       ++ ((fun s : nat * Order => CallSubmitOrder s.1 s.2)
             <$> toPlace (manageOrdersAsync cfg venue rnd n during m newOrders))
  /\ resting (manageOrdersAsync cfg venue rnd n during m newOrders)
     = (if cancelOrders venue
             (cancelled (manageOrdersAsync cfg venue rnd n during m newOrders)).*1
        then kept (manageOrdersAsync cfg venue rnd n during m newOrders)
        else m)
       ++ placedEntries venue
            (toPlace (manageOrdersAsync cfg venue rnd n during m newOrders))
  /\ holdsExactly venue (manageOrdersAsync cfg venue rnd n during m newOrders)
  /\ (forall e : string * Order,
        e ∈ placedEntries venue
              (toPlace (manageOrdersAsync cfg venue rnd n during m newOrders)) ->
        id e.2 = Some e.1 /\ status e.2 = Some st_new)
  /\ wf_resting (resting (manageOrdersAsync cfg venue rnd n during m newOrders)).
Proof.
  intros Hwf Hquiet. rewrite (manageOrdersAsync_quiet _ _ _ _ _ _ _ Hquiet).
  unfold holdsExactly, fresh_ids. rewrite manageOrders_eq. cbv zeta.
  cbn [resting calls kept cancelled toPlace]. intros Hfresh.
  set (c := classify rnd n (nullish (cancelReplaceRatio (marketMaker cfg)) 0) newOrders m)
    in *.
  pose proof (classify_Partition rnd n (nullish (cancelReplaceRatio (marketMaker cfg)) 0)
                newOrders m) as HP. fold c in HP.
  destruct (cancelStep_resting venue m _ _ Hwf HP) as [E1 E2].
  assert (Eids : omap (fun e : string * Order => id e.2) (ordersToCancel c)
                 = (ordersToCancel c).*1).
  { apply (cancel_ids_keys m); [exact (proj2 Hwf) |].
    intros e He. apply (Partition_elem_of _ _ _ e HP). right. exact He. }
  rewrite Eids.
  set (m1 := if cancelOrders venue (ordersToCancel c).*1 then ordersToKeep c else m) in *.
  assert (Hsub1 : m1 `sublist_of` m).
  { unfold m1. destruct (cancelOrders venue _); [| reflexivity].
    eapply Partition_sublist. exact HP. }
  assert (Hnd : NoDup (m1.*1
                       ++ (placedEntries venue
                             (unmatched newOrders (matchedNewOrders c))).*1)).
  { eapply sublist_NoDup; [exact Hfresh |].
    apply sublist_app; [apply fmap_sublist; exact Hsub1 | reflexivity]. }
  destruct (cancelStep venue (ordersToCancel c) m) as [m1' calls1] eqn:Ecs.
  cbn [fst snd] in E1, E2. subst m1' calls1.
  rewrite foldl_placeStep by exact Hnd. cbn [fst snd].
  split; [exact HP |]. split; [| split; [reflexivity |]; split; [reflexivity |]; split; [| split]].
  - destruct (classify_claims rnd (nullish (cancelReplaceRatio (marketMaker cfg)) 0)
                newOrders m
                {| matchedNewOrders := ∅; ordersToKeep := []; ordersToCancel := [];
                   nextDraw := n |}) as (claims & HF & Hcn & HM).
    { exists []. cbn. split; [constructor |]. split; [constructor |].
      intros i. rewrite elem_of_empty. split; [tauto | intros H; inversion H]. }
    fold (classify rnd n (nullish (cancelReplaceRatio (marketMaker cfg)) 0) newOrders m)
      in HF, HM. fold c in HF, HM.
    exists claims. split; [exact HF |]. split; [exact Hcn |].
    unfold unmatched. apply filter_ext_elem_of. intros x _. rewrite HM. reflexivity.
  - intros e. rewrite elem_of_app, placedEntries_spec. unfold m1.
    pose proof (Partition_elem_of _ _ _ e HP) as Hm.
    destruct (cancelOrders venue (ordersToCancel c).*1).
    + split.
      * intros [Hk | H]; [left; exact Hk | right; right; exact H].
      * intros [Hk | [[_ Hf] | H]]; [left; exact Hk | discriminate | right; exact H].
    + split.
      * intros [Hk | H].
        -- apply Hm in Hk as [Hk | Hk]; [left; exact Hk | right; left; auto].
        -- right. right. exact H.
      * intros [Hk | [[Hc _] | H]].
        -- left. apply Hm. left. exact Hk.
        -- left. apply Hm. right. exact Hc.
        -- right. exact H.
  - intros e He. apply placedEntries_spec in He as (slot & d & orderId & _ & _ & ->).
    split; reflexivity.
  - split.
    + rewrite fmap_app. exact Hnd.
    + apply Forall_app. split.
      * destruct Hwf as [_ Hwf]. rewrite Forall_forall in *. intros e He. apply Hwf.
        eapply sublist_subseteq; [exact Hsub1 | exact He].
      * rewrite Forall_forall. intros e He.
        apply placedEntries_spec in He as (slot & d & orderId & _ & Hp & ->).
        cbn. split; [reflexivity |]. eapply placedId_truthy. exact Hp.
Qed.
End MapAfterCycle.

(** A cycle with one kept order, one order whose batch cancel fails and one
    placement: the resting bid 100 x 1 claims the desired bid 100.0005 x
    1.02, the resting ask matches nothing, the desired ask is placed under
    the id "id-3". *)
Lemma C1_witness :
  wf_resting [restingOrder "id-1" bid 100 1; restingOrder "id-2" ask 101 1]
  /\ MarketMakerBot.kept
       (MarketMakerBot.manageOrdersAsync (sampleConfig 0) (sampleVenue false 1 "id-3")
          (constDraws (1 # 2)) 0 (fun _ m0 => m0)
          [restingOrder "id-1" bid 100 1; restingOrder "id-2" ask 101 1]
          [sampleOrder bid limit (Some (1000005 # 10000)) (102 # 100);
           sampleOrder ask limit (Some 105) 1])
     = [restingOrder "id-1" bid 100 1]
  /\ MarketMakerBot.toPlace
       (MarketMakerBot.manageOrdersAsync (sampleConfig 0) (sampleVenue false 1 "id-3")
          (constDraws (1 # 2)) 0 (fun _ m0 => m0)
          [restingOrder "id-1" bid 100 1; restingOrder "id-2" ask 101 1]
          [sampleOrder bid limit (Some (1000005 # 10000)) (102 # 100);
           sampleOrder ask limit (Some 105) 1])
     = [(1%nat, sampleOrder ask limit (Some 105) 1)]
  /\ (MarketMakerBot.resting
        (MarketMakerBot.manageOrdersAsync (sampleConfig 0) (sampleVenue false 1 "id-3")
           (constDraws (1 # 2)) 0 (fun _ m0 => m0)
           [restingOrder "id-1" bid 100 1; restingOrder "id-2" ask 101 1]
           [sampleOrder bid limit (Some (1000005 # 10000)) (102 # 100);
            sampleOrder ask limit (Some 105) 1])).*1
     = ["id-1"; "id-2"; "id-3"]
  /\ holdsExactly (sampleVenue false 1 "id-3")
       (MarketMakerBot.manageOrdersAsync (sampleConfig 0) (sampleVenue false 1 "id-3")
          (constDraws (1 # 2)) 0 (fun _ m0 => m0)
          [restingOrder "id-1" bid 100 1; restingOrder "id-2" ask 101 1]
          [sampleOrder bid limit (Some (1000005 # 10000)) (102 # 100);
           sampleOrder ask limit (Some 105) 1]).
Proof.
  assert (Hwf : wf_resting [restingOrder "id-1" bid 100 1; restingOrder "id-2" ask 101 1]).
  { unfold wf_resting. apply (bool_decide_unpack _). vm_compute. exact I. }
  assert (Hfresh : fresh_ids (sampleVenue false 1 "id-3")
                     [restingOrder "id-1" bid 100 1; restingOrder "id-2" ask 101 1]
                     (MarketMakerBot.toPlace
                        (MarketMakerBot.manageOrdersAsync (sampleConfig 0)
                           (sampleVenue false 1 "id-3") (constDraws (1 # 2)) 0
                           (fun _ m0 => m0)
                           [restingOrder "id-1" bid 100 1; restingOrder "id-2" ask 101 1]
                           [sampleOrder bid limit (Some (1000005 # 10000)) (102 # 100);
                            sampleOrder ask limit (Some 105) 1]))).
  { unfold fresh_ids. apply (bool_decide_unpack _). vm_compute. exact I. }
  destruct (C1_resting_map_after_cycle (sampleConfig 0) (sampleVenue false 1 "id-3")
              (constDraws (1 # 2)) 0 (fun _ m0 => m0) _ _ Hwf (fun _ _ => eq_refl) Hfresh)
    as (_ & _ & _ & _ & Hex & _).
  split; [exact Hwf |].
  split; [vm_compute; reflexivity |]. split; [vm_compute; reflexivity |].
  split; [vm_compute; reflexivity | exact Hex].
Defined.

(** C1 as stated fails in two ways.  (1) When the venue answers a
    placement with an id that is a key of the map, [Map.set] overwrites the
    entry stored there: the resting bid "id-1" is kept, the desired ask is
    placed and the venue returns "id-1" again, and the map afterwards holds
    the ask alone.  (2) When [stop()] runs while the cycle awaits a
    placement, the map is cleared under it: the same cycle with the fresh id
    "id-2" ends with the placed ask alone in the map.  In both the kept
    order is missing from the map. *)
Lemma C1_counterexample :
  wf_resting [restingOrder "id-1" bid 100 1]
  /\ ~ holdsExactly (sampleVenue true 1 "id-1")
         (MarketMakerBot.manageOrdersAsync (sampleConfig 0) (sampleVenue true 1 "id-1")
            (constDraws (1 # 2)) 0 (fun _ m0 => m0)
            [restingOrder "id-1" bid 100 1]
            [sampleOrder bid limit (Some 100) 1; sampleOrder ask limit (Some 101) 1])
  /\ fresh_ids (sampleVenue true 1 "id-2") [restingOrder "id-1" bid 100 1]
       [(1%nat, sampleOrder ask limit (Some 101) 1)]
  /\ ~ holdsExactly (sampleVenue true 1 "id-2")
         (MarketMakerBot.manageOrdersAsync (sampleConfig 0) (sampleVenue true 1 "id-2")
            (constDraws (1 # 2)) 0 (MarketMakerBot.stopDuring 1)
            [restingOrder "id-1" bid 100 1]
            [sampleOrder bid limit (Some 100) 1; sampleOrder ask limit (Some 101) 1]).
Proof.
  split; [unfold wf_resting; apply (bool_decide_unpack _); vm_compute; exact I |].
  split; [| split; [unfold fresh_ids; apply (bool_decide_unpack _); vm_compute; exact I |]].
  - intros H. specialize (H (restingOrder "id-1" bid 100 1)). destruct H as [_ H].
    assert (Hin : restingOrder "id-1" bid 100 1
                  ∈ MarketMakerBot.resting
                      (MarketMakerBot.manageOrdersAsync (sampleConfig 0)
                         (sampleVenue true 1 "id-1") (constDraws (1 # 2)) 0 (fun _ m0 => m0)
                         [restingOrder "id-1" bid 100 1]
                         [sampleOrder bid limit (Some 100) 1;
                          sampleOrder ask limit (Some 101) 1])).
    { apply H. left. vm_compute. apply list_elem_of_here. }
    vm_compute in Hin. apply list_elem_of_singleton in Hin. discriminate.
  - intros H. specialize (H (restingOrder "id-1" bid 100 1)). destruct H as [_ H].
    assert (Hin : restingOrder "id-1" bid 100 1
                  ∈ MarketMakerBot.resting
                      (MarketMakerBot.manageOrdersAsync (sampleConfig 0)
                         (sampleVenue true 1 "id-2") (constDraws (1 # 2)) 0
                         (MarketMakerBot.stopDuring 1)
                         [restingOrder "id-1" bid 100 1]
                         [sampleOrder bid limit (Some 100) 1;
                          sampleOrder ask limit (Some 101) 1])).
    { apply H. left. vm_compute. apply list_elem_of_here. }
    vm_compute in Hin. apply list_elem_of_singleton in Hin. discriminate.
Qed.

(** ** The quote ladder ([run] of the maker) *)

(** The sanity check of [run] holds on the targets it lets through. *)
Lemma targetPrices_uncrossed (cfg : PairConfig) (tbid task b a : Q) :
  MarketMakerBot.targetPrices cfg tbid task = Some (b, a) -> b < a.
Proof.
  unfold MarketMakerBot.targetPrices. cbv zeta. unfold Js.geb.
  match goal with |- context [Js.leb ?x ?y] => destruct (Js.leb x y) eqn:E1 end.
  - match goal with |- context [Js.leb ?x ?y] => destruct (Js.leb x y) eqn:E2 end;
      [discriminate |].
    intros [= <- <-]. apply leb_gt in E2. exact E2.
  - intros [= <- <-]. apply leb_gt in E1. exact E1.
Qed.

(** An unresolved crossing skips the cycle: nothing is emitted. *)
Lemma crossed_emits_nothing (p : TradingPair) (cfg : PairConfig) (now : Z)
    (rnd : nat -> Q) (n : nat) (ticker : TickerData) (tbid task : Q) :
  tk_bid ticker = Some tbid -> tk_ask ticker = Some task ->
  MarketMakerBot.targetPrices cfg tbid task = None ->
  MarketMakerBot.generateOrders p cfg now rnd n (Some ticker) = MarketMakerBot.SkipCrossed.
Proof.
  intros Hb Ha Hx. destruct ticker as [sy ts tb ta tl]. cbn in Hb, Ha. subst tb ta.
  unfold MarketMakerBot.generateOrders. rewrite Hx. reflexivity.
Qed.

Lemma pow10_pos (k : nat) : 0 < inject_Z (10 ^ Z.of_nat k).
Proof.
  change 0 with (inject_Z 0). rewrite <- Zlt_Qlt. apply Z.pow_pos_nonneg; lia.
Qed.

(** Rounding is monotone. *)
Lemma roundToDecimalPlaces_le (x y : Q) (k : nat) :
  x <= y -> roundToDecimalPlaces x k <= roundToDecimalPlaces y k.
Proof.
  intros Hxy. unfold roundToDecimalPlaces, Js.Math_round. cbv zeta.
  pose proof (pow10_pos k) as Hf.
  set (f := inject_Z (10 ^ Z.of_nat k)) in *. clearbody f.
  assert (Hm : x * f <= y * f) by (apply Qmult_le_compat_r; lra).
  assert (Hle : x * f + (1 # 2) <= y * f + (1 # 2)) by lra.
  apply Qfloor_resp_le in Hle. rewrite Zle_Qle in Hle.
  unfold Qdiv. apply Qmult_le_compat_r; [exact Hle |].
  apply Qlt_le_weak, Qinv_lt_0_compat, Hf.
Qed.

(** At every level the rounded bid price is at most the rounded ask price
    (it can equal it, see C4). *)
Lemma level_prices_ordered (tb ta inc : Q) (i : nat) :
  tb <= ta -> 0 <= inc ->
  roundToDecimalPlaces
    (tb - inject_Z (Z.of_nat i) * inc * (1 + inject_Z (Z.of_nat i) * (1 # 10))) 5
  <= roundToDecimalPlaces
       (ta + inject_Z (Z.of_nat i) * inc * (1 + inject_Z (Z.of_nat i) * (1 # 10))) 5.
Proof.
  intros Hta Hinc. apply roundToDecimalPlaces_le.
  assert (Hi : 0 <= inject_Z (Z.of_nat i)).
  { change 0 with (inject_Z 0). rewrite <- Zle_Qle. lia. }
  nra.
Qed.

(** One level of the ladder keeps the emitted quotes positive in price and
    size: the bid by its guards, the ask because its price is not below the
    bid price of its level. *)
Lemma ladderStep_positive (rnd : nat -> Q) (sym : string) (now : Z)
    (tb ta inc base srf : Q) (acc : list Order * nat) (i : nat) :
  tb <= ta -> 0 <= inc ->
  Forall positiveQuote acc.1 ->
  Forall positiveQuote
    (MarketMakerBot.ladderStep rnd sym now tb ta inc base srf acc i).1.
Proof.
  intros Hta Hinc Hacc. destruct acc as [orders n]. cbn [fst] in Hacc.
  unfold MarketMakerBot.ladderStep. cbv zeta.
  set (x := inject_Z (Z.of_nat i) * inc * (1 + inject_Z (Z.of_nat i) * (1 # 10))).
  assert (Hx : 0 <= x).
  { assert (Hi : 0 <= inject_Z (Z.of_nat i)).
    { change 0 with (inject_Z 0). rewrite <- Zle_Qle. lia. }
    unfold x. nra. }
  destruct (Js.leb (roundToDecimalPlaces (tb - x) 5) 0) eqn:Eb; [exact Hacc |].
  apply leb_gt in Eb.
  assert (Hask : 0 < roundToDecimalPlaces (ta + x) 5).
  { eapply Qlt_le_trans; [exact Eb |]. apply roundToDecimalPlaces_le. lra. }
  cbn [fst].
  match goal with |- context [Js.gtb ?sz 0] => destruct (Js.gtb sz 0) eqn:E1 end;
    match goal with |- context [if Js.gtb ?sz 0 then _ ++ _ else _] =>
      destruct (Js.gtb sz 0) eqn:E2 end;
    unfold Js.gtb in *; try apply ltb_lt in E1; try apply ltb_lt in E2;
    repeat (apply Forall_app; split); try exact Hacc;
    apply Forall_singleton; split; cbn; assumption.
Qed.

(** Every quote a cycle emits has a positive price and a positive size. *)
Lemma emitted_quotes_positive (p : TradingPair) (cfg : PairConfig) (now : Z)
    (rnd : nat -> Q) (n : nat) (ticker : option TickerData) :
  Forall positiveQuote
    (MarketMakerBot.emitted (MarketMakerBot.generateOrders p cfg now rnd n ticker)).
Proof.
  unfold MarketMakerBot.generateOrders.
  destruct ticker as [[sy ts [tbid |] [task |] tl] |]; try constructor.
  destruct (MarketMakerBot.targetPrices cfg tbid task) as [[tb ta] |] eqn:Et;
    [| constructor].
  apply targetPrices_uncrossed in Et.
  set (step := MarketMakerBot.ladderStep rnd (symbol p) now tb ta ((ta - tb) / 2)
                 (nullish (baseSizePerLevel (marketMaker cfg)) (1 # 10))
                 (nullish (sizeRandomizationFactor (marketMaker cfg)) (1 # 10))).
  assert (Hfold : forall (l : list nat) (acc : list Order * nat),
             Forall positiveQuote acc.1 -> Forall positiveQuote (foldl step acc l).1).
  { induction l as [| i l IH]; intros acc Hacc; [exact Hacc |].
    cbn [foldl]. apply IH.
    apply ladderStep_positive; [lra | apply Qle_shift_div_l; lra | exact Hacc]. }
  specialize (Hfold (seq 0 (nullish (depthLevels (marketMaker cfg)) 1%nat)) ([], n)
                (Forall_nil_2 _)).
  destruct (foldl step ([], n) _) as [orders n']. exact Hfold.
Qed.

(** ** Discarded levels and discarded quotes of the ladder *)

Section LadderLevels.
Import MarketMakerBot.
Variables (rnd : nat -> Q) (sym : string) (now : Z).
Variables (tb ta base srf : Q).

Lemma ladderStep_level (acc : list Order * nat) (i : nat) :
  ladderStep rnd sym now tb ta ((ta - tb) / 2) base srf acc i
  = if Js.leb (roundToDecimalPlaces (bidPriceAt tb ta i) 5) 0 then acc
    else (acc.1 ++ levelQuotes rnd sym now tb ta base srf acc.2 i, S (S acc.2)).
Proof.
  destruct acc as [os n]. unfold ladderStep, levelQuotes, bidPriceAt, askPriceAt.
  cbv zeta. cbn [fst snd].
  destruct (Js.leb _ 0); [reflexivity |].
  destruct (Js.gtb _ 0); destruct (Js.gtb _ 0); cbn [app];
    rewrite <- ?app_assoc, ?app_nil_r; reflexivity.
Qed.

(** The bid prices go down with the level. *)
Lemma bidPriceAt_antitone (i j : nat) :
  tb <= ta -> (i <= j)%nat -> bidPriceAt tb ta j <= bidPriceAt tb ta i.
Proof.
  intros Hle Hij. unfold bidPriceAt.
  assert (Hi : 0 <= inject_Z (Z.of_nat i))
    by (change 0 with (inject_Z 0); rewrite <- Zle_Qle; lia).
  assert (Hj : inject_Z (Z.of_nat i) <= inject_Z (Z.of_nat j))
    by (rewrite <- Zle_Qle; lia).
  revert Hi Hj. generalize (inject_Z (Z.of_nat i)) (inject_Z (Z.of_nat j)).
  intros x y Hx Hxy.
  assert (Hinc : 0 <= (ta - tb) / 2) by (apply Qle_shift_div_l; lra).
  revert Hinc. generalize ((ta - tb) / 2). intros inc Hinc.
  assert (H1 : x * inc <= y * inc) by (apply Qmult_le_compat_r; assumption).
  assert (H0 : 0 <= x * inc) by (apply Qmult_le_0_compat; assumption).
  assert (H2 : x * inc * (1 + x * (1 # 10)) <= y * inc * (1 + y * (1 # 10))).
  { apply Qle_trans with (y * inc * (1 + x * (1 # 10))).
    - apply Qmult_le_compat_r; [exact H1 | lra].
    - rewrite !(Qmult_comm (y * inc)). apply Qmult_le_compat_r; lra. }
  lra.
Qed.

Lemma kept_below (i j : nat) :
  tb <= ta -> (i <= j)%nat ->
  Js.leb (roundToDecimalPlaces (bidPriceAt tb ta j) 5) 0 = false ->
  Js.leb (roundToDecimalPlaces (bidPriceAt tb ta i) 5) 0 = false.
Proof.
  intros Hle Hij Hj. apply leb_gt in Hj. apply leb_gt.
  eapply Qlt_le_trans; [exact Hj |].
  apply roundToDecimalPlaces_le, bidPriceAt_antitone; assumption.
Qed.

(** The loop over the first [k] levels. *)
Lemma ladder_levels (n k : nat) :
  tb <= ta ->
  (foldl (ladderStep rnd sym now tb ta ((ta - tb) / 2) base srf) ([], n) (seq 0 k)).1
  = ladderOf rnd sym now tb ta base srf n k
  /\ ((forall i, (i < k)%nat ->
         Js.leb (roundToDecimalPlaces (bidPriceAt tb ta i) 5) 0 = false) ->
      (foldl (ladderStep rnd sym now tb ta ((ta - tb) / 2) base srf) ([], n) (seq 0 k)).2
      = (n + 2 * k)%nat).
Proof.
  intros Hle. induction k as [| k [IH1 IH2]].
  - cbn. split; [reflexivity |]. intros _. lia.
  - rewrite seq_S, foldl_app. cbn [foldl Nat.add]. rewrite ladderStep_level.
    unfold ladderOf in *. rewrite seq_S, fmap_app, concat_app. cbn [fmap list_fmap concat].
    rewrite app_nil_r. cbn [Nat.add].
    destruct (Js.leb (roundToDecimalPlaces (bidPriceAt tb ta k) 5) 0) eqn:Ek.
    + rewrite app_nil_r. split; [exact IH1 |].
      intros Hall. rewrite Hall in Ek by lia. discriminate.
    + cbn [fst snd]. rewrite IH1, IH2.
      * split; [reflexivity |]. intros _. lia.
      * intros i Hi. apply (kept_below i k); [exact Hle | lia | exact Ek].
Qed.

Lemma levelQuotes_level (n i : nat) (o : Order) :
  o ∈ levelQuotes rnd sym now tb ta base srf n i -> level o = Some (i + 1)%nat.
Proof.
  unfold levelQuotes. cbv zeta. intros H. apply elem_of_app in H as [H | H].
  - destruct (Js.gtb _ 0); [| inversion H]. apply list_elem_of_singleton in H. subst o.
    reflexivity.
  - destruct (Js.gtb _ 0); [| inversion H]. apply list_elem_of_singleton in H. subst o.
    reflexivity.
Qed.

Lemma elem_of_concat {A : Type} (x : A) (ls : list (list A)) :
  x ∈ concat ls -> exists l, x ∈ l /\ l ∈ ls.
Proof.
  induction ls as [| l ls IH]; cbn; intros H; [inversion H |].
  apply elem_of_app in H as [H | H].
  - exists l. split; [exact H | apply list_elem_of_here].
  - destruct (IH H) as (l' & Hx & Hl). exists l'.
    split; [exact Hx | apply list_elem_of_further, Hl].
Qed.

Lemma ladderOf_elem (n depth : nat) (o : Order) :
  o ∈ ladderOf rnd sym now tb ta base srf n depth ->
  exists i, (i < depth)%nat /\ level o = Some (i + 1)%nat
            /\ Js.leb (roundToDecimalPlaces (bidPriceAt tb ta i) 5) 0 = false.
Proof.
  unfold ladderOf. intros H. apply elem_of_concat in H as (chunk & Ho & Hc).
  apply list_elem_of_fmap in Hc as (i & -> & Hi). apply elem_of_seq in Hi.
  exists i. destruct (Js.leb _ 0); [inversion Ho |].
  split; [lia |]. split; [| reflexivity]. eapply levelQuotes_level. exact Ho.
Qed.

Lemma filter_chunks {A : Type} (P : A -> Prop) `{!forall x, Decision (P x)}
    (f : nat -> list A) (i : nat) (l : list nat) :
  NoDup l -> i ∈ l ->
  Forall P (f i) ->
  (forall j, j ∈ l -> j <> i -> Forall (fun x => ~ P x) (f j)) ->
  filter P (concat (f <$> l)) = f i.
Proof.
  assert (Hnone : forall l' : list nat,
            (forall j, j ∈ l' -> Forall (fun x => ~ P x) (f j)) ->
            filter P (concat (f <$> l')) = []).
  { induction l' as [| j l' IH]; intros Hno; [reflexivity |].
    cbn. rewrite filter_app, IH by (intros j' Hj'; apply Hno, list_elem_of_further, Hj').
    rewrite app_nil_r. specialize (Hno j (list_elem_of_here _ _)).
    induction Hno as [| x xs Hx _ IHx]; [reflexivity |].
    rewrite filter_cons_False by exact Hx. exact IHx. }
  induction l as [| j l IH]; intros Hnd Hi Hall Hothers; [inversion Hi |].
  apply NoDup_cons in Hnd as [Hj Hnd]. cbn. rewrite filter_app.
  destruct (decide (j = i)) as [-> | Hne].
  - rewrite Hnone.
    + rewrite app_nil_r. apply filter_all. intros x Hx.
      rewrite Forall_forall in Hall. apply Hall, Hx.
    + intros j Hjl. apply Hothers; [apply list_elem_of_further, Hjl |].
      intros ->. contradiction.
  - apply elem_of_cons in Hi as [-> | Hi]; [contradiction |].
    rewrite IH; try assumption.
    + specialize (Hothers j (list_elem_of_here _ _) Hne).
      induction Hothers as [| x xs Hx _ IHx]; [reflexivity |].
      rewrite filter_cons_False by exact Hx. exact IHx.
    + intros j' Hj'. apply Hothers, list_elem_of_further, Hj'.
Qed.

Lemma ladderOf_level (n depth i : nat) :
  (i < depth)%nat ->
  Js.leb (roundToDecimalPlaces (bidPriceAt tb ta i) 5) 0 = false ->
  filter (fun o : Order => level o = Some (i + 1)%nat)
    (ladderOf rnd sym now tb ta base srf n depth)
  = levelQuotes rnd sym now tb ta base srf (n + 2 * i) i.
Proof.
  intros Hi Hk. unfold ladderOf.
  rewrite (filter_chunks _ _ i); [rewrite Hk; reflexivity | apply NoDup_seq | | |].
  - apply elem_of_seq. lia.
  - rewrite Hk. apply Forall_forall. intros o Ho. eapply levelQuotes_level. exact Ho.
  - intros j _ Hne.
    destruct (Js.leb (roundToDecimalPlaces (bidPriceAt tb ta j) 5) 0); [constructor |].
    apply Forall_forall. intros o Ho. rewrite (levelQuotes_level _ _ _ Ho).
    intros [= E]. lia.
Qed.
End LadderLevels.

(** C5 (amended).  In ladder generation a level whose rounded bid price is
    not positive is discarded as a whole, silently: the loop goes on to the
    next level without computing a size and without emitting the bid or the
    ask of that level.  At a level that is not discarded, a quote (bid or
    ask) whose rounded size is not positive is left out on its own, and the
    other quote of the level is emitted all the same.  The ask price has no
    test of its own; it is never below the bid price of its level, so every
    emitted quote has a positive price and a positive size.  Here for a
    ticker with a bid and an ask and targets [tb], [ta] that pass the
    sanity check: the emitted orders are [ladderOf]; no emitted order
    belongs to a level whose rounded bid price is not positive; the emitted
    orders of a level whose rounded bid price is positive are the quotes of
    that level, each present exactly when its own size is positive. *)
Theorem C5_ladder_discards_levels (p : TradingPair) (cfg : PairConfig) (now : Z)
    (rnd : nat -> Q) (n : nat) (ticker : TickerData) (tbid task tb ta : Q) :
  tk_bid ticker = Some tbid -> tk_ask ticker = Some task ->
  MarketMakerBot.targetPrices cfg tbid task = Some (tb, ta) ->
  MarketMakerBot.emitted (MarketMakerBot.generateOrders p cfg now rnd n (Some ticker))
  = ladderOf rnd (symbol p) now tb ta
      (nullish (baseSizePerLevel (marketMaker cfg)) (1 # 10))
      (nullish (sizeRandomizationFactor (marketMaker cfg)) (1 # 10))
      n (nullish (depthLevels (marketMaker cfg)) 1%nat)
  /\ (forall (i : nat) (o : Order),
        roundToDecimalPlaces (bidPriceAt tb ta i) 5 <= 0 ->
        o ∈ MarketMakerBot.emitted
              (MarketMakerBot.generateOrders p cfg now rnd n (Some ticker)) ->
        level o <> Some (i + 1)%nat)
  /\ (forall i : nat,
        (i < nullish (depthLevels (marketMaker cfg)) 1%nat)%nat ->
        0 < roundToDecimalPlaces (bidPriceAt tb ta i) 5 ->
        filter (fun o : Order => level o = Some (i + 1)%nat)
          (MarketMakerBot.emitted
             (MarketMakerBot.generateOrders p cfg now rnd n (Some ticker)))
        = levelQuotes rnd (symbol p) now tb ta
            (nullish (baseSizePerLevel (marketMaker cfg)) (1 # 10))
            (nullish (sizeRandomizationFactor (marketMaker cfg)) (1 # 10))
            (n + 2 * i) i)
  /\ Forall positiveQuote
       (MarketMakerBot.emitted
          (MarketMakerBot.generateOrders p cfg now rnd n (Some ticker))).
Proof.
  intros Hb Ha Ht.
  assert (E : MarketMakerBot.emitted
                (MarketMakerBot.generateOrders p cfg now rnd n (Some ticker))
              = ladderOf rnd (symbol p) now tb ta
                  (nullish (baseSizePerLevel (marketMaker cfg)) (1 # 10))
                  (nullish (sizeRandomizationFactor (marketMaker cfg)) (1 # 10))
                  n (nullish (depthLevels (marketMaker cfg)) 1%nat)).
  { destruct ticker as [sy ts b a tl]. cbn in Hb, Ha. subst b a.
    unfold MarketMakerBot.generateOrders. rewrite Ht. cbv zeta.
    pose proof (targetPrices_uncrossed _ _ _ _ _ Ht) as Hlt.
    destruct (ladder_levels rnd (symbol p) now tb ta
                (nullish (baseSizePerLevel (marketMaker cfg)) (1 # 10))
                (nullish (sizeRandomizationFactor (marketMaker cfg)) (1 # 10))
                n (nullish (depthLevels (marketMaker cfg)) 1%nat)) as [H1 _]; [lra |].
    destruct (foldl _ _ _) as [orders n']. exact H1. }
  split; [exact E |]. split; [| split].
  - intros i o Hi Ho Hl. rewrite E in Ho.
    apply ladderOf_elem in Ho as (j & _ & Hj & Hk).
    rewrite Hl in Hj. injection Hj as Hj. assert (j = i) by lia. subst j.
    apply leb_gt in Hk. lra.
  - intros i Hi Hpos. rewrite E. apply ladderOf_level; [exact Hi |].
    apply leb_gt. exact Hpos.
  - apply emitted_quotes_positive.
Qed.

(** A two-level ladder at the ticker 100/101 in which the size drawn for
    the first bid is 0: that bid is left out, the ask of its level and both
    quotes of the second level are emitted. *)
Lemma C5_witness :
  tk_bid (sampleTicker 100 101 100) = Some 100
  /\ tk_ask (sampleTicker 100 101 100) = Some 101
  /\ (side <$> MarketMakerBot.emitted
                 (MarketMakerBot.generateOrders samplePair wideSizeConfig 0
                    (fun k => if Nat.eqb k 0 then 0 else 1 # 2) 0
                    (Some (sampleTicker 100 101 100))))
     = [ask; bid; ask]
  /\ (level <$> MarketMakerBot.emitted
                  (MarketMakerBot.generateOrders samplePair wideSizeConfig 0
                     (fun k => if Nat.eqb k 0 then 0 else 1 # 2) 0
                     (Some (sampleTicker 100 101 100))))
     = [Some 1%nat; Some 2%nat; Some 2%nat]
  /\ Forall positiveQuote
       (MarketMakerBot.emitted
          (MarketMakerBot.generateOrders samplePair wideSizeConfig 0
             (fun k => if Nat.eqb k 0 then 0 else 1 # 2) 0
             (Some (sampleTicker 100 101 100)))).
Proof.
  split; [reflexivity |]. split; [reflexivity |].
  split; [vm_compute; reflexivity |]. split; [vm_compute; reflexivity |].
  destruct (MarketMakerBot.targetPrices wideSizeConfig 100 101) as [[tb ta] |] eqn:Et;
    [| vm_compute in Et; discriminate].
  exact (proj2 (proj2 (proj2
           (C5_ladder_discards_levels samplePair wideSizeConfig 0
              (fun k => if Nat.eqb k 0 then 0 else 1 # 2) 0
              (sampleTicker 100 101 100) 100 101 tb ta eq_refl eq_refl Et)))).
Defined.

(** C5 as stated fails: a bid whose price is not positive takes the ask of
    its level with it.  (1) Ticker bid 0.000004, ask 0.000006, default
    maker parameters, one level: the bid price rounds to 0 and the cycle
    emits nothing, although the ask of that level has the price 0.00001 and
    a positive size.  (2) Ticker 100000/100000 and a ladder of 140 levels:
    from level 137 on the bid price is negative and no order of such a
    level is emitted, bid or ask, although the ask prices there are
    positive. *)
Lemma C5_counterexample :
  (MarketMakerBot.emitted
     (MarketMakerBot.generateOrders samplePair (sampleConfig 0) 0 (constDraws (1 # 2)) 0
        (Some (sampleTicker (4 # 1000000) (6 # 1000000) (4 # 1000000)))) = []
   /\ match MarketMakerBot.targetPrices (sampleConfig 0) (4 # 1000000) (6 # 1000000) with
      | Some (tb, ta) =>
          Qeq_bool (roundToDecimalPlaces tb 5) 0
          && Qeq_bool (roundToDecimalPlaces (askPriceAt tb ta 0) 5) (1 # 100000)
          && Js.gtb (roundToDecimalPlaces
                       (applyVariance (1 # 2) ((1 # 10) * (1 + inject_Z 0 * (1 # 10)))
                          (2 # 10)) 8) 0
      | None => false
      end = true)
  /\ (length
        (MarketMakerBot.emitted
           (MarketMakerBot.generateOrders samplePair (deepConfig 140) 0 (constDraws (1 # 2)) 0
              (Some (sampleTicker 100000 100000 100000)))) = 272%nat
      /\ forallb (fun o : Order =>
                    match level o with Some l => Nat.leb l 136 | None => false end)
           (MarketMakerBot.emitted
              (MarketMakerBot.generateOrders samplePair (deepConfig 140) 0
                 (constDraws (1 # 2)) 0 (Some (sampleTicker 100000 100000 100000))))
         = true
      /\ match MarketMakerBot.targetPrices (deepConfig 140) 100000 100000 with
         | Some (tb, ta) =>
             forallb (fun i : nat => Js.gtb (roundToDecimalPlaces (askPriceAt tb ta i) 5) 0)
               [136; 137; 138; 139]%nat
         | None => false
         end = true).
Proof.
  split; [split | split; [| split]]; vm_compute; reflexivity.
Qed.

(** C4 (the code at the failing input).  Ticker bid 0.00001, ask
    0.0000101, default maker parameters, one level: the targets pass the
    sanity check (bid < ask), yet the emitted bid and ask of level 1 carry
    the same rounded price 0.00001, so the emitted bid price is not below
    the paired ask price. *)
Theorem C4_rounded_bid_equals_ask :
  match MarketMakerBot.targetPrices (sampleConfig 0) (1 # 100000) (101 # 10000000) with
  | Some (tb, ta) => Js.ltb tb ta
  | None => false
  end = true
  /\ match MarketMakerBot.emitted
             (MarketMakerBot.generateOrders samplePair (sampleConfig 0) 0
                (constDraws (1 # 2)) 0
                (Some (sampleTicker (1 # 100000) (101 # 10000000) (1 # 100000)))) with
     | [b; a] =>
         side b = bid /\ level b = Some 1%nat
         /\ side a = ask /\ level a = Some 1%nat
         /\ match price b, price a with
            | Some pb, Some pa =>
                pb == 1 # 100000 /\ pa == 1 # 100000 /\ Js.ltb pb pa = false
            | _, _ => False
            end
     | _ => False
     end.
Proof.
  split; [vm_compute; reflexivity |].
  vm_compute. repeat split; reflexivity.
Qed.

(** ** Order synthesis of the taker *)

Lemma roundToDecimalPlaces_pos (p : Q) (k : nat) :
  0 < roundToDecimalPlaces p k -> 0 < p.
Proof.
  unfold roundToDecimalPlaces, Js.Math_round. cbv zeta.
  set (f := inject_Z (10 ^ Z.of_nat k)).
  assert (Hf : 0 < f).
  { unfold f. change 0 with (inject_Z 0). rewrite <- Zlt_Qlt.
    apply Z.pow_pos_nonneg; lia. }
  intros Hpos. destruct (Qlt_le_dec 0 p) as [H | H]; [exact H | exfalso].
  assert (Hle : p * f + (1 # 2) <= 1 # 2) by nra.
  apply Qfloor_resp_le in Hle. change (Qfloor (1 # 2)) with 0%Z in Hle.
  assert (Hz : inject_Z (Qfloor (p * f + (1 # 2))) <= 0).
  { change 0 with (inject_Z 0). rewrite <- Zle_Qle. exact Hle. }
  assert (Hdiv : inject_Z (Qfloor (p * f + (1 # 2))) / f <= 0).
  { apply Qle_shift_div_r; [exact Hf | lra]. }
  lra.
Qed.

Lemma cap_le (x cap : Q) (b : bool) :
  b = true -> (if Js.geb x cap && b then cap else x) <= cap.
Proof.
  intros ->. rewrite andb_true_r. unfold Js.geb.
  destruct (Js.leb cap x) eqn:E; [lra |]. apply leb_gt in E. lra.
Qed.

Section Taker.
Import MarketTakerBot.
Variables (cfg : MarketTakerConfig) (rnd : nat -> Q).

(** After the switch, a price is only set by the passive-limit strategy: it
    belongs to a limit order and, on the bid side, does not exceed the best
    ask. *)
Lemma strategySwitch_price (n : nat) (recentPrices : list Q) (strategy : Strategy)
    (type0 : OrderType) (tbid task tlast : Q) (d : Draft) :
  strategySwitch cfg rnd n recentPrices strategy type0 tbid task tlast = Some d ->
  d_price d = None
  \/ (d_type d = limit /\ exists p, d_price d = Some p /\ (d_side d = bid -> p <= task)).
Proof.
  destruct strategy; cbn [strategySwitch].
  - intros [= <-]. left. reflexivity.
  - destruct (if bool_decide (2 <= length recentPrices)%nat then _ else _);
      intros [= <-]; left; reflexivity.
  - destruct (if bool_decide (1 < length recentPrices)%nat then _ else _);
      [| discriminate]. intros [= <-]. left. reflexivity.
  - cbv zeta. intros [= <-]. right. cbn [d_type d_price d_side].
    split; [reflexivity |]. eexists. split; [reflexivity |].
    intros Hs. rewrite Hs. apply cap_le. apply bool_decide_eq_true_2. reflexivity.
Qed.

(** The draft the final sanity check receives: a limit order has a price,
    rounded to five decimals from a value that, on the bid side, does not
    exceed the best ask. *)
Lemma limitPricing_price (tbid task : Q) (d0 : Draft) :
  (d_price d0 = None
   \/ (d_type d0 = limit
       /\ exists p, d_price d0 = Some p /\ (d_side d0 = bid -> p <= task))) ->
  let d := limitPricing rnd tbid task d0 in
  d_type d = limit ->
  exists p, d_price d = Some (roundToDecimalPlaces p 5) /\ (d_side d = bid -> p <= task).
Proof.
  intros Hd0. cbv zeta. unfold limitPricing. cbv zeta.
  destruct d0 as [s t pr nx]. cbn [d_type d_price d_side d_next] in *.
  destruct Hd0 as [-> | (-> & p & -> & Hp)].
  - destruct t; [| cbn; discriminate].
    destruct s; cbn [d_type d_price d_side d_next]; intros _.
    + eexists. split; [reflexivity |]. intros _. unfold Js.geb.
      match goal with |- context [Js.leb task ?x] => destruct (Js.leb task x) eqn:E end.
      * lra.
      * apply leb_gt in E. lra.
    + eexists. split; [reflexivity |]. discriminate.
  - cbn [d_type d_price d_side d_next]. intros _. exists p. split; [reflexivity | exact Hp].
Qed.

Lemma draftOrder_inv (n : nat) (recentPrices : list Q) (strategy : Strategy)
    (ticker : TickerData) (size tbid task : Q) (d : Draft) :
  draftOrder cfg rnd n recentPrices strategy ticker = Some (size, tbid, task, d) ->
  tk_bid ticker = Some tbid /\ tk_ask ticker = Some task
  /\ exists type0 tlast d0,
       strategySwitch cfg rnd (S (S n)) recentPrices strategy type0 tbid task tlast = Some d0
       /\ d = limitPricing rnd tbid task d0.
Proof.
  unfold draftOrder. cbv zeta.
  destruct (Js.leb _ 0); [discriminate |].
  destruct (tk_bid ticker) as [b |]; [| discriminate].
  destruct (tk_ask ticker) as [a |]; [| discriminate].
  destruct (tk_last ticker) as [l |]; [| discriminate].
  destruct (Js.truthy b && Js.truthy a && Js.truthy l); [| discriminate].
  destruct (strategySwitch cfg rnd (S (S n)) recentPrices strategy _ b a l) as [d0 |] eqn:E;
    [| discriminate].
  intros [= <- <- <- <-]. repeat split. eauto.
Qed.

(** C9.  Every order the taker's synthesis returns with kind limit has a
    positive price; a limit bid's price does not exceed the ticker's best
    ask and a limit ask's price is not below the ticker's best bid.  And
    when the final sanity check receives a limit order whose calculated
    price is undefined or not positive, the synthesis still returns an
    order, of kind market and without a price. *)
Theorem C9_taker_limit_price (p : TradingPair) (now : Z) (n : nat)
    (recentPrices : list Q) (strategy : Strategy) (ticker : TickerData) :
  (forall o : Order,
     generateOrderBasedOnStrategy p cfg now rnd n recentPrices strategy ticker = Some o ->
     type o = limit ->
     exists q tbid task,
       price o = Some q /\ 0 < q
       /\ tk_bid ticker = Some tbid /\ tk_ask ticker = Some task
       /\ (side o = bid -> q <= task)
       /\ (side o = ask -> tbid <= q))
  /\ (forall (size tbid task : Q) (d : Draft),
        draftOrder cfg rnd n recentPrices strategy ticker = Some (size, tbid, task, d) ->
        d_type d = limit ->
        d_price d = None \/ (exists q, d_price d = Some q /\ q <= 0) ->
        exists o : Order,
          generateOrderBasedOnStrategy p cfg now rnd n recentPrices strategy ticker = Some o
          /\ type o = market /\ price o = None).
Proof.
  split.
  - intros o. unfold generateOrderBasedOnStrategy.
    destruct (draftOrder cfg rnd n recentPrices strategy ticker)
      as [[[[size tbid] task] d] |] eqn:Ed; [| discriminate].
    apply draftOrder_inv in Ed as (Hb & Ha & type0 & tlast & d0 & Hsw & ->).
    pose proof (limitPricing_price tbid task d0
                  (strategySwitch_price _ _ _ _ _ _ _ _ Hsw)) as Hlp.
    cbv zeta in Hlp. set (d := limitPricing rnd tbid task d0) in *.
    unfold finalSanityCheck.
    destruct (d_type d) eqn:Et; [| intros [= <-]; cbn; discriminate].
    destruct (Hlp eq_refl) as (p0 & Hp0 & Hcap). rewrite Hp0.
    destruct (Js.leb (roundToDecimalPlaces p0 5) 0) eqn:E0;
      [intros [= <-]; cbn; discriminate |].
    apply leb_gt in E0.
    destruct (d_side d) eqn:Es; cbn [bool_decide decide_rel andb].
    + rewrite bool_decide_eq_true_2 by reflexivity.
      rewrite (bool_decide_eq_false_2 (bid = ask)) by discriminate. cbn [andb].
      unfold Js.gtb.
      destruct (Js.ltb task (roundToDecimalPlaces p0 5)) eqn:E1;
        intros [= <-] _; cbn [price side].
      * exists task, tbid, task. apply roundToDecimalPlaces_pos in E0.
        specialize (Hcap eq_refl).
        repeat split; try assumption; try discriminate; intros; lra.
      * exists (roundToDecimalPlaces p0 5), tbid, task. apply ltb_ge in E1.
        repeat split; try assumption; try discriminate; intros; lra.
    + rewrite (bool_decide_eq_false_2 (ask = bid)) by discriminate.
      rewrite bool_decide_eq_true_2 by reflexivity. cbn [andb].
      destruct (Js.ltb (roundToDecimalPlaces p0 5) tbid) eqn:E1;
        intros [= <-] _; cbn [price side].
      * exists tbid, tbid, task. apply ltb_lt in E1.
        repeat split; try assumption; try discriminate; intros; lra.
      * exists (roundToDecimalPlaces p0 5), tbid, task. apply ltb_ge in E1.
        repeat split; try assumption; try discriminate; intros; lra.
  - intros size tbid task d Hd Ht Hbad. unfold generateOrderBasedOnStrategy.
    rewrite Hd. unfold finalSanityCheck. rewrite Ht.
    destruct Hbad as [-> | (q & -> & Hq)].
    + eexists. split; [reflexivity |]. split; reflexivity.
    + rewrite (proj2 (leb_le q 0) Hq). eexists. split; [reflexivity |]. split; reflexivity.
Qed.
End Taker.

(** Ticker 100 / 100.1 with draws of 0.7: the random strategy yields a
    limit ask.  Ticker 0.000001 / 0.000002: the calculated limit price
    rounds to 0 and the order is degraded to a market order. *)
Lemma C9_witness :
  (exists (o : Order) (q : Q),
     MarketTakerBot.generateOrderBasedOnStrategy samplePair sampleTakerConfig 0
       (constDraws (7 # 10)) 0 [100] MarketTakerBot.s_random
       (sampleTicker 100 (1001 # 10) 100) = Some o
     /\ type o = limit /\ side o = ask /\ price o = Some q /\ 0 < q /\ 100 <= q)
  /\ (exists (d : MarketTakerBot.Draft) (o : Order),
        MarketTakerBot.d_type d = limit
        /\ (exists q, MarketTakerBot.d_price d = Some q /\ q <= 0)
        /\ MarketTakerBot.generateOrderBasedOnStrategy samplePair sampleTakerConfig 0
             (constDraws (7 # 10)) 0 [100] MarketTakerBot.s_random
             (sampleTicker (1 # 1000000) (2 # 1000000) (1 # 1000000)) = Some o
        /\ type o = market /\ price o = None).
Proof.
  split.
  - destruct (C9_taker_limit_price sampleTakerConfig (constDraws (7 # 10)) samplePair 0 0
                [100] MarketTakerBot.s_random (sampleTicker 100 (1001 # 10) 100))
      as [HA _].
    destruct (MarketTakerBot.generateOrderBasedOnStrategy samplePair sampleTakerConfig 0
                (constDraws (7 # 10)) 0 [100] MarketTakerBot.s_random
                (sampleTicker 100 (1001 # 10) 100)) as [o |] eqn:E;
      [| vm_compute in E; discriminate].
    assert (Ht : type o = limit) by (vm_compute in E; injection E as <-; reflexivity).
    assert (Hs : side o = ask) by (vm_compute in E; injection E as <-; reflexivity).
    destruct (HA o eq_refl Ht) as (q & tbid & task & Hq & Hpos & Hb & _ & _ & Hask).
    cbn in Hb. injection Hb as <-.
    exists o, q. repeat split; try assumption. apply Hask. exact Hs.
  - destruct (C9_taker_limit_price sampleTakerConfig (constDraws (7 # 10)) samplePair 0 0
                [100] MarketTakerBot.s_random
                (sampleTicker (1 # 1000000) (2 # 1000000) (1 # 1000000)))
      as [_ HB].
    destruct (MarketTakerBot.draftOrder sampleTakerConfig (constDraws (7 # 10)) 0 [100]
                MarketTakerBot.s_random
                (sampleTicker (1 # 1000000) (2 # 1000000) (1 # 1000000)))
      as [[[[size tbid] task] d] |] eqn:E; [| vm_compute in E; discriminate].
    assert (Ht : MarketTakerBot.d_type d = limit)
      by (vm_compute in E; injection E as _ _ _ <-; reflexivity).
    assert (Hp : exists q, MarketTakerBot.d_price d = Some q /\ q <= 0).
    { vm_compute in E. injection E as _ _ _ <-. eexists. split; [reflexivity |].
      vm_compute. discriminate. }
    destruct (HB size tbid task d eq_refl Ht (or_intror Hp)) as (o & Ho & Hm & Hn).
    exists d, o. repeat split; assumption.
Defined.

(** ** Lifecycle: scheduling, stop, start-up *)

Section Lifecycle.
Import BaseBot.

Lemma clearTimeout_tracked (h : nat) (timers : list nat) :
  (forall x, x ∈ timers -> x = h) -> clearTimeout h timers = [].
Proof.
  intros Hall. unfold clearTimeout. induction timers as [| x l IH]; [reflexivity |].
  rewrite filter_cons_False.
  - apply IH. intros y Hy. apply Hall. apply list_elem_of_further. exact Hy.
  - intros Hne. apply Hne. apply Hall. apply list_elem_of_here.
Qed.

(** The timers left after [clearTimeout(this.timeoutId)]. *)
Lemma cleared_nil (a : Agent) :
  timers_tracked a ->
  match timeoutId a with Some h => clearTimeout h (armed a) | None => armed a end = [].
Proof.
  intros Htr. destruct (timeoutId a) as [h |] eqn:E.
  - apply clearTimeout_tracked. intros x Hx. specialize (Htr x Hx). congruence.
  - destruct (armed a) as [| x l] eqn:Ea; [reflexivity |].
    assert (Hx : x ∈ armed a) by (rewrite Ea; apply list_elem_of_here).
    specialize (Htr x Hx). congruence.
Qed.

Lemma scheduleNextRun_tracked (a : Agent) :
  timers_tracked a -> timers_tracked (scheduleNextRun a).
Proof.
  intros Htr. unfold scheduleNextRun. destruct (isRunning a); cbn [negb]; [| exact Htr].
  intros h. cbn [armed timeoutId]. rewrite (cleared_nil a Htr). cbn.
  intros Hh. apply list_elem_of_singleton in Hh. congruence.
Qed.

Lemma step_tracked (a a' : Agent) (e : Event) (o : list Obs) :
  timers_tracked a -> step a e = Some (a', o) -> timers_tracked a'.
Proof.
  intros Htr. destruct e as [| | h | i]; cbn [step].
  - intros [= <- <-]. unfold start. destruct (isRunning a); [exact Htr |].
    apply scheduleNextRun_tracked. exact Htr.
  - unfold stop. destruct (match kind a with Maker => _ | Taker => _ end) as [orders effects].
    intros [= <- <-]. intros h. cbn [armed]. rewrite (cleared_nil a Htr).
    intros Hh. inversion Hh.
  - destruct (bool_decide (h ∈ armed a)); [| discriminate].
    intros [= <- <-]. intros x. cbn [armed timeoutId]. unfold clearTimeout.
    rewrite list_elem_of_filter. intros [_ Hx]. apply Htr. exact Hx.
  - destruct (inFlight a) as [| k]; [discriminate |].
    destruct (runBody a i) as [[[orders prices] sent] early].
    intros [= <- <-]. apply scheduleNextRun_tracked.
    destruct early; [apply scheduleNextRun_tracked |]; exact Htr.
Qed.

Lemma reachable_tracked (a : Agent) : reachable a -> timers_tracked a.
Proof.
  induction 1 as [k p cfg | a e a' o _ IH Hstep].
  - intros h Hh. inversion Hh.
  - eapply step_tracked; eassumption.
Qed.

Lemma exec_reachable (es : list Event) :
  forall (a a' : Agent) (o : list Obs),
    reachable a -> exec a es = Some (a', o) -> reachable a'.
Proof.
  induction es as [| e es IH]; intros a a' o Hr; cbn [exec].
  - intros [= <- <-]. exact Hr.
  - destruct (step a e) as [[a1 o1] |] eqn:Es; [| discriminate].
    destruct (exec a1 es) as [[a2 o2] |] eqn:Ee; [| discriminate].
    intros [= <- <-]. eapply IH; [| exact Ee]. eapply reach_step; eassumption.
Qed.

Lemma stop_quiescent (a : Agent) : timers_tracked a -> quiescent (fst (stop a)).
Proof.
  intros Htr. unfold stop.
  destruct (match kind a with Maker => _ | Taker => _ end) as [orders effects].
  split; cbn; [reflexivity | apply cleared_nil; exact Htr].
Qed.

Lemma scheduleNextRun_stopped (a : Agent) :
  isRunning a = false -> scheduleNextRun a = a.
Proof. intros H. unfold scheduleNextRun. rewrite H. reflexivity. Qed.

(** A quiescent agent stays quiescent, and begins no run, as long as
    [start] is not called. *)
Lemma step_quiescent (a a' : Agent) (e : Event) (o : list Obs) :
  quiescent a -> e <> EStart -> step a e = Some (a', o) ->
  quiescent a' /\ forall k, ObsRunBegins k ∉ o.
Proof.
  intros [Hrun Harm] Hne. destruct e as [| | h | i]; cbn [step].
  - contradiction.
  - unfold stop. rewrite Harm.
    destruct (match kind a with Maker => _ | Taker => _ end) as [orders effects].
    intros [= <- <-]. split.
    + split; cbn; [reflexivity |]. destruct (timeoutId a); reflexivity.
    + intros k Hin. apply elem_of_cons in Hin as [Heq | Hin]; [discriminate |].
      apply list_elem_of_fmap in Hin as (x & Hx & _). discriminate.
  - rewrite Harm. rewrite bool_decide_eq_false_2 by apply not_elem_of_nil. discriminate.
  - destruct (inFlight a) as [| k]; [discriminate |].
    destruct (runBody a i) as [[[orders prices] sent] early].
    intros [= <- <-].
    match goal with
    | |- context [scheduleNextRun (if early then scheduleNextRun ?x else ?x)] =>
        set (a1 := x)
    end.
    assert (H1 : isRunning a1 = false) by exact Hrun.
    assert (E : scheduleNextRun (if early then scheduleNextRun a1 else a1) = a1).
    { destruct early; rewrite !(scheduleNextRun_stopped a1 H1); reflexivity. }
    rewrite E. split.
    + split; [exact H1 | exact Harm].
    + intros k' Hin. apply list_elem_of_fmap in Hin as (x & Hx & _). discriminate.
Qed.

Lemma exec_quiescent (es : list Event) :
  forall (a a' : Agent) (o : list Obs),
    quiescent a -> EStart ∉ es -> exec a es = Some (a', o) ->
    quiescent a' /\ forall k, ObsRunBegins k ∉ o.
Proof.
  induction es as [| e es IH]; intros a a' o Hq Hns; cbn [exec].
  - intros [= <- <-]. split; [exact Hq |]. intros k Hin. inversion Hin.
  - destruct (step a e) as [[a1 o1] |] eqn:Es; [| discriminate].
    destruct (exec a1 es) as [[a2 o2] |] eqn:Ee; [| discriminate].
    intros [= <- <-]. apply not_elem_of_cons in Hns as [Hne Hns].
    destruct (step_quiescent a a1 e o1 Hq (fun E => Hne (eq_sym E)) Es) as [Hq1 Ho1].
    destruct (IH a1 a2 o2 Hq1 Hns Ee) as [Hq2 Ho2].
    split; [exact Hq2 |]. intros k Hin. apply elem_of_app in Hin as [Hin | Hin].
    + exact (Ho1 k Hin).
    + exact (Ho2 k Hin).
Qed.

(** A second [stop] changes nothing and logs no cancel. *)
Lemma stop_stop (a : Agent) :
  stop (fst (stop a)) = (fst (stop a), [ObsStopping (kind a)]).
Proof.
  unfold stop. destruct (kind a) eqn:Ek.
  - unfold MarketMakerBot.stopOrders.
    destruct (activeMakerOrders a); cbn; rewrite ?Ek; reflexivity.
  - cbn. rewrite ?Ek. reflexivity.
Qed.
End Lifecycle.

(** C7.  For every agent in a state it can reach: [stop] leaves no timer
    armed and the agent not running; in every run of events after it in
    which [start] is not called again, no run cycle begins, a cycle that was
    in flight and returns afterwards arms no timer, and the agent ends
    stopped with no timer armed; a second [stop] changes nothing and logs
    no cancel. *)
Theorem C7_no_cycle_after_stop (a : BaseBot.Agent) (es : list BaseBot.Event)
    (a' : BaseBot.Agent) (obs : list Obs) :
  BaseBot.reachable a ->
  BaseBot.EStart ∉ es ->
  BaseBot.exec (fst (BaseBot.stop a)) es = Some (a', obs) ->
  BaseBot.isRunning (fst (BaseBot.stop a)) = false
  /\ BaseBot.armed (fst (BaseBot.stop a)) = []
  /\ (forall k, ObsRunBegins k ∉ obs)
  /\ BaseBot.isRunning a' = false
  /\ BaseBot.armed a' = []
  /\ BaseBot.stop (fst (BaseBot.stop a)) = (fst (BaseBot.stop a), [ObsStopping (BaseBot.kind a)]).
Proof.
  intros Hreach Hns Hexec.
  pose proof (stop_quiescent a (reachable_tracked a Hreach)) as Hq.
  destruct (exec_quiescent es _ _ _ Hq Hns Hexec) as [[Hrun' Harm'] Hobs].
  destruct Hq as [Hrun Harm].
  repeat split; try assumption. apply stop_stop.
Qed.

(** A maker is started, its first timer fires and the cycle is in flight
    when [stop] is called; the cycle then returns and [stop] is called
    again. *)
Lemma C7_witness :
  let a := agentAfter Maker [BaseBot.EStart; BaseBot.ETimerFires 0] in
  let es := [BaseBot.ERunReturns sampleInput; BaseBot.EStop] in
  BaseBot.reachable a /\ (BaseBot.EStart ∉ es)
  /\ BaseBot.inFlight a = 1%nat
  /\ exists a' obs,
       BaseBot.exec (fst (BaseBot.stop a)) es = Some (a', obs)
       /\ (forall k, ObsRunBegins k ∉ obs)
       /\ BaseBot.isRunning a' = false /\ BaseBot.armed a' = [].
Proof.
  cbv zeta.
  assert (Hreach : BaseBot.reachable (agentAfter Maker [BaseBot.EStart; BaseBot.ETimerFires 0])).
  { unfold agentAfter.
    destruct (BaseBot.exec (BaseBot.newAgent Maker samplePair (sampleConfig 0))
                [BaseBot.EStart; BaseBot.ETimerFires 0]) as [[a o] |] eqn:E.
    - eapply exec_reachable; [apply BaseBot.reach_new | exact E].
    - apply BaseBot.reach_new. }
  assert (Hns : BaseBot.EStart ∉ [BaseBot.ERunReturns sampleInput; BaseBot.EStop]).
  { intros Hin. apply elem_of_cons in Hin as [H | Hin]; [discriminate |].
    apply elem_of_cons in Hin as [H | Hin]; [discriminate | inversion Hin]. }
  split; [exact Hreach |]. split; [exact Hns |]. split; [reflexivity |].
  destruct (BaseBot.exec
              (fst (BaseBot.stop (agentAfter Maker [BaseBot.EStart; BaseBot.ETimerFires 0])))
              [BaseBot.ERunReturns sampleInput; BaseBot.EStop]) as [[a' obs] |] eqn:E;
    [| vm_compute in E; discriminate].
  destruct (C7_no_cycle_after_stop _ _ _ _ Hreach Hns E) as (_ & _ & Hobs & Hrun & Harm & _).
  exists a', obs. repeat split; assumption.
Defined.

(** C6 (the code on every pair, and at the failing input).  [stop] of a
    pair sends no request to the order-execution client, whatever the maker
    holds.  For a running pair whose maker holds a resting order under the
    id "id-1": the taker is stopped first, then the maker, which logs the
    simulated cancel of "id-1" and empties its map; no cancel request is
    issued. *)
Theorem C6_stop_sends_no_cancel :
  (forall t : PairTrader.PairTrader,
     Forall (fun o => isClientCall o = false) (PairTrader.stop t).2)
  /\ (BaseBot.activeMakerOrders (PairTrader.mmBot runningPair)).*1 = ["id-1"]
  /\ (PairTrader.stop runningPair).2
     = [ObsStopping Taker; ObsStopping Maker;
        ObsStop (MarketMakerBot.LogSimulatedCancel "id-1")]
  /\ BaseBot.activeMakerOrders (PairTrader.mmBot (PairTrader.stop runningPair).1) = [].
Proof.
  split; [| repeat split; vm_compute; reflexivity].
  assert (Hstop : forall a : BaseBot.Agent,
             Forall (fun o => isClientCall o = false) (BaseBot.stop a).2).
  { intros a. unfold BaseBot.stop.
    destruct (BaseBot.kind a); unfold MarketMakerBot.stopOrders.
    - destruct (BaseBot.activeMakerOrders a) as [| e l]; cbn [snd].
      + repeat constructor.
      + constructor; [reflexivity |]. rewrite <- list_fmap_compose.
        apply Forall_fmap. apply Forall_true. intros x. reflexivity.
    - cbn. repeat constructor. }
  intros t. unfold PairTrader.stop. destruct (PairTrader.isRunning t); cbn [negb].
  - pose proof (Hstop (PairTrader.mtBot t)) as H1.
    pose proof (Hstop (PairTrader.mmBot t)) as H2.
    destruct (BaseBot.stop (PairTrader.mtBot t)) as [mt o1].
    destruct (BaseBot.stop (PairTrader.mmBot t)) as [mm o2].
    cbn [snd] in *. apply Forall_app. split; assumption.
  - constructor.
Qed.

(** C8 (the code at the failing input).  When
    [marketDataProvider.initialize()] throws, [BotManager.initialize]
    catches the error and [BotManager.start] returns normally: no pair
    trader exists or is started, and [main] goes on to its last [await];
    [process.exit(1)] is not called. *)
Theorem C8_init_failure_does_not_exit
    (pairs : list (TradingPair * PairConfig))
    (clientInit : string -> PairTrader.ClientInit) :
  main {| BotManager.marketDataInitOk := false; BotManager.pairs := pairs;
          BotManager.clientInit := clientInit |}
  = (BotManager.new, Waiting)
  /\ BotManager.started
       (main {| BotManager.marketDataInitOk := false; BotManager.pairs := pairs;
                BotManager.clientInit := clientInit |}).1 = [].
Proof. split; reflexivity. Qed.

(** By contrast, a pair whose client fails to authenticate makes [start]
    reject, and [main] exits with code 1. *)
Lemma client_failure_exits :
  (main {| BotManager.marketDataInitOk := true;
           BotManager.pairs := [(samplePair, sampleConfig 0)];
           BotManager.clientInit :=
             fun _ => {| PairTrader.makerClientOk := false;
                         PairTrader.takerClientOk := true |} |}).2
  = Exited 1.
Proof. reflexivity. Qed.

(** * Further properties of the code *)

(** ** The delay to the next cycle (src/core/utils.ts) *)

(** X4.  The delay to the next cycle, with a draw in [0, 1).  The maker
    waits at least 4500 ms and at most 5500 ms when its configuration
    gives neither interval nor variance (the defaults 5000 and 0.1); with
    a non-negative interval and a variance of at most 1 neither bot asks
    for a negative delay or for more than twice the interval.  The bounds
    are not strict: in floating point the upper end is reached. *)
Theorem X4_cycle_delay (cfg : PairConfig) (r : Q) :
  0 <= r -> r < 1 ->
  (updateIntervalMs (marketMaker cfg) = None ->
   updateIntervalVariance (marketMaker cfg) = None ->
   4500 <= MarketMakerBot.getUpdateInterval cfg r
   /\ MarketMakerBot.getUpdateInterval cfg r <= 5500)
  /\ (forall ms v : Q,
        updateIntervalMs (marketMaker cfg) = Some ms ->
        updateIntervalVariance (marketMaker cfg) = Some v ->
        0 <= ms -> 0 <= v -> v <= 1 ->
        0 <= MarketMakerBot.getUpdateInterval cfg r
        /\ MarketMakerBot.getUpdateInterval cfg r <= 2 * ms)
  /\ (0 <= avgActionIntervalMs (marketTaker cfg) ->
      0 <= actionIntervalVariance (marketTaker cfg) ->
      actionIntervalVariance (marketTaker cfg) <= 1 ->
      0 <= MarketTakerBot.getActionInterval (marketTaker cfg) r
      /\ MarketTakerBot.getActionInterval (marketTaker cfg) r
         <= 2 * avgActionIntervalMs (marketTaker cfg)).
Proof.
  intros H0 H1.
  assert (Hband : forall base f : Q, 0 <= base -> 0 <= f -> f <= 1 ->
            0 <= applyVariance r base f /\ applyVariance r base f <= 2 * base).
  { intros base f Hb Hf Hf1. unfold applyVariance, getRandomArbitrary.
    assert (E : base * (1 + (r * (f - - f) + - f))
                == base * (1 - f) + 2 * (r * (base * f))) by ring.
    assert (Hbf : 0 <= base * f) by nra. rewrite E. split; nra. }
  unfold MarketMakerBot.getUpdateInterval, MarketTakerBot.getActionInterval.
  split; [| split].
  - intros -> ->. cbn [nullish default]. unfold applyVariance, getRandomArbitrary.
    split; lra.
  - intros ms v -> ->. cbn [nullish default]. apply Hband.
  - apply Hband.
Qed.

Lemma X4_witness :
  0 <= (1 # 4) /\ (1 # 4) < 1
  /\ 0 <= MarketTakerBot.getActionInterval sampleTakerConfig (1 # 4)
  /\ MarketTakerBot.getActionInterval sampleTakerConfig (1 # 4) <= 2 * 5000.
Proof.
  assert (H0 : 0 <= (1 # 4)) by (vm_compute; discriminate).
  assert (H1 : (1 # 4) < 1) by reflexivity.
  destruct (X4_cycle_delay (sampleConfig 0) (1 # 4) H0 H1) as (_ & _ & Ht).
  split; [exact H0 |]. split; [exact H1 |].
  apply Ht; vm_compute; discriminate.
Defined.

(** ** Replace or keep (src/core/utils.ts) *)

Lemma ltb_negb_leb (x y : Q) : Js.ltb x y = negb (Js.leb y x).
Proof.
  destruct (Js.ltb x y) eqn:E1, (Js.leb y x) eqn:E2; try reflexivity; exfalso.
  - apply ltb_lt in E1. apply leb_le in E2. lra.
  - apply ltb_ge in E1. apply leb_gt in E2. lra.
Qed.

Lemma priceDeviation_fin (existing new_ : Order) :
  exists p, priceDeviation (compareOrders existing new_) = Js.Fin p.
Proof.
  unfold compareOrders. cbn [priceDeviation].
  destruct (price existing) as [pe |], (price new_) as [pn |]; try (eexists; reflexivity).
  destruct (Js.truthy pe && Js.truthy pn); eexists; reflexivity.
Qed.

(** X6.  [shouldReplaceOrder] is the exact opposite of the threshold test
    of [findMatchingOrder], unless the two sizes are both zero: then the
    size deviation is [NaN], the order is never within the thresholds, and
    it is to be replaced only if its price deviates too much. *)
Theorem X6_shouldReplaceOrder_complement (existing new_ : Order) (maxP maxS : Q) :
  (~ (size existing == 0 /\ size new_ == 0) ->
   shouldReplaceOrder (compareOrders existing new_) maxP maxS
   = negb (withinThresholds (fun o : Order => o) existing new_ maxP maxS))
  /\ (size existing == 0 -> size new_ == 0 ->
      withinThresholds (fun o : Order => o) existing new_ maxP maxS = false
      /\ shouldReplaceOrder (compareOrders existing new_) maxP maxS
         = Js.xgtb (priceDeviation (compareOrders existing new_)) (Js.Fin maxP)).
Proof.
  unfold shouldReplaceOrder, withinThresholds.
  destruct (priceDeviation_fin existing new_) as [p ->].
  assert (Es : sizeDeviation (compareOrders existing new_)
               = Js.abs_div (size existing - size new_) (size existing)) by reflexivity.
  rewrite Es. clear Es. unfold Js.abs_div, Js.xgtb.
  split.
  - intros Hnz. cbn [Js.xltb Js.xleb].
    destruct (Js.truthy (size existing)) eqn:Et.
    + cbn [Js.xltb Js.xleb]. rewrite !ltb_negb_leb, negb_andb. reflexivity.
    + apply truthy_false in Et.
      destruct (Js.truthy (size existing - size new_)) eqn:Ed.
      * cbn [Js.xltb Js.xleb]. rewrite ltb_negb_leb, andb_false_r, orb_true_r. reflexivity.
      * apply truthy_false in Ed. exfalso. apply Hnz. split; [exact Et | lra].
  - intros He Hn.
    assert (Et : Js.truthy (size existing) = false) by (apply truthy_false; exact He).
    assert (Ed : Js.truthy (size existing - size new_) = false)
      by (apply truthy_false; lra).
    rewrite Et, Ed. cbn [Js.xltb Js.xleb]. rewrite andb_false_r, orb_false_r.
    split; reflexivity.
Qed.

Lemma X6_witness :
  ~ (size (sampleOrder bid limit (Some 100) 0) == 0
     /\ size (sampleOrder bid limit (Some 100) 1) == 0)
  /\ shouldReplaceOrder
       (compareOrders (sampleOrder bid limit (Some 100) 0)
                      (sampleOrder bid limit (Some 100) 1)) (1 # 1000) (1 # 10)
     = negb (withinThresholds (fun o : Order => o) (sampleOrder bid limit (Some 100) 0)
               (sampleOrder bid limit (Some 100) 1) (1 # 1000) (1 # 10))
  /\ withinThresholds (fun o : Order => o) (sampleOrder bid limit (Some 100) 0)
       (sampleOrder bid limit (Some 100) 0) (1 # 1000) (1 # 10) = false.
Proof.
  assert (H : ~ (size (sampleOrder bid limit (Some 100) 0) == 0
                 /\ size (sampleOrder bid limit (Some 100) 1) == 0)).
  { intros [_ H]. vm_compute in H. discriminate. }
  assert (H0 : size (sampleOrder bid limit (Some 100) 0) == 0) by reflexivity.
  destruct (X6_shouldReplaceOrder_complement (sampleOrder bid limit (Some 100) 0)
              (sampleOrder bid limit (Some 100) 1) (1 # 1000) (1 # 10)) as [Ha _].
  destruct (X6_shouldReplaceOrder_complement (sampleOrder bid limit (Some 100) 0)
              (sampleOrder bid limit (Some 100) 0) (1 # 1000) (1 # 10)) as [_ Hb].
  split; [exact H |]. split; [exact (Ha H) |]. exact (proj1 (Hb H0 H0)).
Defined.

(** ** The matcher on arbitrary thresholds *)

Section MatcherMore.
Context {Ref : Type} (deref : Ref -> Order).
Variables (existingOrder : Order) (maxP maxS : Q).

Lemma findLoop_drop (c : Ref) (l2 : list Ref) :
  withinThresholds deref existingOrder c maxP maxS = false ->
  forall (l1 : list Ref) (best : option Ref) (q : Js.xnum),
    findLoop deref existingOrder maxP maxS (l1 ++ c :: l2) best q
    = findLoop deref existingOrder maxP maxS (l1 ++ l2) best q.
Proof.
  intros Hc. induction l1 as [| x l1 IH]; intros best q; cbn [app findLoop].
  - rewrite Hc, andb_false_r. reflexivity.
  - destruct (_ && _); apply IH.
Qed.

Lemma deviations_nonneg (c : Ref) (p s : Q) :
  priceDeviation (compareOrders existingOrder (deref c)) = Js.Fin p ->
  sizeDeviation (compareOrders existingOrder (deref c)) = Js.Fin s ->
  0 <= p /\ 0 <= s.
Proof.
  unfold compareOrders. cbn [priceDeviation sizeDeviation]. intros Hp Hs. split.
  - destruct (price existingOrder) as [pe |], (price (deref c)) as [pn |];
      try (injection Hp as <-; lra).
    destruct (Js.truthy pe && Js.truthy pn).
    + revert Hp. generalize ((pe - pn) / pe). intros x [= <-]. apply Qabs_nonneg.
    + injection Hp as <-. lra.
  - unfold Js.abs_div in Hs. destruct (Js.truthy (size existingOrder)).
    + revert Hs. generalize ((size existingOrder - size (deref c)) / size existingOrder).
      intros x [= <-]. apply Qabs_nonneg.
    + destruct (Js.truthy _); discriminate.
Qed.

(** X7.  A candidate that is not eligible (other side or kind, or a
    deviation above its threshold) never influences the match: removing it
    from the candidates leaves the result unchanged. *)
Theorem X7_ineligible_candidate_is_ignored (l1 l2 : list Ref) (c : Ref) :
  eligible deref existingOrder maxP maxS c = false ->
  findMatchingOrder deref existingOrder (l1 ++ c :: l2) maxP maxS
  = findMatchingOrder deref existingOrder (l1 ++ l2) maxP maxS.
Proof.
  unfold eligible, findMatchingOrder. intros Hc. cbv zeta.
  rewrite !filter_app.
  destruct (sameTypeOrder deref existingOrder c) eqn:Es.
  - rewrite filter_cons_True by exact Es. cbn [andb] in Hc.
    apply findLoop_drop. exact Hc.
  - rewrite filter_cons_False by (rewrite Es; discriminate). reflexivity.
Qed.

(** X8.  Whatever the thresholds, a returned match is one of the
    candidates, has the side and kind of the resting order, and its price
    and size deviations are finite, non-negative and at most their
    thresholds.  Hence a negative threshold never matches anything. *)
Theorem X8_match_is_sound (newOrders : list Ref) :
  (forall b : Ref,
     findMatchingOrder deref existingOrder newOrders maxP maxS = Some b ->
     b ∈ newOrders
     /\ side (deref b) = side existingOrder /\ type (deref b) = type existingOrder
     /\ exists p s,
          priceDeviation (compareOrders existingOrder (deref b)) = Js.Fin p
          /\ sizeDeviation (compareOrders existingOrder (deref b)) = Js.Fin s
          /\ 0 <= p /\ p <= maxP /\ 0 <= s /\ s <= maxS)
  /\ (maxP < 0 \/ maxS < 0 ->
      findMatchingOrder deref existingOrder newOrders maxP maxS = None).
Proof.
  assert (Hsound : forall b : Ref,
            findMatchingOrder deref existingOrder newOrders maxP maxS = Some b ->
            b ∈ newOrders
            /\ side (deref b) = side existingOrder /\ type (deref b) = type existingOrder
            /\ exists p s,
                 priceDeviation (compareOrders existingOrder (deref b)) = Js.Fin p
                 /\ sizeDeviation (compareOrders existingOrder (deref b)) = Js.Fin s
                 /\ 0 <= p /\ p <= maxP /\ 0 <= s /\ s <= maxS).
  { intros b Hb.
    destruct (findMatchingOrder_Some deref existingOrder maxP maxS newOrders b Hb)
      as [Hin He].
    unfold eligible in He. apply andb_true_iff in He as [Hs Hw].
    unfold sameTypeOrder in Hs. apply andb_true_iff in Hs as [Hs1 Hs2].
    apply bool_decide_eq_true in Hs1. apply bool_decide_eq_true in Hs2.
    destruct (within_finite deref existingOrder maxP maxS b Hw)
      as (p & s & Hp & Hsd & _ & HpP & HsS).
    destruct (deviations_nonneg b p s Hp Hsd) as [Hp0 Hs0].
    split; [exact Hin |]. split; [exact Hs1 |]. split; [exact Hs2 |].
    exists p, s. repeat split; assumption. }
  split; [exact Hsound |].
  intros Hneg.
  destruct (findMatchingOrder deref existingOrder newOrders maxP maxS) as [b |] eqn:E;
    [| reflexivity].
  exfalso. destruct (Hsound b eq_refl) as (_ & _ & _ & p & s & _ & _ & Hp0 & HpP & Hs0 & HsS).
  destruct Hneg; lra.
Qed.
End MatcherMore.

Lemma X8_witness :
  match findMatchingOrder (fun o : Order => o) (sampleOrder bid limit (Some 100) 1)
          [sampleOrder ask limit (Some 100) 1;
           sampleOrder bid limit (Some (1000005 # 10000)) (102 # 100)]
          (1 # 1000) (1 # 10) with
  | Some b =>
      b ∈ [sampleOrder ask limit (Some 100) 1;
           sampleOrder bid limit (Some (1000005 # 10000)) (102 # 100)]
      /\ side b = bid
  | None => False
  end.
Proof.
  destruct (findMatchingOrder (fun o : Order => o) (sampleOrder bid limit (Some 100) 1)
              [sampleOrder ask limit (Some 100) 1;
               sampleOrder bid limit (Some (1000005 # 10000)) (102 # 100)]
              (1 # 1000) (1 # 10)) as [b |] eqn:E; [| vm_compute in E; discriminate].
  destruct (X8_match_is_sound (fun o : Order => o) (sampleOrder bid limit (Some 100) 1)
              (1 # 1000) (1 # 10)
              [sampleOrder ask limit (Some 100) 1;
               sampleOrder bid limit (Some (1000005 # 10000)) (102 # 100)]) as [Hs _].
  destruct (Hs b E) as (Hin & Hside & _).
  split; [exact Hin | exact Hside].
Defined.


Lemma X7_witness :
  eligible (fun o : Order => o) (sampleOrder bid limit (Some 100) 1) (1 # 1000) (1 # 10)
    (sampleOrder ask limit (Some 100) 1) = false
  /\ findMatchingOrder (fun o : Order => o) (sampleOrder bid limit (Some 100) 1)
       ([sampleOrder bid limit (Some 100) 1] ++
        sampleOrder ask limit (Some 100) 1 :: [sampleOrder bid limit (Some 100) 1])
       (1 # 1000) (1 # 10)
     = findMatchingOrder (fun o : Order => o) (sampleOrder bid limit (Some 100) 1)
         ([sampleOrder bid limit (Some 100) 1] ++ [sampleOrder bid limit (Some 100) 1])
         (1 # 1000) (1 # 10).
Proof.
  assert (H : eligible (fun o : Order => o) (sampleOrder bid limit (Some 100) 1)
                (1 # 1000) (1 # 10) (sampleOrder ask limit (Some 100) 1) = false)
    by reflexivity.
  split; [exact H |].
  exact (X7_ineligible_candidate_is_ignored (fun o : Order => o)
           (sampleOrder bid limit (Some 100) 1) (1 # 1000) (1 # 10)
           [sampleOrder bid limit (Some 100) 1] [sampleOrder bid limit (Some 100) 1]
           (sampleOrder ask limit (Some 100) 1) H).
Defined.

(** ** Reconciliation without assumptions on the map or the venue *)

Section ReconcileMore.
Import MarketMakerBot.

Lemma slotsFrom_fst (l : list Order) :
  forall j, (slotsFrom j l).*1 = seq j (length l).
Proof.
  induction l as [| o l IH]; intros j; [reflexivity |].
  cbn [slotsFrom fmap list_fmap length seq]. cbn. f_equal. apply IH.
Qed.

Lemma slotsFrom_snd (l : list Order) : forall j, (slotsFrom j l).*2 = l.
Proof.
  induction l as [| o l IH]; intros j; [reflexivity |].
  cbn. f_equal. apply IH.
Qed.

Lemma unmatched_NoDup (newOrders : list Order) (M : gset nat) :
  NoDup (unmatched newOrders M).*1.
Proof.
  apply (sublist_NoDup _ (slots newOrders).*1).
  - unfold slots. rewrite slotsFrom_fst. apply NoDup_seq.
  - unfold unmatched. apply fmap_sublist, sublist_filter.
Qed.

Lemma filter_remove_one {A : Type} (l : list (nat * A)) (r : nat * A) :
  NoDup l.*1 -> r ∈ l ->
  S (length (filter (fun x : nat * A => x.1 <> r.1) l)) = length l.
Proof.
  induction l as [| x l IH]; intros Hnd Hin; [inversion Hin |].
  rewrite fmap_cons in Hnd. apply NoDup_cons in Hnd as [Hx Hnd].
  apply elem_of_cons in Hin as [-> | Hin].
  - rewrite filter_cons_False by (intros H; apply H; reflexivity).
    rewrite filter_all; [reflexivity |].
    intros y Hy E. apply Hx. rewrite <- E. apply list_elem_of_fmap. exists y. split; [reflexivity | exact Hy].
  - rewrite filter_cons_True.
    + cbn [length]. f_equal. apply IH; assumption.
    + intros E. apply Hx. rewrite E. apply list_elem_of_fmap. exists r. split; [reflexivity | exact Hin].
Qed.

Lemma unmatched_claim (newOrders : list Order) (M : gset nat) (r : nat * Order) :
  r ∈ unmatched newOrders M ->
  S (length (unmatched newOrders (M ∪ {[ r.1 ]}))) = length (unmatched newOrders M).
Proof.
  intros Hin.
  rewrite <- (filter_remove_one (unmatched newOrders M) r (unmatched_NoDup _ _) Hin).
  f_equal. f_equal. unfold unmatched. rewrite list_filter_filter.
  apply filter_ext_elem_of. intros x _. rewrite not_elem_of_union, not_elem_of_singleton.
  tauto.
Qed.

(** What one resting order does to the state of the first pass. *)
Lemma classifyStep_cases (rnd : nat -> Q) (ratio : Q) (newOrders : list Order)
    (c : Classification) (e : string * Order) :
  (exists r, r ∈ unmatched newOrders (matchedNewOrders c)
             /\ classifyStep rnd ratio newOrders c e
                = {| matchedNewOrders := matchedNewOrders c ∪ {[ r.1 ]};
                     ordersToKeep := ordersToKeep c ++ [e];
                     ordersToCancel := ordersToCancel c;
                     nextDraw := S (nextDraw c) |})
  \/ (exists k, (k = nextDraw c \/ k = S (nextDraw c))
                /\ classifyStep rnd ratio newOrders c e
                   = {| matchedNewOrders := matchedNewOrders c;
                        ordersToKeep := ordersToKeep c;
                        ordersToCancel := ordersToCancel c ++ [e];
                        nextDraw := k |}).
Proof.
  unfold classifyStep.
  destruct (findMatchingOrder snd e.2 (unmatched newOrders (matchedNewOrders c))
              maxPriceDeviation maxSizeDeviation) as [r |] eqn:E.
  - destruct (Js.gtb _ _).
    + left. exists r. split; [| reflexivity].
      exact (proj1 (findMatchingOrder_Some snd e.2 maxPriceDeviation maxSizeDeviation _ r E)).
    + right. exists (S (nextDraw c)). split; [right |]; reflexivity.
  - right. exists (nextDraw c). split; [left |]; reflexivity.
Qed.

Lemma classify_counts (rnd : nat -> Q) (ratio : Q) (newOrders : list Order)
    (l : RestingMap) :
  forall c : Classification,
    let c' := foldl (classifyStep rnd ratio newOrders) c l in
    (length (unmatched newOrders (matchedNewOrders c')) + length (ordersToKeep c')
     = length (unmatched newOrders (matchedNewOrders c)) + length (ordersToKeep c))%nat
    /\ (nextDraw c <= nextDraw c')%nat
    /\ (nextDraw c' <= nextDraw c + length l)%nat.
Proof.
  induction l as [| e l IH]; intros c; cbn [foldl length]; [cbv zeta; lia |].
  specialize (IH (classifyStep rnd ratio newOrders c e)). cbv zeta in IH |- *.
  destruct IH as (I1 & I2 & I3).
  destruct (classifyStep_cases rnd ratio newOrders c e)
    as [(r & Hr & E) | (k & Hk & E)]; rewrite E in I1, I2, I3 |- *;
    cbn [matchedNewOrders ordersToKeep nextDraw] in *.
  - pose proof (unmatched_claim newOrders (matchedNewOrders c) r Hr) as Hc.
    rewrite length_app in I1. cbn [length] in I1. lia.
  - lia.
Qed.

Lemma unmatched_empty (newOrders : list Order) : unmatched newOrders ∅ = slots newOrders.
Proof. unfold unmatched. apply filter_all. intros x _. apply not_elem_of_empty. Qed.

Lemma slots_length (newOrders : list Order) : length (slots newOrders) = length newOrders.
Proof.
  unfold slots. rewrite <- (length_fmap snd), slotsFrom_snd. reflexivity.
Qed.

Lemma Partition_length {A : Type} (l K C : list A) :
  Partition l K C -> (length K + length C = length l)%nat.
Proof. induction 1; cbn [length]; lia. Qed.

(** The requests of the placement loop do not depend on the answers. *)
Lemma foldl_placeStep_calls (venue : Venue) (toPlace : list (nat * Order)) :
  forall acc : RestingMap * list VenueCall,
    (foldl (placeStep venue) acc toPlace).2
    = acc.2 ++ ((fun r : nat * Order => CallSubmitOrder r.1 r.2) <$> toPlace).
Proof.
  induction toPlace as [| r l IH]; intros acc; cbn [foldl fmap list_fmap].
  - rewrite app_nil_r. reflexivity.
  - rewrite IH.
    assert (E : (placeStep venue acc r).2 = acc.2 ++ [CallSubmitOrder r.1 r.2]).
    { unfold placeStep. destruct (submitOrder venue r.1) as [| [| orderId ids]];
        try reflexivity. destruct (Js.truthy_str orderId); reflexivity. }
    rewrite E, <- app_assoc. reflexivity.
Qed.

Lemma cancelStep_calls (venue : Venue) (C : list (string * Order)) (m : RestingMap) :
  (cancelStep venue C m).2
  = match omap (fun e : string * Order => id e.2) C with
    | [] => []
    | ids => [CallCancelOrders ids]
    end.
Proof.
  unfold cancelStep. destruct C as [| e C]; [reflexivity |].
  destruct (omap _ (e :: C)) as [| i ids]; [reflexivity |].
  destruct (cancelOrders venue (i :: ids)); reflexivity.
Qed.

Lemma unmatched_sublist (newOrders : list Order) (M : gset nat) :
  (unmatched newOrders M).*2 `sublist_of` newOrders.
Proof.
  unfold unmatched. rewrite <- (slotsFrom_snd newOrders 0) at 2.
  apply fmap_sublist, sublist_filter.
Qed.

(** X9.  Book-keeping of one reconcile cycle, whatever the map and the
    venue: every resting order is either kept or marked for cancel; every
    desired order is either claimed by exactly one kept resting order or
    placed, and the orders placed are desired orders in their ladder order;
    [Math.random()] is called at most once per resting order. *)
Theorem X9_reconcile_counts (cfg : PairConfig) (venue : Venue) (rnd : nat -> Q)
    (n : nat) (m : RestingMap) (newOrders : list Order) :
  (length (kept (manageOrders cfg venue rnd n m newOrders))
   + length (cancelled (manageOrders cfg venue rnd n m newOrders)) = length m)%nat
  /\ (length (kept (manageOrders cfg venue rnd n m newOrders))
      + length (toPlace (manageOrders cfg venue rnd n m newOrders))
      = length newOrders)%nat
  /\ (toPlace (manageOrders cfg venue rnd n m newOrders)).*2 `sublist_of` newOrders
  /\ (n <= drawsAfter (manageOrders cfg venue rnd n m newOrders))%nat
  /\ (drawsAfter (manageOrders cfg venue rnd n m newOrders) <= n + length m)%nat.
Proof.
  rewrite manageOrders_eq. cbv zeta. cbn [kept cancelled toPlace drawsAfter].
  set (ratio := nullish (cancelReplaceRatio (marketMaker cfg)) 0).
  pose proof (classify_Partition rnd n ratio newOrders m) as HP.
  apply Partition_length in HP.
  pose proof (classify_counts rnd ratio newOrders m
                {| matchedNewOrders := ∅; ordersToKeep := []; ordersToCancel := [];
                   nextDraw := n |}) as HC.
  cbv zeta in HC. cbn [matchedNewOrders ordersToKeep nextDraw length] in HC.
  fold (classify rnd n ratio newOrders m) in HC.
  rewrite unmatched_empty, slots_length in HC. destruct HC as (H1 & H2 & H3).
  split; [exact HP |]. split; [lia |]. split; [| split; assumption].
  apply unmatched_sublist.
Qed.

(** X10.  The requests of one reconcile cycle, whatever the map and the
    venue: at most one batch cancel, sent first, carrying the ids of the
    orders marked for cancel; then one placement per desired order that no
    kept resting order claimed, in ladder order.  The requests do not
    depend on the venue's answers: a failed cancel or a rejected placement
    stops nothing. *)
Theorem X10_reconcile_requests (cfg : PairConfig) (venue : Venue) (rnd : nat -> Q)
    (n : nat) (m : RestingMap) (newOrders : list Order) :
  calls (manageOrders cfg venue rnd n m newOrders)
  = match omap (fun e : string * Order => id e.2)
            (cancelled (manageOrders cfg venue rnd n m newOrders)) with
    | [] => []
    | ids => [CallCancelOrders ids]
    end
    ++ ((fun s : nat * Order => CallSubmitOrder s.1 s.2)
          <$> toPlace (manageOrders cfg venue rnd n m newOrders))
  /\ forall venue' : Venue,
       calls (manageOrders cfg venue' rnd n m newOrders)
       = calls (manageOrders cfg venue rnd n m newOrders).
Proof.
  assert (H : forall v : Venue,
            calls (manageOrders cfg v rnd n m newOrders)
            = match omap (fun e : string * Order => id e.2)
                      (ordersToCancel
                         (classify rnd n (nullish (cancelReplaceRatio (marketMaker cfg)) 0)
                            newOrders m)) with
              | [] => []
              | ids => [CallCancelOrders ids]
              end
              ++ ((fun s : nat * Order => CallSubmitOrder s.1 s.2)
                    <$> unmatched newOrders
                          (matchedNewOrders
                             (classify rnd n (nullish (cancelReplaceRatio (marketMaker cfg)) 0)
                                newOrders m)))).
  { intros v. rewrite manageOrders_eq. cbv zeta. cbn [calls].
    rewrite foldl_placeStep_calls, cancelStep_calls. reflexivity. }
  split.
  - rewrite (H venue). rewrite manageOrders_eq. reflexivity.
  - intros venue'. rewrite (H venue), (H venue'). reflexivity.
Qed.
End ReconcileMore.

(** ** Reconciliation of a repeated ladder *)

Section Repeat.
Import MarketMakerBot.

Lemma slotsFrom_lookup (l : list Order) :
  forall (j : nat) (x : nat * Order),
    x ∈ slotsFrom j l -> exists i, x.1 = (j + i)%nat /\ l !! i = Some x.2.
Proof.
  induction l as [| o l IH]; intros j x Hx; cbn in Hx; [inversion Hx |].
  apply elem_of_cons in Hx as [-> | Hx].
  - exists 0%nat. cbn. split; [lia | reflexivity].
  - destruct (IH _ _ Hx) as (i & E & Hl). exists (S i). cbn. split; [lia | exact Hl].
Qed.

(** A slot holds one desired order. *)
Lemma slots_inj (newOrders : list Order) (x y : nat * Order) :
  x ∈ slots newOrders -> y ∈ slots newOrders -> x.1 = y.1 -> x = y.
Proof.
  intros Hx Hy E. destruct (slotsFrom_lookup _ _ _ Hx) as (i & Ei & Hi).
  destruct (slotsFrom_lookup _ _ _ Hy) as (k & Ek & Hk).
  assert (i = k) by lia. subst k. destruct x, y; cbn in *. congruence.
Qed.

Lemma sameQuote_sym (a b : Order) : sameQuote a b -> sameQuote b a.
Proof.
  intros (Hs & Ht & (p & q & Hp & Hq & Hpq & Hp0) & Hsz & Hs0).
  split; [congruence |]. split; [congruence |]. split; [| split].
  - exists q, p. split; [exact Hq |]. split; [exact Hp |]. split; [symmetry; exact Hpq |].
    intros E. apply Hp0. rewrite Hpq. exact E.
  - symmetry. exact Hsz.
  - intros E. apply Hs0. rewrite Hsz. exact E.
Qed.

Lemma sameQuote_trans (a b c : Order) : sameQuote a b -> sameQuote b c -> sameQuote a c.
Proof.
  intros (Hs & Ht & (p & q & Hp & Hq & Hpq & Hp0) & Hsz & Hs0)
         (Hs' & Ht' & (p' & q' & Hp' & Hq' & Hpq' & Hp0') & Hsz' & Hs0').
  rewrite Hq in Hp'. injection Hp' as <-.
  split; [congruence |]. split; [congruence |]. split; [| split].
  - exists p, q'. split; [exact Hp |]. split; [exact Hq' |]. split; [| exact Hp0].
    rewrite Hpq. exact Hpq'.
  - rewrite Hsz. exact Hsz'.
  - exact Hs0.
Qed.

Lemma Qabs_nonpos (x : Q) : Qabs x <= 0 -> x == 0.
Proof. intros H. apply Qabs_Qle_condition in H. lra. Qed.

Lemma Qdiv_zero (x y : Q) : ~ y == 0 -> x / y == 0 -> x == 0.
Proof.
  intros Hy H. rewrite <- (Qmult_div_r x y Hy), H. ring.
Qed.

(** An eligible candidate that deviates by nothing quotes the same as the
    resting order. *)
Lemma zero_deviation_sameQuote {Ref : Type} (deref : Ref -> Order)
    (existingOrder : Order) (r : Ref) (maxP maxS t : Q) :
  eligible deref existingOrder maxP maxS r = true ->
  totalDeviation deref existingOrder r = Js.Fin t -> t <= 0 ->
  sameQuote existingOrder (deref r).
Proof.
  unfold eligible, sameTypeOrder. intros He Ht Ht0.
  apply andb_prop in He as [Hst _]. apply andb_prop in Hst as [Hside Htype].
  apply bool_decide_eq_true_1 in Hside. apply bool_decide_eq_true_1 in Htype.
  revert Ht. unfold totalDeviation, compareOrders. cbn [priceDeviation sizeDeviation].
  assert (Hp : exists pd, 0 <= pd
            /\ match price existingOrder, price (deref r) with
               | Some pe, Some pn =>
                   if Js.truthy pe && Js.truthy pn
                   then Js.Fin (Qabs ((pe - pn) / pe)) else Js.Fin 1
               | _, _ => Js.Fin 1
               end = Js.Fin pd
            /\ (pd <= 0 ->
                exists p q, price existingOrder = Some p /\ price (deref r) = Some q
                            /\ p == q /\ ~ p == 0)).
  { destruct (price existingOrder) as [pe |], (price (deref r)) as [pn |];
      try (exists 1; split; [lra |]; split; [reflexivity | intros; lra]).
    destruct (Js.truthy pe) eqn:Epe; cbn [andb];
      [| exists 1; split; [lra |]; split; [reflexivity | intros; lra]].
    destruct (Js.truthy pn) eqn:Epn;
      [| exists 1; split; [lra |]; split; [reflexivity | intros; lra]].
    eexists. split; [apply Qabs_nonneg |]. split; [reflexivity |].
    intros H. apply Qabs_nonpos in H. apply truthy_true in Epe.
    apply Qdiv_zero in H; [| exact Epe].
    exists pe, pn. split; [reflexivity |]. split; [reflexivity |]. split; [lra | exact Epe]. }
  destruct Hp as (pd & Hpd0 & -> & Hprice). unfold Js.abs_div.
  destruct (Js.truthy (size existingOrder)) eqn:Es.
  - cbn [Js.xadd].
    pose proof (Qabs_nonneg ((size existingOrder - size (deref r)) / size existingOrder)) as Hs0.
    remember (Qabs ((size existingOrder - size (deref r)) / size existingOrder)) as sd eqn:Esd.
    intros [= <-]. apply truthy_true in Es.
    assert (Hsd : sd <= 0) by lra.
    assert (Hpd : pd <= 0) by lra.
    subst sd.
    apply Qabs_nonpos in Hsd. apply Qdiv_zero in Hsd; [| exact Es].
    split; [symmetry; exact Hside |]. split; [symmetry; exact Htype |].
    split; [exact (Hprice Hpd) |]. split; [lra | exact Es].
  - destruct (Js.truthy (size existingOrder - size (deref r))); cbn [Js.xadd]; discriminate.
Qed.

(** When some candidate is eligible, a match is found, and it deviates no
    more than that candidate. *)
Lemma findMatchingOrder_eligible (e : Order) (cands : list (nat * Order))
    (p : nat * Order) :
  p ∈ cands ->
  eligible snd e maxPriceDeviation maxSizeDeviation p = true ->
  exists b,
    findMatchingOrder snd e cands maxPriceDeviation maxSizeDeviation = Some b
    /\ b ∈ cands
    /\ eligible snd e maxPriceDeviation maxSizeDeviation b = true
    /\ Js.xleb (totalDeviation snd e b) (totalDeviation snd e p) = true.
Proof.
  intros Hin He. unfold findMatchingOrder.
  destruct (findLoop_spec snd e maxPriceDeviation maxSizeDeviation cands None Js.MAX_VALUE)
    as [[_ Hall] | (l1 & b & l2 & Hl & Hres & Hb & _ & H1 & H2)]; cbn zeta in *.
  - exfalso. specialize (Hall p Hin He).
    unfold eligible in He. apply andb_prop in He as [_ Hw].
    destruct (within_finite snd e _ _ p Hw) as (pp & s & _ & _ & Ht & Hp & Hs).
    rewrite Ht in Hall. cbn in Hall. apply leb_le in Hall.
    unfold maxPriceDeviation, maxSizeDeviation in *.
    assert (1 < Js.MAX_VALUE) by (vm_compute; reflexivity). lra.
  - exists b. split; [exact Hres |]. split; [| split; [exact Hb |]].
    { rewrite Hl. apply elem_of_app. right. apply list_elem_of_here. }
    rewrite Hl in Hin. apply elem_of_app in Hin as [Hin | Hin].
    + specialize (H1 p Hin He).
      destruct (totalDeviation snd e b), (totalDeviation snd e p); cbn in *;
        try discriminate; try reflexivity.
      apply leb_le. apply ltb_lt in H1. lra.
    + apply elem_of_cons in Hin as [-> | Hin]; [| exact (H2 p Hin He)].
      unfold eligible in Hb. apply andb_prop in Hb as [_ Hw].
      destruct (within_finite snd e _ _ b Hw) as (pp & s & _ & _ & Ht & _ & _).
      rewrite Ht. cbn. apply leb_le. lra.
Qed.

Lemma xltb_xleb_false (x y : Js.xnum) :
  Js.xltb x y = true -> Js.xleb y x = true -> False.
Proof.
  destruct x, y; cbn; try discriminate.
  intros H1 H2. apply ltb_lt in H1. apply leb_le in H2. lra.
Qed.

Lemma Forall2_with_r {A B : Type} (R : A -> B -> Prop) (P : B -> Prop)
    (l : list A) (k : list B) :
  Forall2 R l k -> Forall P k -> Forall2 (fun a b => R a b /\ P b) l k.
Proof.
  induction 1 as [| a b l k HR HF IH]; intros HP; [constructor |].
  apply Forall_cons in HP as [Hb HP]. constructor; [split; assumption | apply IH, HP].
Qed.

Lemma keep_step (rnd : nat -> Q) (ratio : Q) (newOrders : list Order)
    (c : Classification) (e : string * Order) (b : nat * Order) :
  ratio == 0 -> (forall k, 0 < rnd k) ->
  findMatchingOrder snd e.2 (unmatched newOrders (matchedNewOrders c))
    maxPriceDeviation maxSizeDeviation = Some b ->
  classifyStep rnd ratio newOrders c e
  = {| matchedNewOrders := matchedNewOrders c ∪ {[ b.1 ]};
       ordersToKeep := ordersToKeep c ++ [e];
       ordersToCancel := ordersToCancel c;
       nextDraw := S (nextDraw c) |}.
Proof.
  intros Hratio Hdraw Hfind. unfold classifyStep. rewrite Hfind. unfold Js.gtb.
  rewrite (proj2 (ltb_lt ratio (rnd (nextDraw c)))) by (rewrite Hratio; apply Hdraw).
  reflexivity.
Qed.

(** The first pass when every remaining resting order has a copy of its
    own among the unclaimed desired orders: whichever copy an order claims,
    the orders after it still have one each. *)
Lemma classify_exact (rnd : nat -> Q) (ratio : Q) (newOrders : list Order) :
  ratio == 0 -> (forall k, 0 < rnd k) ->
  forall (l : RestingMap) (ps : list (nat * Order)) (c : Classification),
    Forall2 (fun (e : string * Order) (x : nat * Order) =>
               sameQuote e.2 x.2 /\ x ∈ slots newOrders) l ps ->
    NoDup ps.*1 ->
    (forall x, x ∈ ps -> x.1 ∉ matchedNewOrders c) ->
    ordersToKeep (foldl (classifyStep rnd ratio newOrders) c l) = ordersToKeep c ++ l
    /\ ordersToCancel (foldl (classifyStep rnd ratio newOrders) c l) = ordersToCancel c.
Proof.
  intros Hratio Hdraw. induction l as [| e l IH]; intros ps c HF Hnd HM.
  - cbn. rewrite app_nil_r. split; reflexivity.
  - inversion HF as [| e' p l' ps' [Hsame Hslot] HF']; subst. cbn [foldl].
    rewrite fmap_cons in Hnd. apply NoDup_cons in Hnd as [Hp Hnd].
    assert (Hpin : p ∈ unmatched newOrders (matchedNewOrders c)).
    { apply list_elem_of_filter. split; [apply HM, list_elem_of_here | exact Hslot]. }
    destruct (sameQuote_zero snd e.2 p maxPriceDeviation maxSizeDeviation)
      as (Hel & t & Ht & Ht0);
      [exact Hsame | unfold maxPriceDeviation; lra | unfold maxSizeDeviation; lra |].
    destruct (findMatchingOrder_eligible e.2 _ p Hpin Hel) as (b & Hfind & Hbin & Hbel & Hle).
    apply list_elem_of_filter in Hbin as [Hbm Hbslot].
    assert (Hsb : sameQuote e.2 b.2).
    { rewrite Ht in Hle. destruct (totalDeviation snd e.2 b) as [tb | |] eqn:Eb;
        cbn in Hle; try discriminate.
      apply leb_le in Hle.
      apply (zero_deviation_sameQuote snd e.2 b _ _ tb Hbel Eb). lra. }
    rewrite (keep_step rnd ratio newOrders c e b Hratio Hdraw Hfind).
    destruct (IH ((fun x : nat * Order => if decide (x.1 = b.1) then p else x) <$> ps')
                {| matchedNewOrders := matchedNewOrders c ∪ {[ b.1 ]};
                   ordersToKeep := ordersToKeep c ++ [e];
                   ordersToCancel := ordersToCancel c;
                   nextDraw := S (nextDraw c) |}) as [HK HC].
    + apply Forall2_fmap_r. eapply Forall2_impl; [exact HF' |].
      intros e1 x [Hsq Hx]. cbn. destruct (decide (x.1 = b.1)) as [E |]; [| split; assumption].
      assert (x = b) by (apply (slots_inj newOrders); assumption). subst x.
      split; [| exact Hslot].
      eapply sameQuote_trans; [exact Hsq |].
      eapply sameQuote_trans; [apply sameQuote_sym; exact Hsb | exact Hsame].
    + assert (E : ((fun x : nat * Order => if decide (x.1 = b.1) then p else x) <$> ps').*1
                  = (fun i : nat => if decide (i = b.1) then p.1 else i) <$> ps'.*1).
      { rewrite <- !list_fmap_compose. apply list_fmap_ext. intros i x _. cbn.
        destruct (decide (x.1 = b.1)); reflexivity. }
      rewrite E. apply NoDup_fmap_2_strong; [| exact Hnd].
      intros x y Hx Hy. destruct (decide (x = b.1)), (decide (y = b.1)); intros Exy;
        congruence.
    + intros x Hx. apply list_elem_of_fmap in Hx as (y & -> & Hy).
      cbn [matchedNewOrders]. rewrite not_elem_of_union, not_elem_of_singleton.
      assert (Hy1 : y.1 ∈ ps'.*1).
      { apply list_elem_of_fmap. exists y. split; [reflexivity | exact Hy]. }
      destruct (decide (y.1 = b.1)) as [E | NE].
      * split; [apply HM, list_elem_of_here |].
        intros E'. apply Hp. rewrite E', <- E. exact Hy1.
      * split; [apply HM, list_elem_of_further, Hy | exact NE].
    + cbn [ordersToKeep ordersToCancel] in HK, HC. rewrite HK, HC, <- app_assoc.
      split; reflexivity.
Qed.

(** The first pass when every remaining resting order has, among the
    unclaimed desired orders, one that is strictly closest to it: that is
    the one it claims. *)
Lemma classify_closest (rnd : nat -> Q) (ratio : Q) (newOrders : list Order) :
  ratio == 0 -> (forall k, 0 < rnd k) ->
  forall (l : RestingMap) (ps : list (nat * Order)) (c : Classification),
    Forall2 (fun (e : string * Order) (x : nat * Order) =>
               (eligible snd e.2 maxPriceDeviation maxSizeDeviation x = true
                /\ forall d : nat * Order,
                     d ∈ slots newOrders -> d <> x ->
                     eligible snd e.2 maxPriceDeviation maxSizeDeviation d = true ->
                     Js.xltb (totalDeviation snd e.2 x) (totalDeviation snd e.2 d) = true)
               /\ x ∈ slots newOrders) l ps ->
    NoDup ps.*1 ->
    (forall x, x ∈ ps -> x.1 ∉ matchedNewOrders c) ->
    ordersToKeep (foldl (classifyStep rnd ratio newOrders) c l) = ordersToKeep c ++ l
    /\ ordersToCancel (foldl (classifyStep rnd ratio newOrders) c l) = ordersToCancel c.
Proof.
  intros Hratio Hdraw. induction l as [| e l IH]; intros ps c HF Hnd HM.
  - cbn. rewrite app_nil_r. split; reflexivity.
  - inversion HF as [| e' p l' ps' [[Hel Hbest] Hslot] HF']; subst. cbn [foldl].
    rewrite fmap_cons in Hnd. apply NoDup_cons in Hnd as [Hp Hnd].
    assert (Hpin : p ∈ unmatched newOrders (matchedNewOrders c)).
    { apply list_elem_of_filter. split; [apply HM, list_elem_of_here | exact Hslot]. }
    destruct (findMatchingOrder_eligible e.2 _ p Hpin Hel) as (b & Hfind & Hbin & Hbel & Hle).
    apply list_elem_of_filter in Hbin as [Hbm Hbslot].
    assert (b = p).
    { destruct (decide (b.1 = p.1)) as [E | NE];
        [apply (slots_inj newOrders); assumption |].
      exfalso. apply (xltb_xleb_false _ _ (Hbest b Hbslot ltac:(congruence) Hbel) Hle). }
    subst b. rewrite (keep_step rnd ratio newOrders c e p Hratio Hdraw Hfind).
    destruct (IH ps'
                {| matchedNewOrders := matchedNewOrders c ∪ {[ p.1 ]};
                   ordersToKeep := ordersToKeep c ++ [e];
                   ordersToCancel := ordersToCancel c;
                   nextDraw := S (nextDraw c) |} HF' Hnd) as [HK HC].
    + intros x Hx. cbn [matchedNewOrders].
      rewrite not_elem_of_union, not_elem_of_singleton.
      split; [apply HM, list_elem_of_further, Hx |].
      intros E. apply Hp. rewrite <- E. apply list_elem_of_fmap. exists x.
      split; [reflexivity | exact Hx].
    + cbn [ordersToKeep ordersToCancel] in HK, HC. rewrite HK, HC, <- app_assoc.
      split; reflexivity.
Qed.

Lemma manageOrdersAsync_eq (cfg : PairConfig) (venue : Venue) (rnd : nat -> Q) (n : nat)
    (during : nat -> RestingMap -> RestingMap) (m : RestingMap) (newOrders : list Order) :
  let c := classify rnd n (nullish (cancelReplaceRatio (marketMaker cfg)) 0) newOrders m in
  let cs := cancelStepAsync venue during (ordersToCancel c) m in
  let ps := foldl (placeStepAsync venue during) (cs, 0%nat)
              (unmatched newOrders (matchedNewOrders c)) in
  manageOrdersAsync cfg venue rnd n during m newOrders
  = {| resting := ps.1.1; calls := ps.1.2; kept := ordersToKeep c;
       cancelled := ordersToCancel c;
       toPlace := unmatched newOrders (matchedNewOrders c);
       drawsAfter := nextDraw c |}.
Proof.
  cbv zeta. unfold manageOrdersAsync.
  destruct (cancelStepAsync venue during _ m) as [m1 calls1].
  destruct (foldl (placeStepAsync venue during) (m1, calls1, 0%nat) _) as [[m2 calls2] j].
  reflexivity.
Qed.

(** A pairing of the resting orders with all the desired orders, each
    resting order being kept: the cycle has nothing to cancel and nothing
    to place. *)
Lemma all_kept_no_request (cfg : PairConfig) (venue : Venue) (rnd : nat -> Q) (n : nat)
    (during : nat -> RestingMap -> RestingMap) (m : RestingMap) (newOrders : list Order) :
  length m = length newOrders ->
  ordersToKeep (classify rnd n (nullish (cancelReplaceRatio (marketMaker cfg)) 0)
                  newOrders m) = m ->
  ordersToCancel (classify rnd n (nullish (cancelReplaceRatio (marketMaker cfg)) 0)
                    newOrders m) = [] ->
  calls (manageOrdersAsync cfg venue rnd n during m newOrders) = []
  /\ cancelled (manageOrdersAsync cfg venue rnd n during m newOrders) = []
  /\ toPlace (manageOrdersAsync cfg venue rnd n during m newOrders) = []
  /\ kept (manageOrdersAsync cfg venue rnd n during m newOrders) = m
  /\ resting (manageOrdersAsync cfg venue rnd n during m newOrders) = m.
Proof.
  intros Hlen HK HC. rewrite manageOrdersAsync_eq. cbv zeta.
  cbn [resting calls kept cancelled toPlace].
  destruct (classify_counts rnd (nullish (cancelReplaceRatio (marketMaker cfg)) 0)
              newOrders m
              {| matchedNewOrders := ∅; ordersToKeep := []; ordersToCancel := [];
                 nextDraw := n |}) as (Hcount & _).
  fold (classify rnd n (nullish (cancelReplaceRatio (marketMaker cfg)) 0) newOrders m)
    in Hcount.
  cbn [matchedNewOrders ordersToKeep length] in Hcount.
  rewrite HK, unmatched_empty, slots_length in Hcount.
  assert (Hun : unmatched newOrders
                  (matchedNewOrders
                     (classify rnd n (nullish (cancelReplaceRatio (marketMaker cfg)) 0)
                        newOrders m)) = []).
  { apply nil_length_inv. lia. }
  rewrite Hun, HC, HK. cbn. auto.
Qed.

(** C2 (amended).  In the first pass of a cycle, for a resting order for
    which a match is found among the unclaimed desired orders: with
    cancelReplaceRatio = 0 it is marked keep, and the match is claimed,
    whenever the draw of [Math.random()] is not 0; with cancelReplaceRatio =
    1 it is marked cancel (every draw is below 1).  And with
    cancelReplaceRatio = 0 and no draw equal to 0, the cycle sends no
    cancel and no placement, keeps every resting order and leaves the map
    as it is, whenever the desired orders are the resting orders again, in
    any order (same side, kind, non-zero price and size), or repeat them
    within tolerance in such a way that each resting order has a desired
    order of its own that is strictly closest to it among the desired
    orders eligible for it. *)
Theorem C2_cancel_replace_ratio :
  (forall (rnd : nat -> Q) (ratio : Q) (newOrders : list Order) (c : Classification)
          (entry : string * Order) (r : nat * Order),
     findMatchingOrder snd entry.2 (unmatched newOrders (matchedNewOrders c))
       maxPriceDeviation maxSizeDeviation = Some r ->
     (ratio == 0 -> 0 < rnd (nextDraw c) ->
      classifyStep rnd ratio newOrders c entry
      = {| matchedNewOrders := matchedNewOrders c ∪ {[ r.1 ]};
           ordersToKeep := ordersToKeep c ++ [entry];
           ordersToCancel := ordersToCancel c;
           nextDraw := S (nextDraw c) |})
     /\ (ratio == 1 -> rnd (nextDraw c) < 1 ->
         classifyStep rnd ratio newOrders c entry
         = {| matchedNewOrders := matchedNewOrders c;
              ordersToKeep := ordersToKeep c;
              ordersToCancel := ordersToCancel c ++ [entry];
              nextDraw := S (nextDraw c) |}))
  /\ (forall (cfg : PairConfig) (venue : Venue) (rnd : nat -> Q) (n : nat)
             (during : nat -> RestingMap -> RestingMap) (m : RestingMap) (newOrders : list Order),
        nullish (cancelReplaceRatio (marketMaker cfg)) 0 == 0 ->
        (forall k, 0 < rnd k) ->
        exactRepeat m newOrders \/ closestRepeat m newOrders ->
        let res := manageOrdersAsync cfg venue rnd n during m newOrders in
        calls res = [] /\ cancelled res = [] /\ toPlace res = []
        /\ kept res = m /\ resting res = m).
Proof.
  split.
  - intros rnd ratio newOrders c entry r Hfind. unfold classifyStep. rewrite Hfind.
    unfold Js.gtb. split; intros Hratio Hdraw.
    + rewrite (proj2 (ltb_lt ratio (rnd (nextDraw c)))) by (rewrite Hratio; exact Hdraw).
      reflexivity.
    + rewrite (proj2 (ltb_ge ratio (rnd (nextDraw c)))) by (rewrite Hratio; lra).
      reflexivity.
  - intros cfg venue rnd n during m newOrders Hratio Hdraw Hrep. cbv zeta.
    assert (Hpair : forall ps : list (nat * Order),
              ps ≡ₚ slots newOrders ->
              NoDup ps.*1 /\ Forall (fun x => x ∈ slots newOrders) ps
              /\ length ps = length newOrders).
    { intros ps Hperm. split; [| split].
      - rewrite Hperm. unfold slots. rewrite slotsFrom_fst. apply NoDup_seq.
      - apply Forall_forall. intros x Hx. rewrite <- Hperm. exact Hx.
      - rewrite Hperm. apply slots_length. }
    assert (Hcl : length m = length newOrders
                  /\ ordersToKeep
                       (classify rnd n (nullish (cancelReplaceRatio (marketMaker cfg)) 0)
                          newOrders m) = m
                  /\ ordersToCancel
                       (classify rnd n (nullish (cancelReplaceRatio (marketMaker cfg)) 0)
                          newOrders m) = []).
    { destruct Hrep as [(ps & Hperm & HF) | (ps & Hperm & HF)];
        destruct (Hpair ps Hperm) as (Hnd & Hin & Hlen).
      - split; [rewrite <- Hlen; exact (Forall2_length _ _ _ HF) |].
        apply (classify_exact rnd _ newOrders Hratio Hdraw m ps
                 {| matchedNewOrders := ∅; ordersToKeep := []; ordersToCancel := [];
                    nextDraw := n |});
          [apply Forall2_with_r; assumption | exact Hnd |].
        intros x _. apply not_elem_of_empty.
      - split; [rewrite <- Hlen; exact (Forall2_length _ _ _ HF) |].
        apply (classify_closest rnd _ newOrders Hratio Hdraw m ps
                 {| matchedNewOrders := ∅; ordersToKeep := []; ordersToCancel := [];
                    nextDraw := n |});
          [apply Forall2_with_r; assumption | exact Hnd |].
        intros x _. apply not_elem_of_empty. }
    destruct Hcl as (Hlen & HK & HC).
    apply all_kept_no_request; assumption.
Qed.
(** The scenario of the specification, kept at ratio 0 and cancelled at
    ratio 1; a two-order ladder repeated exactly with its orders exchanged;
    and a one-order ladder repeated within tolerance. *)
Lemma C2_witness :
  let e := restingOrder "id-1" bid 100 1 in
  let d := sampleOrder bid limit (Some (1000005 # 10000)) (102 # 100) in
  let c0 := {| matchedNewOrders := ∅; ordersToKeep := []; ordersToCancel := [];
               nextDraw := 0 |} in
  let m := [restingOrder "id-1" bid 100 1; restingOrder "id-2" ask 101 1] in
  let newOrders := [sampleOrder ask limit (Some 101) 1; sampleOrder bid limit (Some 100) 1] in
  findMatchingOrder snd e.2 (unmatched [d] ∅) maxPriceDeviation maxSizeDeviation
  = Some (0%nat, d)
  /\ ordersToKeep (classifyStep (constDraws (1 # 2)) 0 [d] c0 e) = [e]
  /\ ordersToCancel (classifyStep (constDraws (1 # 2)) 1 [d] c0 e) = [e]
  /\ exactRepeat m newOrders
  /\ calls (manageOrdersAsync (sampleConfig 0) (sampleVenue true 0 "id-9")
              (constDraws (1 # 2)) 0 (fun _ m0 => m0) m newOrders) = []
  /\ closestRepeat [e] [d]
  /\ calls (manageOrdersAsync (sampleConfig 0) (sampleVenue true 0 "id-9")
              (constDraws (1 # 2)) 0 (fun _ m0 => m0) [e] [d]) = [].
Proof.
  cbv zeta.
  assert (Hfind : findMatchingOrder snd (restingOrder "id-1" bid 100 1).2
                    (unmatched [sampleOrder bid limit (Some (1000005 # 10000)) (102 # 100)] ∅)
                    maxPriceDeviation maxSizeDeviation
                  = Some (0%nat, sampleOrder bid limit (Some (1000005 # 10000)) (102 # 100)))
    by (vm_compute; reflexivity).
  assert (Hrep : exactRepeat
                   [restingOrder "id-1" bid 100 1; restingOrder "id-2" ask 101 1]
                   [sampleOrder ask limit (Some 101) 1; sampleOrder bid limit (Some 100) 1]).
  { exists [(1%nat, sampleOrder bid limit (Some 100) 1);
            (0%nat, sampleOrder ask limit (Some 101) 1)].
    split; [apply perm_swap |].
    constructor; [| constructor; [| constructor]]; cbn; repeat split.
    - exists 100, 100. repeat split. discriminate.
    - discriminate.
    - exists 101, 101. repeat split. discriminate.
    - discriminate. }
  assert (Hclose : closestRepeat [restingOrder "id-1" bid 100 1]
                     [sampleOrder bid limit (Some (1000005 # 10000)) (102 # 100)]).
  { exists [(0%nat, sampleOrder bid limit (Some (1000005 # 10000)) (102 # 100))].
    split; [reflexivity |]. constructor; [| constructor].
    split; [vm_compute; reflexivity |].
    intros d Hd Hne. apply list_elem_of_singleton in Hd. contradiction. }
  destruct C2_cancel_replace_ratio as [Hstep Hexact].
  destruct (Hstep (constDraws (1 # 2)) 0
              [sampleOrder bid limit (Some (1000005 # 10000)) (102 # 100)]
              {| matchedNewOrders := ∅; ordersToKeep := []; ordersToCancel := [];
                 nextDraw := 0 |}
              (restingOrder "id-1" bid 100 1)
              (0%nat, sampleOrder bid limit (Some (1000005 # 10000)) (102 # 100))
              Hfind) as [Hkeep _].
  destruct (Hstep (constDraws (1 # 2)) 1
              [sampleOrder bid limit (Some (1000005 # 10000)) (102 # 100)]
              {| matchedNewOrders := ∅; ordersToKeep := []; ordersToCancel := [];
                 nextDraw := 0 |}
              (restingOrder "id-1" bid 100 1)
              (0%nat, sampleOrder bid limit (Some (1000005 # 10000)) (102 # 100))
              Hfind) as [_ Hcancel].
  split; [exact Hfind |].
  split; [rewrite Hkeep; [reflexivity | reflexivity | reflexivity] |].
  split; [rewrite Hcancel; [reflexivity | reflexivity | reflexivity] |].
  split; [exact Hrep |].
  split; [apply (Hexact (sampleConfig 0) (sampleVenue true 0 "id-9") (constDraws (1 # 2))
                   0%nat (fun _ m0 => m0) _ _ (Qeq_refl 0) (fun _ => eq_refl)
                   (or_introl Hrep)) |].
  split; [exact Hclose |].
  apply (Hexact (sampleConfig 0) (sampleVenue true 0 "id-9") (constDraws (1 # 2)) 0%nat
           (fun _ m0 => m0) _ _ (Qeq_refl 0) (fun _ => eq_refl) (or_intror Hclose)).
Defined.

(** C2 as stated fails.  With cancelReplaceRatio = 0 a matched resting
    order is still marked cancel when [Math.random()] returns 0 (the test
    is [Math.random() > cancelReplaceRatio]).  A repeat within tolerance is
    not stable: the resting bids 100 and 99.95 against the desired bids
    100.1 and 100.04 (each within 0.1% of the order of its slot) have the
    first resting bid claim the second desired one, so that the second
    resting bid is cancelled and the first desired bid placed.  And an
    exact repeat of a resting order whose price is 0 is no match at all:
    the order is cancelled and placed again. *)
Lemma C2_counterexample :
  let e := restingOrder "id-1" bid 100 1 in
  let d := sampleOrder bid limit (Some 100) 1 in
  let c0 := {| matchedNewOrders := ∅; ordersToKeep := []; ordersToCancel := [];
               nextDraw := 0 |} in
  let m := [restingOrder "id-1" bid 100 1; restingOrder "id-2" bid (9995 # 100) 1] in
  let newOrders := [sampleOrder bid limit (Some (1001 # 10)) 1;
                    sampleOrder bid limit (Some (10004 # 100)) 1] in
  (findMatchingOrder snd e.2 (unmatched [d] ∅) maxPriceDeviation maxSizeDeviation
   = Some (0%nat, d)
   /\ ordersToKeep (classifyStep (constDraws 0) 0 [d] c0 e) = []
   /\ ordersToCancel (classifyStep (constDraws 0) 0 [d] c0 e) = [e])
  /\ (toleranceRepeat m newOrders
      /\ calls (manageOrders (sampleConfig 0) (sampleVenue true 0 "id-3")
                  (constDraws (1 # 2)) 0 m newOrders)
         = [CallCancelOrders ["id-2"];
            CallSubmitOrder 0 (sampleOrder bid limit (Some (1001 # 10)) 1)])
  /\ calls (manageOrders (sampleConfig 0) (sampleVenue true 0 "id-3")
              (constDraws (1 # 2)) 0 [restingOrder "id-1" bid 0 1]
              [sampleOrder bid limit (Some 0) 1])
     = [CallCancelOrders ["id-1"];
        CallSubmitOrder 0 (sampleOrder bid limit (Some 0) 1)].
Proof.
  cbv zeta. split; [repeat split; vm_compute; reflexivity |].
  split; [| vm_compute; reflexivity].
  split; [| vm_compute; reflexivity].
  repeat constructor; vm_compute; reflexivity.
Qed.
End Repeat.

Section ReconcileInvariant.
Import MarketMakerBot.

Lemma classify_nil (rnd : nat -> Q) (ratio : Q) (l : RestingMap) :
  forall c : Classification,
    foldl (classifyStep rnd ratio []) c l
    = {| matchedNewOrders := matchedNewOrders c; ordersToKeep := ordersToKeep c;
         ordersToCancel := ordersToCancel c ++ l; nextDraw := nextDraw c |}.
Proof.
  induction l as [| e l IH]; intros c; cbn [foldl].
  - rewrite app_nil_r. destruct c; reflexivity.
  - rewrite IH. unfold classifyStep, unmatched, slots. cbn.
    rewrite <- app_assoc. reflexivity.
Qed.

(** X11.  With no desired order (every size rounded to zero, or no
    positive bid price): nothing is kept or placed, [Math.random()] is not
    called, and every resting order is marked for cancel; a well-formed
    map is emptied when the batch cancel resolves and left as it is when
    the cancel fails. *)
Theorem X11_empty_ladder_cancels_all (cfg : PairConfig) (venue : Venue)
    (rnd : nat -> Q) (n : nat) (m : RestingMap) :
  kept (manageOrders cfg venue rnd n m []) = []
  /\ cancelled (manageOrders cfg venue rnd n m []) = m
  /\ toPlace (manageOrders cfg venue rnd n m []) = []
  /\ drawsAfter (manageOrders cfg venue rnd n m []) = n
  /\ (wf_resting m ->
      resting (manageOrders cfg venue rnd n m [])
      = (if cancelOrders venue m.*1 then [] else m)
      /\ calls (manageOrders cfg venue rnd n m [])
         = match m with [] => [] | _ => [CallCancelOrders m.*1] end).
Proof.
  rewrite manageOrders_eq. cbv zeta. cbn [kept cancelled toPlace drawsAfter resting calls].
  unfold classify. rewrite classify_nil.
  cbn [matchedNewOrders ordersToKeep ordersToCancel nextDraw app].
  assert (Eu : unmatched [] ∅ = []) by reflexivity. rewrite Eu. cbn [foldl].
  split; [reflexivity |]. split; [reflexivity |]. split; [reflexivity |].
  split; [reflexivity |]. intros Hwf.
  assert (HP : Partition m [] m).
  { clear. induction m as [| e l IH]; constructor. exact IH. }
  exact (cancelStep_resting venue m [] m Hwf HP).
Qed.

Lemma X11_witness :
  wf_resting [restingOrder "id-1" bid 100 1]
  /\ cancelled (manageOrders (sampleConfig 0) (sampleVenue true 0 "id-2")
                  (constDraws (1 # 2)) 0 [restingOrder "id-1" bid 100 1] [])
     = [restingOrder "id-1" bid 100 1]
  /\ resting (manageOrders (sampleConfig 0) (sampleVenue true 0 "id-2")
                (constDraws (1 # 2)) 0 [restingOrder "id-1" bid 100 1] []) = [].
Proof.
  assert (Hwf : wf_resting [restingOrder "id-1" bid 100 1]).
  { split.
    - cbn. apply NoDup_singleton.
    - repeat constructor. }
  destruct (X11_empty_ladder_cancels_all (sampleConfig 0) (sampleVenue true 0 "id-2")
              (constDraws (1 # 2)) 0 [restingOrder "id-1" bid 100 1])
    as (_ & Hc & _ & _ & Hr).
  split; [exact Hwf |]. split; [exact Hc |]. exact (proj1 (Hr Hwf)).
Defined.

Lemma wf_resting_filter (P : string * Order -> Prop) `{!forall x, Decision (P x)}
    (m : RestingMap) :
  wf_resting m -> wf_resting (filter P m).
Proof.
  intros [Hnd Hall]. split.
  - apply (sublist_NoDup _ m.*1); [exact Hnd |]. apply fmap_sublist, sublist_filter.
  - apply Forall_forall. intros e He. apply list_elem_of_filter in He as [_ He].
    rewrite Forall_forall in Hall. exact (Hall e He).
Qed.

Lemma removeCanceled_wf (m : RestingMap) (e : string * Order) :
  wf_resting m -> wf_resting (removeCanceled m e).
Proof.
  intros Hwf. unfold removeCanceled.
  destruct (find _ m) as [[orderId o] |]; [| exact Hwf].
  destruct (Js.truthy_str orderId); [| exact Hwf].
  unfold map_delete. apply wf_resting_filter. exact Hwf.
Qed.

Lemma cancelStep_wf (venue : Venue) (C : list (string * Order)) (m : RestingMap) :
  wf_resting m -> wf_resting (cancelStep venue C m).1.
Proof.
  intros Hwf. unfold cancelStep. destruct C as [| e C]; [exact Hwf |].
  destruct (omap _ (e :: C)) as [| i ids]; [exact Hwf |].
  destruct (cancelOrders venue (i :: ids)); [| exact Hwf].
  cbn [fst]. generalize (e :: C). intros l. revert m Hwf.
  induction l as [| x l IH]; intros m Hwf; cbn [foldl]; [exact Hwf |].
  apply IH. apply removeCanceled_wf. exact Hwf.
Qed.

Lemma map_set_wf (k : string) (o : Order) (m : RestingMap) :
  Js.truthy_str k = true -> wf_resting m -> wf_resting (map_set k (finalOrder o k) m).
Proof.
  intros Hk [Hnd Hall]. unfold map_set, map_has.
  destruct (bool_decide (k ∈ m.*1)) eqn:E.
  - split.
    + assert (Ek : ((fun e : string * Order =>
                       if bool_decide (e.1 = k) then (k, finalOrder o k) else e) <$> m).*1
                   = m.*1).
      { rewrite <- list_fmap_compose. apply list_fmap_ext. intros i x _. cbn.
        destruct (bool_decide (x.1 = k)) eqn:Ex; [| reflexivity].
        apply bool_decide_eq_true in Ex. cbn. symmetry. exact Ex. }
      rewrite Ek. exact Hnd.
    + apply Forall_fmap. eapply Forall_impl; [exact Hall |].
      intros x Hx. cbn. destruct (bool_decide (x.1 = k)); [| exact Hx].
      cbn. split; [reflexivity | exact Hk].
  - apply bool_decide_eq_false in E. split.
    + rewrite fmap_app. cbn. apply NoDup_app. split; [exact Hnd |].
      split; [| apply NoDup_singleton].
      intros x Hx Hx'. apply list_elem_of_singleton in Hx'. subst x. exact (E Hx).
    + apply Forall_app. split; [exact Hall |]. repeat constructor. exact Hk.
Qed.

Lemma placeStep_wf (venue : Venue) (acc : RestingMap * list VenueCall) (r : nat * Order) :
  wf_resting acc.1 -> wf_resting (placeStep venue acc r).1.
Proof.
  intros Hwf. unfold placeStep.
  destruct (submitOrder venue r.1) as [| [| orderId ids]]; try exact Hwf.
  destruct (Js.truthy_str orderId) eqn:Et; [| exact Hwf].
  cbn [fst]. apply map_set_wf; assumption.
Qed.

(** One reconcile cycle keeps the map well formed, whatever the venue
    answers (also when it returns an id the map already holds). *)
Lemma manageOrders_wf (cfg : PairConfig) (venue : Venue) (rnd : nat -> Q) (n : nat)
    (m : RestingMap) (newOrders : list Order) :
  wf_resting m -> wf_resting (resting (manageOrders cfg venue rnd n m newOrders)).
Proof.
  intros Hwf. rewrite manageOrders_eq. cbv zeta. cbn [resting].
  pose proof (cancelStep_wf venue
                (ordersToCancel
                   (classify rnd n (nullish (cancelReplaceRatio (marketMaker cfg)) 0)
                      newOrders m)) m Hwf) as H1.
  revert H1. generalize (cancelStep venue
                (ordersToCancel
                   (classify rnd n (nullish (cancelReplaceRatio (marketMaker cfg)) 0)
                      newOrders m)) m).
  generalize (unmatched newOrders
                (matchedNewOrders
                   (classify rnd n (nullish (cancelReplaceRatio (marketMaker cfg)) 0)
                      newOrders m))).
  intros l. induction l as [| r l IH]; intros acc Hacc; cbn [foldl]; [exact Hacc |].
  apply IH. apply placeStep_wf. exact Hacc.
Qed.
End ReconcileInvariant.

Section AgentInvariant.
Import BaseBot.

Lemma scheduleNextRun_data (a : Agent) :
  kind (scheduleNextRun a) = kind a
  /\ config (scheduleNextRun a) = config a
  /\ activeMakerOrders (scheduleNextRun a) = activeMakerOrders a
  /\ recentPrices (scheduleNextRun a) = recentPrices a
  /\ inFlight (scheduleNextRun a) = inFlight a
  /\ isRunning (scheduleNextRun a) = isRunning a.
Proof.
  unfold scheduleNextRun. destruct (isRunning a) eqn:E; cbn; rewrite ?E; repeat split.
Qed.

(** X12.  In every state an agent can reach, whatever the venue answered
    along the way, the map of resting orders is well formed: its keys are
    pairwise distinct and every order is stored under its own non-empty
    id.  A taker never holds a resting order. *)
Theorem X12_resting_map_well_formed (a : Agent) :
  reachable a ->
  wf_resting (activeMakerOrders a)
  /\ (kind a = Taker -> activeMakerOrders a = []).
Proof.
  induction 1 as [k p cfg | a e a' o _ [IHwf IHt] Hstep].
  - split; [apply wf_resting_nil | reflexivity].
  - destruct e as [| | h | i]; cbn [step] in Hstep.
    + injection Hstep as <- _. unfold start. destruct (isRunning a); [split; assumption |].
      match goal with |- context [scheduleNextRun ?x] =>
        destruct (scheduleNextRun_data x) as (Ek & _ & Eo & _) end.
      rewrite Ek, Eo. split; assumption.
    + unfold stop in Hstep. destruct (kind a) eqn:Ek.
      * unfold MarketMakerBot.stopOrders in Hstep.
        destruct (activeMakerOrders a); injection Hstep as <- _; cbn;
          (split; [apply wf_resting_nil | reflexivity]).
      * injection Hstep as <- _. cbn. split; [exact IHwf | intros _; apply IHt; reflexivity].
    + destruct (bool_decide (h ∈ armed a)); [| discriminate].
      injection Hstep as <- _. split; assumption.
    + destruct (inFlight a) as [| k]; [discriminate |].
      destruct (runBody a i) as [[[orders prices] sent] early] eqn:Eb.
      injection Hstep as <- _.
      assert (Hb : wf_resting orders /\ (kind a = Taker -> orders = [])).
      { unfold runBody in Eb. destruct (kind a) eqn:Ek.
        - destruct (MarketMakerBot.generateOrders _ _ _ _ _ _) as [| | newOrders n].
          + injection Eb as <- _ _ _. split; [exact IHwf | discriminate].
          + injection Eb as <- _ _ _. split; [exact IHwf | discriminate].
          + injection Eb as <- _ _ _. split; [| discriminate].
            apply manageOrders_wf. exact IHwf.
        - assert (Eo : orders = activeMakerOrders a).
          { destruct (ci_ticker i) as [[sym ts [tb |] [ta |] [tl |]] |];
              injection Eb as <- _ _ _; reflexivity. }
          rewrite Eo. split; [exact IHwf | intros _; apply IHt; reflexivity]. }
      match goal with |- context [scheduleNextRun (if early then scheduleNextRun ?x else ?x)] =>
        set (a1 := x) end.
      assert (E2 : kind (scheduleNextRun (if early then scheduleNextRun a1 else a1)) = kind a
                   /\ activeMakerOrders
                        (scheduleNextRun (if early then scheduleNextRun a1 else a1)) = orders).
      { destruct (scheduleNextRun_data (if early then scheduleNextRun a1 else a1))
          as (E1 & _ & E3 & _).
        rewrite E1, E3. destruct early.
        - destruct (scheduleNextRun_data a1) as (E4 & _ & E5 & _). rewrite E4, E5.
          split; reflexivity.
        - split; reflexivity. }
      destruct E2 as [-> ->]. exact Hb.
Qed.
End AgentInvariant.

Lemma X12_witness :
  BaseBot.reachable
    (agentAfter Maker [BaseBot.EStart; BaseBot.ETimerFires 0; BaseBot.ERunReturns sampleInput])
  /\ wf_resting
       (BaseBot.activeMakerOrders
          (agentAfter Maker [BaseBot.EStart; BaseBot.ETimerFires 0;
                             BaseBot.ERunReturns sampleInput]))
  /\ (BaseBot.activeMakerOrders
        (agentAfter Maker [BaseBot.EStart; BaseBot.ETimerFires 0;
                           BaseBot.ERunReturns sampleInput])).*1 = ["id-1"].
Proof.
  assert (Hreach : BaseBot.reachable
            (agentAfter Maker [BaseBot.EStart; BaseBot.ETimerFires 0;
                               BaseBot.ERunReturns sampleInput])).
  { unfold agentAfter.
    destruct (BaseBot.exec (BaseBot.newAgent Maker samplePair (sampleConfig 0))
                [BaseBot.EStart; BaseBot.ETimerFires 0; BaseBot.ERunReturns sampleInput])
      as [[a o] |] eqn:E.
    - eapply exec_reachable; [apply BaseBot.reach_new | exact E].
    - apply BaseBot.reach_new. }
  split; [exact Hreach |].
  split; [exact (proj1 (X12_resting_map_well_formed _ Hreach)) |].
  vm_compute. reflexivity.
Defined.

(** ** The ladder of one cycle *)

Section Ladder.
Import MarketMakerBot.
Variables (rnd : nat -> Q) (sym : string) (now : Z) (depth : nat).
Variables (tb ta base srf : Q).

Lemma ladderStep_quotes (acc : list Order * nat) (i : nat) :
  (i < depth)%nat ->
  Forall (ladderQuote sym depth tb ta) acc.1 ->
  let r := ladderStep rnd sym now tb ta ((ta - tb) / 2) base srf acc i in
  Forall (ladderQuote sym depth tb ta) r.1
  /\ (length r.1 <= length acc.1 + 2)%nat
  /\ (acc.2 <= r.2)%nat /\ (r.2 <= acc.2 + 2)%nat.
Proof.
  intros Hi Hacc. destruct acc as [os n]. cbn [fst snd] in *.
  unfold ladderStep. cbv zeta.
  destruct (Js.leb _ 0) eqn:Eb; cbn [fst snd]; [repeat split; [exact Hacc | lia ..] |].
  set (bidSize := roundToDecimalPlaces (applyVariance (rnd n) _ srf) 8).
  set (askSize := roundToDecimalPlaces (applyVariance (rnd (S n)) _ srf) 8).
  assert (H1 : Forall (ladderQuote sym depth tb ta)
                 (if Js.gtb bidSize 0
                  then os ++ [{| pair := sym; side := bid; type := limit;
                                 price := Some (roundToDecimalPlaces
                                                  (tb - inject_Z (Z.of_nat i) * ((ta - tb) / 2)
                                                        * (1 + inject_Z (Z.of_nat i) * (1 # 10))) 5);
                                 size := bidSize; timestamp := now;
                                 level := Some (i + 1)%nat; id := None; status := None |}]
                  else os)).
  { destruct (Js.gtb bidSize 0) eqn:Es; [| exact Hacc].
    apply Forall_app. split; [exact Hacc |]. constructor; [| constructor].
    unfold ladderQuote. cbn. repeat split.
    - apply ltb_lt. exact Es.
    - exists i. split; [exact Hi |]. split; [reflexivity |]. left. split; reflexivity. }
  destruct (Js.gtb askSize 0) eqn:Ea.
  - split; [| split; [| split]].
    + apply Forall_app. split; [exact H1 |]. constructor; [| constructor].
      unfold ladderQuote. cbn. repeat split.
      * apply ltb_lt. exact Ea.
      * exists i. split; [exact Hi |]. split; [reflexivity |]. right. split; reflexivity.
    + rewrite length_app. cbn [length]. destruct (Js.gtb bidSize 0);
        [rewrite length_app; cbn [length] |]; lia.
    + lia.
    + lia.
  - split; [exact H1 |]. split; [| lia].
    destruct (Js.gtb bidSize 0); [rewrite length_app; cbn [length] |]; lia.
Qed.

Lemma ladder_quotes (l : list nat) :
  forall acc : list Order * nat,
    (forall i, i ∈ l -> (i < depth)%nat) ->
    Forall (ladderQuote sym depth tb ta) acc.1 ->
    let r := foldl (ladderStep rnd sym now tb ta ((ta - tb) / 2) base srf) acc l in
    Forall (ladderQuote sym depth tb ta) r.1
    /\ (length r.1 <= length acc.1 + 2 * length l)%nat
    /\ (acc.2 <= r.2)%nat /\ (r.2 <= acc.2 + 2 * length l)%nat.
Proof.
  induction l as [| i l IH]; intros acc Hl Hacc; cbn [foldl length].
  - cbv zeta. repeat split; [exact Hacc | lia ..].
  - destruct (ladderStep_quotes acc i (Hl i (list_elem_of_here _ _)) Hacc)
      as (Q1 & Q2 & Q3 & Q4).
    destruct (IH _ (fun j Hj => Hl j (list_elem_of_further _ _ _ Hj)) Q1)
      as (R1 & R2 & R3 & R4).
    cbv zeta. repeat split; [exact R1 | lia ..].
Qed.
End Ladder.

Lemma ladder_prices_ordered (tb ta : Q) (i j : nat) :
  tb <= ta ->
  roundToDecimalPlaces (bidPriceAt tb ta i) 5 <= roundToDecimalPlaces (askPriceAt tb ta j) 5.
Proof.
  intros Hle. apply roundToDecimalPlaces_le. unfold bidPriceAt, askPriceAt.
  assert (Hi : 0 <= inject_Z (Z.of_nat i))
    by (change 0 with (inject_Z 0); rewrite <- Zle_Qle; lia).
  assert (Hj : 0 <= inject_Z (Z.of_nat j))
    by (change 0 with (inject_Z 0); rewrite <- Zle_Qle; lia).
  revert Hi Hj. generalize (inject_Z (Z.of_nat i)) (inject_Z (Z.of_nat j)).
  intros x y Hx Hy.
  assert (Hinc : 0 <= (ta - tb) / 2) by (apply Qle_shift_div_l; lra).
  revert Hinc. generalize ((ta - tb) / 2). intros inc Hinc.
  assert (H1 : 0 <= x * inc * (1 + x * (1 # 10))).
  { apply Qmult_le_0_compat; [apply Qmult_le_0_compat; assumption |].
    assert (0 <= x * (1 # 10)) by (apply Qmult_le_0_compat; lra). lra. }
  assert (H2 : 0 <= y * inc * (1 + y * (1 # 10))).
  { apply Qmult_le_0_compat; [apply Qmult_le_0_compat; assumption |].
    assert (0 <= y * (1 # 10)) by (apply Qmult_le_0_compat; lra). lra. }
  lra.
Qed.

Lemma generateOrders_ladder (p : TradingPair) (cfg : PairConfig) (now : Z)
    (rnd : nat -> Q) (n : nat) (ticker : option TickerData)
    (newOrders : list Order) (n' : nat) :
  MarketMakerBot.generateOrders p cfg now rnd n ticker
  = MarketMakerBot.Ladder newOrders n' ->
  exists tb ta : Q,
    tb < ta
    /\ Forall (ladderQuote (symbol p) (nullish (depthLevels (marketMaker cfg)) 1%nat) tb ta)
         newOrders
    /\ (length newOrders <= 2 * nullish (depthLevels (marketMaker cfg)) 1%nat)%nat
    /\ (n <= n')%nat
    /\ (n' <= n + 2 * nullish (depthLevels (marketMaker cfg)) 1%nat)%nat.
Proof.
  destruct ticker as [[tsym ts [tbid |] [task |] tlast] |]; try discriminate.
  unfold MarketMakerBot.generateOrders.
  destruct (MarketMakerBot.targetPrices cfg tbid task) as [[tb ta] |] eqn:Et;
    [| discriminate].
  cbv zeta.
  pose proof (targetPrices_uncrossed cfg tbid task tb ta Et) as Hlt.
  pose proof (ladder_quotes rnd (symbol p) now
                (nullish (depthLevels (marketMaker cfg)) 1%nat) tb ta
                (nullish (baseSizePerLevel (marketMaker cfg)) (1 # 10))
                (nullish (sizeRandomizationFactor (marketMaker cfg)) (1 # 10))
                (seq 0 (nullish (depthLevels (marketMaker cfg)) 1%nat)) ([], n)) as HL.
  cbv zeta in HL.
  destruct (foldl _ ([], n) (seq 0 _)) as [os k] eqn:Ef.
  cbn [fst snd length] in HL. rewrite length_seq in HL.
  destruct HL as (Q1 & Q2 & Q3 & Q4).
  { intros i Hi. apply elem_of_seq in Hi. lia. }
  { constructor. }
  intros [= <- <-]. exists tb, ta. repeat split; [exact Hlt | exact Q1 | lia ..].
Qed.

(** X13.  The quotes a maker cycle generates.  Every one is a limit order
    of the pair, without id, with a positive price and size and a level
    between 1 and [depthLevels]; there are at most two per level, and at
    most two draws of [Math.random()] per level; and no bid is priced above
    any ask of the same ladder (equal prices are possible). *)
Theorem X13_ladder_shape (p : TradingPair) (cfg : PairConfig) (now : Z)
    (rnd : nat -> Q) (n : nat) (ticker : option TickerData) :
  Forall (fun o : Order =>
            pair o = symbol p /\ type o = limit /\ id o = None /\ positiveQuote o
            /\ exists l : nat,
                 level o = Some l /\ (1 <= l)%nat
                 /\ (l <= nullish (depthLevels (marketMaker cfg)) 1%nat)%nat)
         (MarketMakerBot.emitted (MarketMakerBot.generateOrders p cfg now rnd n ticker))
  /\ (length (MarketMakerBot.emitted (MarketMakerBot.generateOrders p cfg now rnd n ticker))
      <= 2 * nullish (depthLevels (marketMaker cfg)) 1%nat)%nat
  /\ (forall (newOrders : list Order) (n' : nat),
        MarketMakerBot.generateOrders p cfg now rnd n ticker
        = MarketMakerBot.Ladder newOrders n' ->
        (n <= n')%nat /\ (n' <= n + 2 * nullish (depthLevels (marketMaker cfg)) 1%nat)%nat)
  /\ (forall (b a : Order) (pb pa : Q),
        b ∈ MarketMakerBot.emitted (MarketMakerBot.generateOrders p cfg now rnd n ticker) ->
        a ∈ MarketMakerBot.emitted (MarketMakerBot.generateOrders p cfg now rnd n ticker) ->
        side b = bid -> side a = ask -> price b = Some pb -> price a = Some pa ->
        pb <= pa).
Proof.
  pose proof (emitted_quotes_positive p cfg now rnd n ticker) as Hpos.
  pose proof (generateOrders_ladder p cfg now rnd n ticker) as HL.
  destruct (MarketMakerBot.generateOrders p cfg now rnd n ticker) as [| | newOrders n'];
    cbn [MarketMakerBot.emitted] in *.
  - split; [constructor |]. split; [cbn; lia |]. split; [discriminate |].
    intros b a pb pa Hb. inversion Hb.
  - split; [constructor |]. split; [cbn; lia |]. split; [discriminate |].
    intros b a pb pa Hb. inversion Hb.
  - destruct (HL newOrders n' eq_refl) as (tb & ta & Hlt & Q1 & Q2 & Q3 & Q4).
    rewrite Forall_forall in Q1, Hpos.
    split; [| split; [exact Q2 | split]].
    + apply Forall_forall. intros o Ho.
      destruct (Q1 o Ho) as (P1 & P2 & P3 & _ & _ & i & Hi & Hl & _).
      repeat split; try assumption; try apply (Hpos o Ho).
      exists (i + 1)%nat. split; [exact Hl |]. lia.
    + intros os k [= <- <-]. split; assumption.
    + intros b a pb pa Hb Ha Sb Sa Pb Pa.
      destruct (Q1 b Hb) as (_ & _ & _ & _ & _ & i & _ & _ & [[_ Eb] | [Eb _]]);
        [| congruence].
      destruct (Q1 a Ha) as (_ & _ & _ & _ & _ & j & _ & _ & [[Ea _] | [_ Ea]]);
        [congruence |].
      rewrite Pb in Eb. rewrite Pa in Ea. injection Eb as ->. injection Ea as ->.
      apply ladder_prices_ordered. lra.
Qed.

Lemma X13_witness :
  length (MarketMakerBot.emitted
            (MarketMakerBot.generateOrders samplePair (sampleConfig 0) 0
               (constDraws (1 # 2)) 0 (Some (sampleTicker 100 (1001 # 10) 100)))) = 2%nat
  /\ Forall (fun o : Order =>
               pair o = symbol samplePair /\ type o = limit /\ id o = None
               /\ positiveQuote o
               /\ exists l : nat,
                    level o = Some l /\ (1 <= l)%nat
                    /\ (l <= nullish (depthLevels (marketMaker (sampleConfig 0))) 1%nat)%nat)
            (MarketMakerBot.emitted
               (MarketMakerBot.generateOrders samplePair (sampleConfig 0) 0
                  (constDraws (1 # 2)) 0 (Some (sampleTicker 100 (1001 # 10) 100)))).
Proof.
  split; [vm_compute; reflexivity |].
  exact (proj1 (X13_ladder_shape samplePair (sampleConfig 0) 0 (constDraws (1 # 2)) 0
                  (Some (sampleTicker 100 (1001 # 10) 100)))).
Defined.





(** ** The taker *)

Section TakerMore.
Import MarketTakerBot.
Variables (cfg : MarketTakerConfig) (rnd : nat -> Q).

Lemma limitPricing_side_type (tbid task : Q) (d0 : Draft) :
  d_side (limitPricing rnd tbid task d0) = d_side d0
  /\ d_type (limitPricing rnd tbid task d0) = d_type d0
  /\ (d_type d0 = market -> d_price d0 = None ->
      d_price (limitPricing rnd tbid task d0) = None).
Proof.
  destruct d0 as [s t [q |] k]; unfold limitPricing; cbn [d_type d_price d_side d_next].
  - destruct t; cbn; repeat split; intros; discriminate.
  - destruct t; [destruct s |]; cbn; repeat split; intros; try discriminate; reflexivity.
Qed.

Lemma strategySwitch_market (n : nat) (recentPrices : list Q) (strategy : Strategy)
    (type0 : OrderType) (tbid task tlast : Q) (d : Draft) :
  strategySwitch cfg rnd n recentPrices strategy type0 tbid task tlast = Some d ->
  d_type d = market -> d_price d = None.
Proof.
  unfold strategySwitch. destruct strategy.
  - intros [= <-] _. reflexivity.
  - destruct (if bool_decide (2 <= length recentPrices)%nat then _ else None);
      intros [= <-] _; reflexivity.
  - destruct (if bool_decide (1 < length recentPrices)%nat then _ else None);
      [intros [= <-] _; reflexivity | discriminate].
  - intros [= <-]. cbn. discriminate.
Qed.

(** What [draftOrder] read and computed when it returns a draft. *)
Lemma draftOrder_full (n : nat) (recentPrices : list Q) (strategy : Strategy)
    (ticker : TickerData) (size tbid task : Q) (d : Draft) :
  draftOrder cfg rnd n recentPrices strategy ticker = Some (size, tbid, task, d) ->
  0 < size
  /\ tk_bid ticker = Some tbid /\ tk_ask ticker = Some task
  /\ exists (tlast : Q) (type0 : OrderType) (d0 : Draft),
       tk_last ticker = Some tlast
       /\ ~ tbid == 0 /\ ~ task == 0 /\ ~ tlast == 0
       /\ strategySwitch cfg rnd (S (S n)) recentPrices strategy type0 tbid task tlast
          = Some d0
       /\ d = limitPricing rnd tbid task d0.
Proof.
  unfold draftOrder. cbv zeta.
  destruct (Js.leb _ 0) eqn:El; [discriminate |]. apply leb_gt in El.
  destruct (tk_bid ticker) as [tb |]; [| discriminate].
  destruct (tk_ask ticker) as [ta |]; [| discriminate].
  destruct (tk_last ticker) as [tl |]; [| discriminate].
  destruct (Js.truthy tb) eqn:E1; [| discriminate].
  destruct (Js.truthy ta) eqn:E2; [| discriminate].
  destruct (Js.truthy tl) eqn:E3; [| discriminate].
  cbn [andb].
  destruct (strategySwitch _ _ _ _ _ _ _ _ _) as [d0 |] eqn:Es; [| discriminate].
  intros [= <- <- <- <-].
  split; [exact El |]. split; [reflexivity |]. split; [reflexivity |].
  exists tl, (if Js.ltb (rnd n) (marketOrderProbability cfg) then market else limit), d0.
  split; [reflexivity |].
  split; [apply truthy_true; exact E1 |].
  split; [apply truthy_true; exact E2 |].
  split; [apply truthy_true; exact E3 |].
  split; [exact Es | reflexivity].
Qed.

Lemma generate_inv (p : TradingPair) (now : Z) (n : nat) (recentPrices : list Q)
    (strategy : Strategy) (ticker : TickerData) (o : Order) :
  generateOrderBasedOnStrategy p cfg now rnd n recentPrices strategy ticker = Some o ->
  exists (sz tbid task : Q) (d : Draft),
    draftOrder cfg rnd n recentPrices strategy ticker = Some (sz, tbid, task, d)
    /\ pair o = symbol p /\ sz = size o /\ side o = d_side d
    /\ id o = None /\ level o = None
    /\ (type o, price o) = finalSanityCheck tbid task (d_side d) (d_type d) (d_price d).
Proof.
  unfold generateOrderBasedOnStrategy.
  destruct (draftOrder cfg rnd n recentPrices strategy ticker)
    as [[[[sz tbid] task] d] |]; [| discriminate].
  destruct (finalSanityCheck _ _ _ _ _) as [t q] eqn:Ef.
  intros [= <-]. exists sz, tbid, task, d. cbn. rewrite Ef. repeat split.
Qed.

Lemma taker_order_size (p : TradingPair) (now : Z) (n : nat) (recentPrices : list Q)
    (strategy : Strategy) (ticker : TickerData) (o : Order) :
  generateOrderBasedOnStrategy p cfg now rnd n recentPrices strategy ticker = Some o ->
  0 < size o /\ pair o = symbol p.
Proof.
  intros H. destruct (generate_inv p now n recentPrices strategy ticker o H)
    as (sz & tbid & task & d & Hd & Hp & Hs & _).
  destruct (draftOrder_full n recentPrices strategy ticker sz tbid task d Hd) as [Hpos _].
  subst sz. split; assumption.
Qed.
End TakerMore.

Section TakerOrders.
Import MarketTakerBot.
Variables (cfg : MarketTakerConfig) (rnd : nat -> Q).

(** X16.  Every order the taker generates has a positive size and the
    pair's symbol, was computed from a ticker whose bid, ask and last are
    numbers other than zero, and carries a price exactly when it is a limit
    order. *)
Theorem X16_taker_order_shape (p : TradingPair) (now : Z) (n : nat)
    (recentPrices : list Q) (strategy : Strategy) (ticker : TickerData) (o : Order) :
  generateOrderBasedOnStrategy p cfg now rnd n recentPrices strategy ticker = Some o ->
  0 < size o /\ pair o = symbol p /\ id o = None
  /\ (type o = market <-> price o = None)
  /\ exists tbid task tlast : Q,
       tk_bid ticker = Some tbid /\ tk_ask ticker = Some task /\ tk_last ticker = Some tlast
       /\ ~ tbid == 0 /\ ~ task == 0 /\ ~ tlast == 0.
Proof.
  intros H. destruct (generate_inv cfg rnd p now n recentPrices strategy ticker o H)
    as (sz & tbid & task & d & Hd & Hp & Hs & _ & Hid & _ & Hf).
  destruct (draftOrder_full cfg rnd n recentPrices strategy ticker sz tbid task d Hd)
    as (Hpos & Hb & Ha & tlast & type0 & d0 & Hl & N1 & N2 & N3 & Hsw & ->).
  subst sz. split; [exact Hpos |]. split; [exact Hp |]. split; [exact Hid |].
  split; [| exists tbid, task, tlast; repeat split; assumption].
  destruct (limitPricing_side_type rnd tbid task d0) as (_ & Et & En).
  unfold finalSanityCheck in Hf. rewrite Et in Hf.
  destruct (d_type d0) eqn:Ed.
  - destruct (d_price (limitPricing rnd tbid task d0)) as [q |].
    + destruct (Js.leb q 0); [injection Hf as -> ->; split; reflexivity |].
      destruct (_ && _); [injection Hf as -> ->; split; discriminate |].
      destruct (_ && _); injection Hf as -> ->; split; discriminate.
    + injection Hf as -> ->. split; reflexivity.
  - rewrite (En eq_refl (strategySwitch_market cfg rnd _ _ _ _ _ _ _ d0 Hsw Ed)) in Hf.
    injection Hf as -> ->. split; reflexivity.
Qed.

End TakerOrders.

Lemma X16_witness :
  match MarketTakerBot.generateOrderBasedOnStrategy samplePair sampleTakerConfig 0
          (constDraws (7 # 10)) 0 [100] MarketTakerBot.s_random
          (sampleTicker 100 (1001 # 10) 100) with
  | Some o => 0 < size o /\ (type o = market <-> price o = None)
  | None => False
  end.
Proof.
  destruct (MarketTakerBot.generateOrderBasedOnStrategy samplePair sampleTakerConfig 0
              (constDraws (7 # 10)) 0 [100] MarketTakerBot.s_random
              (sampleTicker 100 (1001 # 10) 100)) as [o |] eqn:E;
    [| vm_compute in E; discriminate].
  destruct (X16_taker_order_shape sampleTakerConfig (constDraws (7 # 10)) samplePair 0 0
              [100] MarketTakerBot.s_random (sampleTicker 100 (1001 # 10) 100) o E)
    as (H1 & _ & _ & H2 & _).
  split; assumption.
Defined.


(** ** The strategy of a taker cycle (src/bots/MarketTakerBot.ts) *)

(** X15.  The strategy drawn from [rand].  A draw below the probability
    of [random] gives [random].  A strategy other than [random] is chosen
    only when the draw is at least the probability of [random] and the
    probability of the strategy is positive: a strategy whose probability
    is zero or negative is never chosen, whatever the other
    probabilities. *)
Theorem X15_chooseStrategy_positive_probability (cfg : MarketTakerConfig) (rand : Q) :
  (rand < p_random (strategyProbabilities cfg) ->
   MarketTakerBot.chooseStrategy cfg rand = MarketTakerBot.s_random)
  /\ (MarketTakerBot.chooseStrategy cfg rand = MarketTakerBot.s_momentum ->
      p_random (strategyProbabilities cfg) <= rand
      /\ 0 < p_momentum (strategyProbabilities cfg))
  /\ (MarketTakerBot.chooseStrategy cfg rand = MarketTakerBot.s_meanReversion ->
      p_random (strategyProbabilities cfg) <= rand
      /\ 0 < p_meanReversion (strategyProbabilities cfg))
  /\ (MarketTakerBot.chooseStrategy cfg rand = MarketTakerBot.s_passiveLimit ->
      p_random (strategyProbabilities cfg) <= rand
      /\ 0 < p_passiveLimit (strategyProbabilities cfg)).
Proof.
  unfold MarketTakerBot.chooseStrategy. cbv zeta.
  generalize (p_random (strategyProbabilities cfg)) (p_momentum (strategyProbabilities cfg))
             (p_meanReversion (strategyProbabilities cfg))
             (p_passiveLimit (strategyProbabilities cfg)).
  intros a b c d.
  destruct (Js.ltb rand (0 + a)) eqn:E1;
    [apply ltb_lt in E1 | apply ltb_ge in E1;
     destruct (Js.ltb rand (0 + a + b)) eqn:E2;
       [apply ltb_lt in E2 | apply ltb_ge in E2;
        destruct (Js.ltb rand (0 + a + b + c)) eqn:E3;
          [apply ltb_lt in E3 | apply ltb_ge in E3;
           destruct (Js.ltb rand (0 + a + b + c + d)) eqn:E4;
             [apply ltb_lt in E4 | apply ltb_ge in E4]]]];
    (split; [| split; [| split]]); intros H; try discriminate; try reflexivity;
    try (exfalso; lra); split; lra.
Qed.

(** ** The requests of one cycle *)

Lemma submittedOrders_slots (l : list (nat * Order)) :
  submittedOrders ((fun s : nat * Order => CallSubmitOrder s.1 s.2) <$> l) = l.*2.
Proof.
  induction l as [| x l IH]; [reflexivity |]. cbn. f_equal. exact IH.
Qed.

(** X18.  What one cycle sends to the order-execution client, whatever
    the agent holds and whatever the cycle reads.  A maker cycle sends at
    most one batch cancel, before anything else, and then only placements
    of limit orders of its pair with a positive price and size and no id.
    A taker cycle never cancels and sends at most one placement, of
    positive size.  A cycle that skips for lack of data or for crossed
    quotes sends nothing and changes nothing. *)
Theorem X18_cycle_requests (a : BaseBot.Agent) (i : CycleInput) :
  (BaseBot.kind a = Maker ->
   exists cancels submits : list VenueCall,
     (BaseBot.runBody a i).1.2 = cancels ++ submits
     /\ (length cancels <= 1)%nat
     /\ Forall (fun c => isCancelCall c = true) cancels
     /\ Forall (fun c => isCancelCall c = false) submits
     /\ Forall (fun o : Order =>
                  pair o = symbol (BaseBot.agentPair a) /\ type o = limit
                  /\ id o = None /\ positiveQuote o)
               (submittedOrders submits))
  /\ (BaseBot.kind a = Taker ->
      (length (BaseBot.runBody a i).1.2 <= 1)%nat
      /\ Forall (fun c => isCancelCall c = false) (BaseBot.runBody a i).1.2
      /\ Forall (fun o : Order => pair o = symbol (BaseBot.agentPair a) /\ 0 < size o)
                (submittedOrders (BaseBot.runBody a i).1.2))
  /\ ((BaseBot.runBody a i).2 = true ->
      (BaseBot.runBody a i).1.2 = []
      /\ (BaseBot.runBody a i).1.1.1 = BaseBot.activeMakerOrders a
      /\ (BaseBot.runBody a i).1.1.2 = BaseBot.recentPrices a).
Proof.
  unfold BaseBot.runBody. split; [| split].
  - intros ->.
    pose proof (generateOrders_ladder (BaseBot.agentPair a) (BaseBot.config a) (ci_now i)
                  (ci_rnd i) 0 (ci_ticker i)) as HL.
    pose proof (emitted_quotes_positive (BaseBot.agentPair a) (BaseBot.config a) (ci_now i)
                  (ci_rnd i) 0 (ci_ticker i)) as Hpos.
    destruct (MarketMakerBot.generateOrders _ _ _ _ _ _) as [| | newOrders n];
      [exists [], []; cbn; split; [reflexivity |]; split; [lia |]; repeat split; constructor ..
      |].
    destruct (HL newOrders n eq_refl) as (tb & ta & _ & HQ & _).
    cbn [MarketMakerBot.emitted] in Hpos. cbn [fst snd].
    rewrite manageOrders_eq. cbv zeta. cbn [MarketMakerBot.calls].
    rewrite foldl_placeStep_calls, cancelStep_calls.
    eexists _, _. split; [reflexivity |]. split; [| split; [| split]].
    + destruct (omap _ _); cbn; lia.
    + destruct (omap _ _); repeat constructor.
    + apply Forall_fmap. apply Forall_true. intros x. reflexivity.
    + rewrite submittedOrders_slots. apply Forall_forall. intros o Ho.
      assert (Hin : o ∈ newOrders).
      { eapply elem_of_sublist; [exact Ho | apply unmatched_sublist]. }
      rewrite Forall_forall in HQ, Hpos.
      destruct (HQ o Hin) as (P1 & P2 & P3 & _).
      repeat split; try assumption; apply (Hpos o Hin).
  - intros ->.
    destruct (ci_ticker i) as [[tsym ts [tb |] [ta |] [tl |]] |];
      try (cbn; split; [lia | split; constructor]).
    cbn [fst snd].
    destruct (MarketTakerBot.generateOrderBasedOnStrategy _ _ _ _ _ _ _ _) as [o |] eqn:Eo;
      [| cbn; split; [lia | split; constructor]].
    destruct (taker_order_size _ _ _ _ _ _ _ _ _ Eo) as [Hs Hp].
    cbn. split; [lia |]. split; [repeat constructor |].
    constructor; [split; assumption | constructor].
  - destruct (BaseBot.kind a).
    + destruct (MarketMakerBot.generateOrders _ _ _ _ _ _); cbn; try discriminate;
        intros _; repeat split.
    + destruct (ci_ticker i) as [[tsym ts [tb |] [ta |] [tl |]] |]; cbn; try discriminate;
        intros _; repeat split.
Qed.

(** ** The taker's price window *)

Section Window.
Import BaseBot.

Lemma step_data (a a' : Agent) (e : Event) (o : list Obs) :
  step a e = Some (a', o) ->
  kind a' = kind a /\ config a' = config a /\ agentPair a' = agentPair a
  /\ (recentPrices a' = recentPrices a
      \/ exists i, e = ERunReturns i /\ recentPrices a' = (runBody a i).1.1.2).
Proof.
  assert (Hs : forall x : Agent,
            kind (scheduleNextRun x) = kind x /\ config (scheduleNextRun x) = config x
            /\ agentPair (scheduleNextRun x) = agentPair x
            /\ recentPrices (scheduleNextRun x) = recentPrices x).
  { intros x. unfold scheduleNextRun. destruct (isRunning x); cbn; repeat split. }
  destruct e as [| | h | i]; cbn [step].
  - intros [= <- _]. unfold start. destruct (isRunning a); [repeat split; left; reflexivity |].
    match goal with |- context [scheduleNextRun ?x] =>
      destruct (Hs x) as (E1 & E2 & E3 & E4) end.
    rewrite E1, E2, E3, E4. repeat split. left. reflexivity.
  - unfold stop. destruct (match kind a with Maker => _ | Taker => _ end) as [orders effects].
    intros [= <- _]. cbn. repeat split. left. reflexivity.
  - destruct (bool_decide (h ∈ armed a)); [| discriminate].
    intros [= <- _]. cbn. repeat split. left. reflexivity.
  - destruct (inFlight a) as [| k]; [discriminate |].
    destruct (runBody a i) as [[[orders prices] sent] early] eqn:Eb.
    intros [= <- _].
    match goal with |- context [scheduleNextRun (if early then scheduleNextRun ?x else ?x)] =>
      set (a1 := x) end.
    destruct (Hs (if early then scheduleNextRun a1 else a1)) as (E1 & E2 & E3 & E4).
    rewrite E1, E2, E3, E4.
    destruct early; [destruct (Hs a1) as (F1 & F2 & F3 & F4); rewrite F1, F2, F3, F4 |];
      (repeat split; right; exists i; split; [reflexivity | rewrite Eb; reflexivity]).
Qed.

(** X19.  The taker's window of recent prices.  [updateRecentPrices]
    appends the new price and drops the oldest one when the window holds
    more than [momentumLookbackTicks] prices: the result is a suffix of
    the old window followed by the new price, and ends with the new price
    when the lookback is not zero.  In every state an agent can reach the
    window holds at most [momentumLookbackTicks] prices, and a maker's
    window is empty. *)
Theorem X19_price_window :
  (forall (cfg : MarketTakerConfig) (recent : list Q) (lastPrice : Q),
     MarketTakerBot.updateRecentPrices cfg recent lastPrice `suffix_of` recent ++ [lastPrice]
     /\ ((length recent <= momentumLookbackTicks cfg)%nat ->
         (length (MarketTakerBot.updateRecentPrices cfg recent lastPrice)
          <= momentumLookbackTicks cfg)%nat)
     /\ ((1 <= momentumLookbackTicks cfg)%nat ->
         last (MarketTakerBot.updateRecentPrices cfg recent lastPrice) = Some lastPrice))
  /\ (forall a : Agent,
        reachable a ->
        (length (recentPrices a) <= momentumLookbackTicks (marketTaker (config a)))%nat
        /\ (kind a = Maker -> recentPrices a = [])).
Proof.
  assert (Hupd : forall (cfg : MarketTakerConfig) (recent : list Q) (lastPrice : Q),
     MarketTakerBot.updateRecentPrices cfg recent lastPrice `suffix_of` recent ++ [lastPrice]
     /\ ((length recent <= momentumLookbackTicks cfg)%nat ->
         (length (MarketTakerBot.updateRecentPrices cfg recent lastPrice)
          <= momentumLookbackTicks cfg)%nat)
     /\ ((1 <= momentumLookbackTicks cfg)%nat ->
         last (MarketTakerBot.updateRecentPrices cfg recent lastPrice) = Some lastPrice)).
  { intros cfg recent x. unfold MarketTakerBot.updateRecentPrices. cbv zeta.
    destruct (bool_decide (momentumLookbackTicks cfg < length (recent ++ [x]))%nat) eqn:E.
    - apply bool_decide_eq_true in E. rewrite length_app in E. cbn [length] in E.
      destruct recent as [| y l]; cbn [app tail length] in *.
      + split; [exists [x]; reflexivity |]. split; lia.
      + split; [exists [y]; reflexivity |].
        split; [rewrite length_app; cbn [length]; lia |].
        intros _. apply last_snoc.
    - apply bool_decide_eq_false in E. rewrite length_app in E |- *. cbn [length] in E |- *.
      split; [reflexivity |]. split; [lia |]. intros _. apply last_snoc. }
  split; [exact Hupd |].
  induction 1 as [k p cfg | a e a' o _ [IH1 IH2] Hstep]; [cbn; split; [lia | reflexivity] |].
  destruct (step_data a a' e o Hstep) as (Ek & Ec & _ & [Ep | (i & _ & Ep)]);
    rewrite Ek, Ec, Ep; [split; assumption |].
  unfold runBody. destruct (kind a) eqn:Eka.
  - destruct (MarketMakerBot.generateOrders _ _ _ _ _ _); cbn [fst snd]; split; auto.
  - split; [| discriminate].
    destruct (ci_ticker i) as [[tsym ts [tb |] [ta |] [tl |]] |]; cbn [fst snd];
      try exact IH1.
    apply (Hupd (marketTaker (config a)) (recentPrices a) tl). exact IH1.
Qed.
End Window.

(** ** The timer loop *)

Section Timers.
Import BaseBot.

Lemma scheduleNextRun_armed (a : Agent) :
  timers_tracked a -> isRunning a = true ->
  armed (scheduleNextRun a) = [nextHandle a]
  /\ timeoutId (scheduleNextRun a) = Some (nextHandle a)
  /\ nextHandle (scheduleNextRun a) = S (nextHandle a)
  /\ inFlight (scheduleNextRun a) = inFlight a
  /\ isRunning (scheduleNextRun a) = true.
Proof.
  intros Htr Hrun. unfold scheduleNextRun. rewrite Hrun. cbn.
  rewrite (cleared_nil a Htr). repeat split.
Qed.

Lemma step_timer_inv (a a' : Agent) (e : Event) (o : list Obs) :
  timer_inv a -> step a e = Some (a', o) -> timer_inv a'.
Proof.
  intros (Htr & Hlen & Hoff) Hstep.
  split; [exact (step_tracked a a' e o Htr Hstep) |].
  destruct e as [| | h | i]; cbn [step] in Hstep.
  - injection Hstep as <- _. unfold start.
    destruct (isRunning a) eqn:Er; [split; [exact Hlen | congruence] |].
    match goal with |- context [scheduleNextRun ?x] =>
      destruct (scheduleNextRun_armed x) as (E1 & _ & _ & _ & E5); [exact Htr | reflexivity |]
    end.
    rewrite E1, E5. split; [cbn; lia | discriminate].
  - unfold stop in Hstep.
    destruct (match kind a with Maker => _ | Taker => _ end) as [orders effects].
    injection Hstep as <- _. cbn. rewrite (cleared_nil a Htr). split; [cbn; lia | reflexivity].
  - destruct (bool_decide (h ∈ armed a)); [| discriminate].
    injection Hstep as <- _. cbn. split.
    + etransitivity; [| exact Hlen]. unfold clearTimeout. apply length_filter.
    + intros Hr. rewrite (Hoff Hr). reflexivity.
  - destruct (inFlight a) as [| k]; [discriminate |].
    destruct (runBody a i) as [[[orders prices] sent] early].
    injection Hstep as <- _.
    match goal with |- context [scheduleNextRun (if early then scheduleNextRun ?x else ?x)] =>
      set (a1 := x) end.
    assert (Htr1 : timers_tracked a1) by exact Htr.
    destruct (isRunning a) eqn:Er.
    + assert (Hr1 : isRunning a1 = true) by (first [exact Er | reflexivity]).
      assert (Hmid : timers_tracked (if early then scheduleNextRun a1 else a1)
                     /\ isRunning (if early then scheduleNextRun a1 else a1) = true).
      { destruct early; [| split; assumption].
        split; [apply scheduleNextRun_tracked; exact Htr1 |].
        exact (proj2 (proj2 (proj2 (proj2 (scheduleNextRun_armed a1 Htr1 Hr1))))). }
      destruct Hmid as [Htr2 Hr2].
      destruct (scheduleNextRun_armed _ Htr2 Hr2) as (E1 & _ & _ & _ & E5).
      rewrite E1, E5. split; [cbn; lia | discriminate].
    + assert (Hr1 : isRunning a1 = false) by (first [exact Er | reflexivity]).
      assert (E : scheduleNextRun (if early then scheduleNextRun a1 else a1) = a1).
      { destruct early; rewrite !(scheduleNextRun_stopped a1 Hr1); reflexivity. }
      rewrite E. split; [exact Hlen | intros _; first [exact (Hoff Er) | exact (Hoff eq_refl)]].
Qed.

(** X20.  In every state an agent can reach at most one timer is armed,
    it is the one whose handle the agent holds, and no timer is armed
    while the agent is stopped: a stopped agent never begins a cycle. *)
Theorem X20_at_most_one_timer (a : Agent) :
  reachable a ->
  (length (armed a) <= 1)%nat
  /\ (forall h, h ∈ armed a -> timeoutId a = Some h)
  /\ (isRunning a = false ->
      armed a = [] /\ forall h a' o, step a (ETimerFires h) <> Some (a', o)).
Proof.
  intros Hreach.
  assert (Hinv : timer_inv a).
  { induction Hreach as [k p cfg | a e a' o _ IH Hstep].
    - split; [intros h Hh; inversion Hh |]. split; [cbn; lia | reflexivity].
    - exact (step_timer_inv a a' e o IH Hstep). }
  destruct Hinv as (Htr & Hlen & Hoff).
  split; [exact Hlen |]. split; [exact Htr |].
  intros Hr. split; [exact (Hoff Hr) |].
  intros h a' o. cbn [step]. rewrite (Hoff Hr).
  rewrite bool_decide_eq_false_2 by apply not_elem_of_nil. discriminate.
Qed.

Lemma step_alive (a a' : Agent) (e : Event) (o : list Obs) :
  timers_tracked a -> loop_alive a -> e <> EStop -> step a e = Some (a', o) ->
  loop_alive a'.
Proof.
  unfold loop_alive. intros Htr Hal Hne Hstep.
  destruct e as [| | h | i]; cbn [step] in Hstep; [| contradiction | |].
  - injection Hstep as <- _. unfold start. destruct (isRunning a) eqn:Er.
    + rewrite Er. exact Hal.
    + destruct Hal as [Ha Hf].
      match goal with |- context [scheduleNextRun ?x] =>
        destruct (scheduleNextRun_armed x) as (E1 & _ & _ & E4 & E5);
          [exact Htr | reflexivity |]
      end.
      rewrite E1, E4, E5. cbn. rewrite Hf. reflexivity.
  - destruct (bool_decide (h ∈ armed a)) eqn:Eh; [| discriminate].
    apply bool_decide_eq_true in Eh. injection Hstep as <- _. cbn.
    destruct (isRunning a) eqn:Er.
    + destruct (armed a) as [| x [| y l]] eqn:Ea; [inversion Eh | | cbn in Hal; lia].
      apply list_elem_of_singleton in Eh. subst x. unfold clearTimeout.
      rewrite filter_cons_False by (intros H; apply H; reflexivity).
      cbn in Hal |- *. lia.
    + destruct Hal as [Ha _]. rewrite Ha in Eh. inversion Eh.
  - destruct (inFlight a) as [| k] eqn:Ef; [discriminate |].
    destruct (runBody a i) as [[[orders prices] sent] early].
    injection Hstep as <- _.
    match goal with |- context [scheduleNextRun (if early then scheduleNextRun ?x else ?x)] =>
      set (a1 := x) end.
    assert (Htr1 : timers_tracked a1) by exact Htr.
    destruct (isRunning a) eqn:Er.
    + assert (Hr1 : isRunning a1 = true) by (first [exact Er | reflexivity]).
      assert (Hmid : timers_tracked (if early then scheduleNextRun a1 else a1)
                     /\ isRunning (if early then scheduleNextRun a1 else a1) = true
                     /\ inFlight (if early then scheduleNextRun a1 else a1) = k).
      { destruct early; [| repeat split; assumption].
        destruct (scheduleNextRun_armed a1 Htr1 Hr1) as (_ & _ & _ & E4 & E5).
        split; [apply scheduleNextRun_tracked; exact Htr1 |]. split; [exact E5 | exact E4]. }
      destruct Hmid as (Htr2 & Hr2 & Hf2).
      destruct (scheduleNextRun_armed _ Htr2 Hr2) as (E1 & _ & _ & E4 & E5).
      rewrite E1, E4, E5, Hf2. cbn. lia.
    + destruct Hal as [_ Hf]. discriminate.
Qed.

Lemma exec_alive (es : list Event) :
  forall (a a' : Agent) (o : list Obs),
    timers_tracked a -> loop_alive a -> EStop ∉ es -> exec a es = Some (a', o) ->
    loop_alive a'.
Proof.
  induction es as [| e es IH]; intros a a' o Htr Hal Hns; cbn [exec].
  - intros [= <- _]. exact Hal.
  - destruct (step a e) as [[a1 o1] |] eqn:Es; [| discriminate].
    destruct (exec a1 es) as [[a2 o2] |] eqn:Ee; [| discriminate].
    intros [= <- _]. apply not_elem_of_cons in Hns as [Hne Hns].
    apply (IH a1 a2 o2); [| | exact Hns | exact Ee].
    + exact (step_tracked a a1 e o1 Htr Es).
    + exact (step_alive a a1 e o1 Htr Hal (fun E => Hne (eq_sym E)) Es).
Qed.

(** X21.  The loop of an agent that is never stopped.  After any events
    from its construction among which [stop] does not occur, a running
    agent has either its timer armed or one cycle in flight, never both:
    the loop never dies and two cycles never overlap.  Before [start]
    nothing is armed and nothing runs. *)
Theorem X21_loop_without_stop (k : BotKind) (p : TradingPair) (cfg : PairConfig)
    (es : list Event) (a : Agent) (o : list Obs) :
  EStop ∉ es ->
  exec (newAgent k p cfg) es = Some (a, o) ->
  (isRunning a = true ->
   (length (armed a) + inFlight a = 1)%nat /\ (inFlight a <= 1)%nat)
  /\ (isRunning a = false -> armed a = [] /\ inFlight a = 0%nat).
Proof.
  intros Hns Hexec.
  assert (Hal : loop_alive a).
  { apply (exec_alive es (newAgent k p cfg) a o); [| | exact Hns | exact Hexec].
    - intros h Hh. inversion Hh.
    - split; reflexivity. }
  unfold loop_alive in Hal. destruct (isRunning a).
  - split; [intros _; split; [exact Hal | lia] | discriminate].
  - split; [discriminate | intros _; exact Hal].
Qed.

Lemma stop_data (a : Agent) :
  timers_tracked a ->
  isRunning (stop a).1 = false /\ timeoutId (stop a).1 = None /\ armed (stop a).1 = []
  /\ nextHandle (stop a).1 = nextHandle a /\ inFlight (stop a).1 = inFlight a
  /\ kind (stop a).1 = kind a /\ config (stop a).1 = config a
  /\ agentPair (stop a).1 = agentPair a
  /\ (kind a = Maker -> activeMakerOrders (stop a).1 = []).
Proof.
  intros Htr. unfold stop.
  destruct (kind a) eqn:Ek; unfold MarketMakerBot.stopOrders.
  - destruct (activeMakerOrders a); cbn; rewrite (cleared_nil a Htr), ?Ek; repeat split.
  - cbn. rewrite (cleared_nil a Htr), ?Ek. repeat split. discriminate.
Qed.

(** X22.  [stop] does not wait for a cycle in flight.  From every
    reachable state with a cycle in flight, [stop] followed by [start]
    arms a new timer, and when it fires a second cycle begins while the
    first has not returned. *)
Theorem X22_restart_overlaps_cycles (a : Agent) (n : nat) :
  reachable a -> inFlight a = S n ->
  exists (a' : Agent) (o : list Obs),
    exec a [EStop; EStart; ETimerFires (nextHandle a)] = Some (a', o)
    /\ isRunning a' = true /\ inFlight a' = S (S n)
    /\ last o = Some (ObsRunBegins (kind a)).
Proof.
  intros Hreach Hfl.
  pose proof (reachable_tracked a Hreach) as Htr.
  destruct (stop_data a Htr) as (S1 & S2 & S3 & S4 & S5 & S6 & _).
  cbn [exec step]. destruct (stop a) as [s os]. cbn [fst] in *.
  unfold start. rewrite S1.
  match goal with |- context [scheduleNextRun ?x] => set (s1 := x) end.
  assert (Htr1 : timers_tracked s1).
  { intros h Hh. unfold s1 in Hh. cbn in Hh. rewrite S3 in Hh. inversion Hh. }
  destruct (scheduleNextRun_armed s1 Htr1 eq_refl) as (E1 & E2 & E3 & E4 & E5).
  assert (En : nextHandle s1 = nextHandle a) by exact S4.
  rewrite En in E1.
  rewrite E1. rewrite bool_decide_eq_true_2 by apply list_elem_of_here.
  rewrite E5. eexists _, _. split; [reflexivity |]. cbn [isRunning inFlight].
  split; [reflexivity |]. split.
  - rewrite E4. cbn. rewrite S5, Hfl. reflexivity.
  - assert (Ek : kind (scheduleNextRun s1) = kind a).
    { unfold scheduleNextRun. cbn. exact S6. }
    rewrite Ek, app_nil_r. cbn [app]. apply last_snoc.
Qed.

(** X23.  [stop] does not abort a cycle in flight either.  When a maker
    is stopped while a cycle is in flight and that cycle then computes a
    ladder, the cycle still places every quote of the ladder (the map was
    emptied by [stop], so nothing is kept or cancelled) and records the
    placements that succeed; no timer is armed afterwards, so the stopped
    maker is left holding these orders. *)
Theorem X23_cycle_in_flight_survives_stop (a : Agent) (n : nat) (i : CycleInput)
    (newOrders : list Order) (k : nat) :
  reachable a -> kind a = Maker -> inFlight a = S n ->
  MarketMakerBot.generateOrders (agentPair a) (config a) (ci_now i) (ci_rnd i) 0
    (ci_ticker i) = MarketMakerBot.Ladder newOrders k ->
  exists a' : Agent,
    step (stop a).1 (ERunReturns i)
    = Some (a', ObsCall Maker
                  <$> ((fun s : nat * Order => CallSubmitOrder s.1 s.2)
                         <$> MarketMakerBot.slots newOrders))
    /\ isRunning a' = false /\ armed a' = []
    /\ activeMakerOrders a'
       = MarketMakerBot.resting
           (MarketMakerBot.manageOrders (config a) (ci_venue i) (ci_rnd i) k [] newOrders).
Proof.
  intros Hreach Hk Hfl Hgen.
  pose proof (reachable_tracked a Hreach) as Htr.
  destruct (stop_data a Htr) as (S1 & S2 & S3 & S4 & S5 & S6 & S7 & S8 & S9).
  specialize (S9 Hk). rewrite Hk in S6. rewrite Hfl in S5.
  destruct (stop a) as [s os]. cbn [fst] in *.
  cbn [step]. rewrite S5. unfold runBody. rewrite S6, S7, S8, Hgen, S9.
  rewrite manageOrders_eq. cbv zeta. cbn [MarketMakerBot.resting MarketMakerBot.calls].
  match goal with |- context [scheduleNextRun ?x] => set (a1 := x) end.
  assert (H1 : isRunning a1 = false) by exact S1.
  rewrite !(scheduleNextRun_stopped a1 H1).
  exists a1. split; [| split; [exact H1 | split; [exact S3 | reflexivity]]].
  f_equal. f_equal. f_equal.
  rewrite foldl_placeStep_calls. unfold MarketMakerBot.classify. cbn [foldl].
  cbn [MarketMakerBot.matchedNewOrders MarketMakerBot.ordersToCancel
       MarketMakerBot.cancelStep snd app].
  rewrite unmatched_empty. reflexivity.
Qed.
End Timers.

Lemma X20_witness :
  BaseBot.reachable (agentAfter Taker [BaseBot.EStart])
  /\ (length (BaseBot.armed (agentAfter Taker [BaseBot.EStart])) <= 1)%nat.
Proof.
  assert (Hreach : BaseBot.reachable (agentAfter Taker [BaseBot.EStart])).
  { unfold agentAfter.
    destruct (BaseBot.exec (BaseBot.newAgent Taker samplePair (sampleConfig 0))
                [BaseBot.EStart]) as [[a o] |] eqn:E.
    - eapply exec_reachable; [apply BaseBot.reach_new | exact E].
    - apply BaseBot.reach_new. }
  split; [exact Hreach |].
  exact (proj1 (X20_at_most_one_timer _ Hreach)).
Defined.

Lemma X21_witness :
  (BaseBot.EStop ∉ [BaseBot.EStart; BaseBot.ETimerFires 0])
  /\ exists (a : BaseBot.Agent) (o : list Obs),
       BaseBot.exec (BaseBot.newAgent Maker samplePair (sampleConfig 0))
         [BaseBot.EStart; BaseBot.ETimerFires 0] = Some (a, o)
       /\ BaseBot.isRunning a = true
       /\ (length (BaseBot.armed a) + BaseBot.inFlight a = 1)%nat.
Proof.
  assert (Hns : BaseBot.EStop ∉ [BaseBot.EStart; BaseBot.ETimerFires 0]).
  { intros Hin. apply elem_of_cons in Hin as [H | Hin]; [discriminate |].
    apply elem_of_cons in Hin as [H | Hin]; [discriminate | inversion Hin]. }
  split; [exact Hns |].
  destruct (BaseBot.exec (BaseBot.newAgent Maker samplePair (sampleConfig 0))
              [BaseBot.EStart; BaseBot.ETimerFires 0]) as [[a o] |] eqn:E;
    [| vm_compute in E; discriminate].
  assert (Hr : BaseBot.isRunning a = true)
    by (vm_compute in E; injection E as <- _; reflexivity).
  exists a, o. split; [reflexivity |]. split; [exact Hr |].
  exact (proj1 (proj1 (X21_loop_without_stop Maker samplePair (sampleConfig 0) _ a o Hns E) Hr)).
Defined.

Lemma X22_witness :
  BaseBot.reachable (agentAfter Maker [BaseBot.EStart; BaseBot.ETimerFires 0])
  /\ BaseBot.inFlight (agentAfter Maker [BaseBot.EStart; BaseBot.ETimerFires 0]) = 1%nat
  /\ exists (a' : BaseBot.Agent) (o : list Obs),
       BaseBot.exec (agentAfter Maker [BaseBot.EStart; BaseBot.ETimerFires 0])
         [BaseBot.EStop; BaseBot.EStart; BaseBot.ETimerFires 1] = Some (a', o)
       /\ BaseBot.inFlight a' = 2%nat.
Proof.
  assert (Hreach : BaseBot.reachable (agentAfter Maker [BaseBot.EStart; BaseBot.ETimerFires 0])).
  { unfold agentAfter.
    destruct (BaseBot.exec (BaseBot.newAgent Maker samplePair (sampleConfig 0))
                [BaseBot.EStart; BaseBot.ETimerFires 0]) as [[a o] |] eqn:E.
    - eapply exec_reachable; [apply BaseBot.reach_new | exact E].
    - apply BaseBot.reach_new. }
  split; [exact Hreach |]. split; [reflexivity |].
  destruct (X22_restart_overlaps_cycles _ 0 Hreach eq_refl) as (a' & o & He & _ & Hf & _).
  exists a', o. split; [exact He | exact Hf].
Defined.

Lemma X23_witness :
  BaseBot.reachable (agentAfter Maker [BaseBot.EStart; BaseBot.ETimerFires 0])
  /\ exists a' : BaseBot.Agent,
       BaseBot.step
         (BaseBot.stop (agentAfter Maker [BaseBot.EStart; BaseBot.ETimerFires 0])).1
         (BaseBot.ERunReturns sampleInput)
       = Some (a', ObsCall Maker
                     <$> ((fun s : nat * Order => CallSubmitOrder s.1 s.2)
                            <$> MarketMakerBot.slots
                                  (MarketMakerBot.emitted
                                     (MarketMakerBot.generateOrders samplePair (sampleConfig 0)
                                        0 (constDraws (1 # 2)) 0
                                        (Some (sampleTicker 100 (1001 # 10) 100))))))
       /\ BaseBot.isRunning a' = false
       /\ (BaseBot.activeMakerOrders a').*1 = ["id-1"].
Proof.
  assert (Hreach : BaseBot.reachable (agentAfter Maker [BaseBot.EStart; BaseBot.ETimerFires 0])).
  { unfold agentAfter.
    destruct (BaseBot.exec (BaseBot.newAgent Maker samplePair (sampleConfig 0))
                [BaseBot.EStart; BaseBot.ETimerFires 0]) as [[a o] |] eqn:E.
    - eapply exec_reachable; [apply BaseBot.reach_new | exact E].
    - apply BaseBot.reach_new. }
  split; [exact Hreach |].
  destruct (MarketMakerBot.generateOrders samplePair (sampleConfig 0) 0 (constDraws (1 # 2)) 0
              (Some (sampleTicker 100 (1001 # 10) 100))) as [| | newOrders k] eqn:Eg;
    [vm_compute in Eg; discriminate .. |].
  destruct (X23_cycle_in_flight_survives_stop
              (agentAfter Maker [BaseBot.EStart; BaseBot.ETimerFires 0]) 0 sampleInput
              newOrders k Hreach eq_refl eq_refl Eg) as (a' & Hs & Hr & _ & Ho).
  exists a'. split; [exact Hs |]. split; [exact Hr |].
  rewrite Ho. vm_compute in Eg. injection Eg as <- <-. vm_compute. reflexivity.
Defined.

(** ** Stopping a pair, start-up and shutdown *)


Lemma pair_stop_quiescent (t : PairTrader.PairTrader) :
  PairTrader.isRunning t = true ->
  BaseBot.reachable (PairTrader.mmBot t) -> BaseBot.reachable (PairTrader.mtBot t) ->
  quiescent (PairTrader.mmBot (PairTrader.stop t).1)
  /\ quiescent (PairTrader.mtBot (PairTrader.stop t).1)
  /\ PairTrader.isRunning (PairTrader.stop t).1 = false.
Proof.
  intros Hr Hm Ht. unfold PairTrader.stop. rewrite Hr. cbn [negb].
  pose proof (stop_quiescent _ (reachable_tracked _ Hm)) as Q1.
  pose proof (stop_quiescent _ (reachable_tracked _ Ht)) as Q2.
  destruct (BaseBot.stop (PairTrader.mtBot t)) as [mt o1].
  destruct (BaseBot.stop (PairTrader.mmBot t)) as [mm o2].
  cbn in *. repeat split; first [apply Q1 | apply Q2].
Qed.

Section StartUp.
Import BotManager.

Lemma traders_set_keys (k : string) (v : PairTrader.PairTrader)
    (m : list (string * PairTrader.PairTrader)) (x : string) :
  x ∈ (traders_set k v m).*1 <-> x ∈ m.*1 \/ x = k.
Proof.
  unfold traders_set. destruct (bool_decide (k ∈ m.*1)) eqn:E.
  - apply bool_decide_eq_true in E.
    assert (Ek : ((fun e : string * PairTrader.PairTrader =>
                     if bool_decide (e.1 = k) then (k, v) else e) <$> m).*1 = m.*1).
    { rewrite <- list_fmap_compose. apply list_fmap_ext. intros i e _. cbn.
      destruct (bool_decide (e.1 = k)) eqn:Ex; [| reflexivity].
      apply bool_decide_eq_true in Ex. cbn. symmetry. exact Ex. }
    rewrite Ek. split; [left; assumption | intros [H | ->]; assumption].
  - rewrite fmap_app, elem_of_app. cbn. rewrite list_elem_of_singleton. reflexivity.
Qed.

Lemma traders_set_new (k : string) (v : PairTrader.PairTrader)
    (m : list (string * PairTrader.PairTrader)) :
  PairTrader.isRunning v = false ->
  Forall (fun e : string * PairTrader.PairTrader => PairTrader.isRunning e.2 = false) m ->
  Forall (fun e : string * PairTrader.PairTrader => PairTrader.isRunning e.2 = false)
         (traders_set k v m).
Proof.
  intros Hv Hm. unfold traders_set. destruct (bool_decide (k ∈ m.*1)).
  - apply Forall_fmap. eapply Forall_impl; [exact Hm |]. intros e He. cbn.
    destruct (bool_decide (e.1 = k)); [exact Hv | exact He].
  - apply Forall_app. split; [exact Hm |]. constructor; [exact Hv | constructor].
Qed.

Lemma initialize_traders (ps : list (TradingPair * PairConfig)) :
  forall m : list (string * PairTrader.PairTrader),
    let m' := foldl (fun m pc => traders_set (symbol pc.1) (PairTrader.new pc.1 pc.2) m)
                    m ps in
    (forall x, x ∈ m'.*1 <-> x ∈ m.*1 \/ exists pc, pc ∈ ps /\ x = symbol pc.1)
    /\ (Forall (fun e : string * PairTrader.PairTrader => PairTrader.isRunning e.2 = false) m ->
        Forall (fun e : string * PairTrader.PairTrader => PairTrader.isRunning e.2 = false) m').
Proof.
  induction ps as [| pc ps IH]; intros m; cbn [foldl]; cbv zeta.
  - split; [| tauto]. intros x. split; [left; assumption |].
    intros [H | (pc & Hpc & _)]; [exact H | inversion Hpc].
  - destruct (IH (traders_set (symbol pc.1) (PairTrader.new pc.1 pc.2) m)) as [K R].
    cbv zeta in K, R. split.
    + intros x. rewrite K, traders_set_keys. split.
      * intros [[H | ->] | (pc' & Hpc' & ->)]; [left; exact H | right | right].
        -- exists pc. split; [apply list_elem_of_here | reflexivity].
        -- exists pc'. split; [apply list_elem_of_further; exact Hpc' | reflexivity].
      * intros [H | (pc' & Hpc' & ->)]; [left; left; exact H |].
        apply elem_of_cons in Hpc' as [-> | Hpc'].
        -- left. right. reflexivity.
        -- right. exists pc'. split; [exact Hpc' | reflexivity].
    + intros Hm. apply R. apply traders_set_new; [reflexivity | exact Hm].
Qed.

Lemma pair_start_Some (c : PairTrader.ClientInit) (t : PairTrader.PairTrader) :
  (is_Some (PairTrader.start c t) <-> clientsOk c = true)
  /\ (forall t', PairTrader.start c t = Some t' -> PairTrader.isRunning t' = true).
Proof.
  unfold PairTrader.start, clientsOk.
  destruct (PairTrader.makerClientOk c), (PairTrader.takerClientOk c); cbn.
  - split.
    + split; [reflexivity |]. intros _. destruct (PairTrader.isRunning t); eexists; reflexivity.
    + intros t'. destruct (PairTrader.isRunning t) eqn:E; intros [= <-]; [exact E | reflexivity].
  - split; [split; [intros [x Hx]; discriminate | discriminate] | discriminate].
  - split; [split; [intros [x Hx]; discriminate | discriminate] | discriminate].
  - split; [split; [intros [x Hx]; discriminate | discriminate] | discriminate].
Qed.

Lemma startAll_spec (env : Env) (ts : list (string * PairTrader.PairTrader)) :
  ((startAll env ts).2 = Returns
   <-> Forall (fun e : string * PairTrader.PairTrader =>
                 clientsOk (clientInit env e.1) = true) ts)
  /\ (startAll env ts).1.*1 = ts.*1
  /\ (Forall (fun e : string * PairTrader.PairTrader =>
                clientsOk (clientInit env e.1) = true) ts ->
      Forall (fun e : string * PairTrader.PairTrader => PairTrader.isRunning e.2 = true)
             (startAll env ts).1).
Proof.
  unfold startAll. cbn [fst snd]. split; [| split].
  - destruct (forallb _ _) eqn:E.
    + split; [intros _ | reflexivity].
      rewrite forallb_forall in E. apply Forall_forall. intros e He.
      apply (pair_start_Some (clientInit env e.1) e.2).
      specialize (E (e, PairTrader.start (clientInit env e.1) e.2)).
      cbn in E. eapply bool_decide_eq_true_1. apply E.
      apply list_elem_of_In. apply list_elem_of_fmap. exists e. split; [reflexivity | exact He].
    + split; [discriminate |]. intros Hall. exfalso.
      assert (Ht : forallb
                     (fun r : (string * PairTrader.PairTrader) * option PairTrader.PairTrader =>
                        bool_decide (is_Some r.2))
                     ((fun e : string * PairTrader.PairTrader =>
                         (e, PairTrader.start (clientInit env e.1) e.2)) <$> ts) = true).
      { apply forallb_forall. intros r Hr. apply list_elem_of_In in Hr.
        apply list_elem_of_fmap in Hr as (e & -> & He). cbn.
        apply bool_decide_eq_true_2. apply (pair_start_Some (clientInit env e.1) e.2).
        rewrite Forall_forall in Hall. exact (Hall e He). }
      rewrite Ht in E. discriminate.
  - rewrite <- !list_fmap_compose. apply list_fmap_ext. intros i e _. cbn.
    destruct (PairTrader.start (clientInit env e.1) e.2); reflexivity.
  - intros Hall. rewrite <- list_fmap_compose. apply Forall_fmap.
    eapply Forall_impl; [exact Hall |]. intros e He. cbn.
    destruct (pair_start_Some (clientInit env e.1) e.2) as [Hs Hr].
    destruct (PairTrader.start (clientInit env e.1) e.2) as [t' |] eqn:Est.
    + cbn. exact (Hr t' eq_refl).
    + exfalso. apply Hs in He. destruct He as [x Hx]. discriminate.
Qed.

End StartUp.

Section Shutdown.
Import BotManager.


End Shutdown.

Lemma start_running (a : BaseBot.Agent) : BaseBot.isRunning (BaseBot.start a) = true.
Proof.
  unfold BaseBot.start. destruct (BaseBot.isRunning a) eqn:E; [exact E | reflexivity].
Qed.

(** [start] of a stopped agent arms one timer. *)
Lemma start_after_stop (a : BaseBot.Agent) :
  timers_tracked a ->
  BaseBot.armed (BaseBot.start (BaseBot.stop a).1) = [BaseBot.nextHandle a].
Proof.
  intros Htr. destruct (stop_data a Htr) as (S1 & S2 & S3 & S4 & _).
  unfold BaseBot.start. rewrite S1. unfold BaseBot.scheduleNextRun.
  cbn [BaseBot.isRunning negb BaseBot.timeoutId BaseBot.armed BaseBot.nextHandle].
  rewrite S2, S3, S4. reflexivity.
Qed.

(** [start] is its two halves, one after the other. *)
Lemma start_halves (env : PairTrader.ClientInit) (t : PairTrader.PairTrader) :
  PairTrader.start env t
  = match PairTrader.startBegin env t with
    | None => None
    | Some (t1, goesOn) => Some (if goesOn then PairTrader.startResume t1 else t1)
    end.
Proof.
  unfold PairTrader.start, PairTrader.startBegin, PairTrader.startResume.
  destruct (PairTrader.makerClientOk env), (PairTrader.takerClientOk env); cbn [negb];
    try reflexivity.
  destruct (PairTrader.isRunning t); reflexivity.
Qed.

Lemma pair_stop_bots (t : PairTrader.PairTrader) :
  PairTrader.isRunning t = true ->
  PairTrader.mmBot (PairTrader.stop t).1 = (BaseBot.stop (PairTrader.mmBot t)).1
  /\ PairTrader.mtBot (PairTrader.stop t).1 = (BaseBot.stop (PairTrader.mtBot t)).1.
Proof.
  intros Hr. unfold PairTrader.stop. rewrite Hr. cbn [negb].
  destruct (BaseBot.stop (PairTrader.mtBot t)) as [mt o1].
  destruct (BaseBot.stop (PairTrader.mmBot t)) as [mm o2]. split; reflexivity.
Qed.

(** X24.  Stopping a running pair whose bots are in states they can
    reach: the taker is stopped first; when [stop] returns both bots are
    stopped with no timer armed, the maker's map of resting orders is
    empty and the pair is marked stopped, and a second [stop] does nothing
    at all.  [stop] does not cancel a [start] that is still in its
    two-second wait ([start] is [startBegin] and then [startResume]): when
    that wait ends the taker is started, with one timer armed, although
    the pair is marked stopped, and a later [stop] of the pair does not
    stop it. *)
Theorem X24_pair_stop (t : PairTrader.PairTrader) :
  PairTrader.isRunning t = true ->
  BaseBot.reachable (PairTrader.mmBot t) -> BaseBot.reachable (PairTrader.mtBot t) ->
  BaseBot.kind (PairTrader.mmBot t) = Maker ->
  (quiescent (PairTrader.mmBot (PairTrader.stop t).1)
   /\ quiescent (PairTrader.mtBot (PairTrader.stop t).1)
   /\ BaseBot.activeMakerOrders (PairTrader.mmBot (PairTrader.stop t).1) = []
   /\ PairTrader.isRunning (PairTrader.stop t).1 = false
   /\ PairTrader.stop (PairTrader.stop t).1 = ((PairTrader.stop t).1, [])
   /\ head (PairTrader.stop t).2 = Some (ObsStopping (BaseBot.kind (PairTrader.mtBot t))))
  /\ (forall env : PairTrader.ClientInit,
        PairTrader.start env t
        = match PairTrader.startBegin env t with
          | None => None
          | Some (t1, goesOn) => Some (if goesOn then PairTrader.startResume t1 else t1)
          end)
  /\ (BaseBot.isRunning (PairTrader.mtBot (PairTrader.startResume (PairTrader.stop t).1))
      = true
      /\ BaseBot.armed (PairTrader.mtBot (PairTrader.startResume (PairTrader.stop t).1))
         = [BaseBot.nextHandle (PairTrader.mtBot t)]
      /\ PairTrader.isRunning (PairTrader.startResume (PairTrader.stop t).1) = false
      /\ PairTrader.stop (PairTrader.startResume (PairTrader.stop t).1)
         = (PairTrader.startResume (PairTrader.stop t).1, [])).
Proof.
  intros Hr Hm Ht Hk.
  destruct (pair_stop_quiescent t Hr Hm Ht) as (Q1 & Q2 & Q3).
  destruct (pair_stop_bots t Hr) as [Em Et].
  split; [| split; [intros env; apply start_halves |]].
  - split; [exact Q1 |]. split; [exact Q2 |].
    pose proof (stop_data _ (reachable_tracked _ Hm)) as Sm.
    destruct Sm as (_ & _ & _ & _ & _ & _ & _ & _ & S9). specialize (S9 Hk).
    split; [| split; [exact Q3 | split]].
    + rewrite Em. exact S9.
    + unfold PairTrader.stop at 1. rewrite Q3. reflexivity.
    + unfold PairTrader.stop. rewrite Hr. cbn [negb].
      unfold BaseBot.stop at 1.
      destruct (match BaseBot.kind (PairTrader.mtBot t) with Maker => _ | Taker => _ end)
        as [orders effects].
      destruct (BaseBot.stop (PairTrader.mmBot t)) as [mm o2]. reflexivity.
  - unfold PairTrader.startResume. cbn [PairTrader.mtBot PairTrader.isRunning].
    split; [apply start_running |]. split; [| split; [exact Q3 |]].
    + rewrite Et. apply start_after_stop, reachable_tracked, Ht.
    + unfold PairTrader.stop at 1. cbn [PairTrader.isRunning]. rewrite Q3. reflexivity.
Qed.

Lemma X24_witness :
  PairTrader.isRunning runningPair = true
  /\ BaseBot.reachable (PairTrader.mmBot runningPair)
  /\ BaseBot.reachable (PairTrader.mtBot runningPair)
  /\ quiescent (PairTrader.mmBot (PairTrader.stop runningPair).1)
  /\ PairTrader.stop (PairTrader.stop runningPair).1 = ((PairTrader.stop runningPair).1, [])
  /\ BaseBot.armed (PairTrader.mtBot (PairTrader.startResume (PairTrader.stop runningPair).1))
     = [1%nat].
Proof.
  assert (Hm : BaseBot.reachable (PairTrader.mmBot runningPair)).
  { unfold runningPair, agentAfter. cbn [PairTrader.mmBot].
    destruct (BaseBot.exec (BaseBot.newAgent Maker samplePair (sampleConfig 0))
                [BaseBot.EStart; BaseBot.ETimerFires 0; BaseBot.ERunReturns sampleInput])
      as [[a o] |] eqn:E.
    - eapply exec_reachable; [apply BaseBot.reach_new | exact E].
    - apply BaseBot.reach_new. }
  assert (Ht : BaseBot.reachable (PairTrader.mtBot runningPair)).
  { unfold runningPair, agentAfter. cbn [PairTrader.mtBot].
    destruct (BaseBot.exec (BaseBot.newAgent Taker samplePair (sampleConfig 0))
                [BaseBot.EStart]) as [[a o] |] eqn:E.
    - eapply exec_reachable; [apply BaseBot.reach_new | exact E].
    - apply BaseBot.reach_new. }
  destruct (X24_pair_stop runningPair eq_refl Hm Ht eq_refl)
    as ((Q1 & _ & _ & _ & Q5 & _) & _ & (_ & R2 & _)).
  split; [reflexivity |]. split; [exact Hm |]. split; [exact Ht |].
  split; [exact Q1 |]. split; [exact Q5 | exact R2].
Defined.

Section StartUpEnd.
Import BotManager.

Lemma startAll_bots (env : Env) (ts : list (string * PairTrader.PairTrader)) :
  Forall (fun e : string * PairTrader.PairTrader =>
            clientsOk (clientInit env e.1) = true) ts ->
  Forall (fun e : string * PairTrader.PairTrader => PairTrader.isRunning e.2 = false) ts ->
  Forall (fun e : string * PairTrader.PairTrader =>
            PairTrader.isRunning e.2 = true
            /\ BaseBot.isRunning (PairTrader.mmBot e.2) = true
            /\ BaseBot.isRunning (PairTrader.mtBot e.2) = true)
         (startAll env ts).1.
Proof.
  intros Hok Hnew. unfold startAll. cbn [fst]. rewrite <- list_fmap_compose.
  apply Forall_fmap. rewrite Forall_forall in *. intros e He.
  specialize (Hok e He). specialize (Hnew e He). cbn.
  unfold PairTrader.start. unfold clientsOk in Hok. apply andb_prop in Hok as [-> ->].
  cbn [negb]. rewrite Hnew. cbn.
  split; [reflexivity |]. split; apply start_running.
Qed.

(** X25.  How start-up ends.  [main] calls [process.exit(1)] exactly when
    the market data provider initializes and the clients of some
    configured pair fail to initialize; otherwise it reaches its last
    [await] without exiting.  When the provider fails, the manager is then
    not running and holds no trader: nothing is pending, and the process
    ends by itself.  When the provider and all clients initialize, the
    manager runs and every configured pair has a running trader whose two
    bots are running. *)
Theorem X25_main_exit (env : Env) :
  ((main env).2 = Exited 1
   <-> marketDataInitOk env = true
       /\ exists pc, pc ∈ pairs env /\ clientsOk (clientInit env (symbol pc.1)) = false)
  /\ ((main env).2 = Waiting
      <-> marketDataInitOk env = false
          \/ forall pc, pc ∈ pairs env -> clientsOk (clientInit env (symbol pc.1)) = true)
  /\ (marketDataInitOk env = false -> (main env).1 = BotManager.new)
  /\ (marketDataInitOk env = true ->
      (forall pc, pc ∈ pairs env -> clientsOk (clientInit env (symbol pc.1)) = true) ->
      isRunning (main env).1 = true
      /\ (forall pc, pc ∈ pairs env -> symbol pc.1 ∈ started (main env).1)
      /\ Forall (fun e : string * PairTrader.PairTrader =>
                   PairTrader.isRunning e.2 = true
                   /\ BaseBot.isRunning (PairTrader.mmBot e.2) = true
                   /\ BaseBot.isRunning (PairTrader.mtBot e.2) = true)
                (traders (main env).1)).
Proof.
  unfold main, start, initialize. cbn [isRunning new traders].
  destruct (marketDataInitOk env) eqn:Ei; cbn [negb].
  2:{ cbn. split; [split; [discriminate | intros [H _]; discriminate] |].
      split; [split; [intros _; left; reflexivity | reflexivity] |].
      split; [reflexivity | discriminate]. }
  cbv beta iota zeta. cbn [negb traders].
  destruct (initialize_traders (pairs env) []) as [K R]. cbv zeta in K, R.
  specialize (R (Forall_nil_2 _)).
  set (ts := foldl (fun m pc => traders_set (symbol pc.1) (PairTrader.new pc.1 pc.2) m)
                   [] (pairs env)) in *.
  destruct (startAll_spec env ts) as (Hret & Hkeys & Hrun).
  pose proof (startAll_bots env ts) as Hbots.
  assert (Hall : Forall (fun e : string * PairTrader.PairTrader =>
                           clientsOk (clientInit env e.1) = true) ts
                 <-> forall pc, pc ∈ pairs env ->
                       clientsOk (clientInit env (symbol pc.1)) = true).
  { rewrite Forall_forall. split.
    - intros H pc Hpc.
      assert (Hk : symbol pc.1 ∈ ts.*1)
        by (apply K; right; exists pc; split; [exact Hpc | reflexivity]).
      apply list_elem_of_fmap in Hk as (e & -> & He). exact (H e He).
    - intros H e He.
      assert (Hk : e.1 ∈ ts.*1)
        by (apply list_elem_of_fmap; exists e; split; [reflexivity | exact He]).
      apply K in Hk as [Hk | (pc & Hpc & ->)]; [inversion Hk | exact (H pc Hpc)]. }
  destruct (startAll env ts) as [ts' c] eqn:Es. cbn [fst snd] in *.
  split; [| split; [| split; [discriminate |]]].
  - destruct c; cbv beta iota zeta; cbn [snd].
    + split; [discriminate |]. intros [_ (pc & Hpc & Hbad)]. exfalso.
      rewrite (proj1 Hall (proj1 Hret eq_refl) pc Hpc) in Hbad. discriminate.
    + split; [intros _; split; [reflexivity |] | reflexivity].
      destruct (decide (Exists (fun pc : TradingPair * PairConfig =>
                                  clientsOk (clientInit env (symbol pc.1)) = false)
                               (pairs env))) as [Hex | Hnex].
      * apply Exists_exists in Hex. exact Hex.
      * exfalso. assert (Hc : Throws = Returns); [| discriminate].
        apply Hret, Hall. intros pc Hpc.
        destruct (clientsOk (clientInit env (symbol pc.1))) eqn:Eok; [reflexivity |].
        exfalso. apply Hnex. apply Exists_exists. exists pc. split; assumption.
  - destruct c; cbv beta iota zeta; cbn [snd].
    + split; [intros _; right; apply Hall, Hret; reflexivity | reflexivity].
    + split; [discriminate |]. intros [H | H]; [discriminate |].
      assert (Hc : Throws = Returns) by (apply Hret, Hall; exact H). discriminate.
  - intros _ Hok.
    assert (Hc : c = Returns) by (apply Hret, Hall; exact Hok). subst c.
    cbv beta iota zeta. cbn [fst isRunning traders]. split; [reflexivity |]. split.
    + intros pc Hpc. unfold started. cbn [traders].
      rewrite filter_all.
      * rewrite Hkeys. apply K. right. exists pc. split; [exact Hpc | reflexivity].
      * intros e He. specialize (Hrun (proj2 Hall Hok)). rewrite Forall_forall in Hrun.
        exact (Hrun e He).
    + apply Hbots; [apply Hall, Hok | exact R].
Qed.

End StartUpEnd.


(** ** The market data provider *)

Section Provider.
Import CcxtProvider.

(** X27.  What [fetchTicker] returns.  A ticker is returned only when
    the exchange instance exists, its markets hold the symbol, and the
    exchange answers with a ticker whose bid and ask are not [undefined];
    it carries the requested symbol, and its [last] falls back to the bid,
    so [last] is a number whenever the bid is one.  Hence a taker cycle
    that reads this ticker skips for lack of data exactly when nothing was
    returned or the bid or the ask is [null]. *)
Theorem X27_fetchTicker (exchange : option Exchange) (fetch : string -> FetchResult)
    (now : Z) (ccxtSymbol : string) :
  (forall t : TickerData,
     fetchTicker exchange fetch now ccxtSymbol = Some t ->
     tk_symbol t = ccxtSymbol
     /\ (exists (ms : list string) (ticker : ExchangeTicker),
           exchange = Some {| markets := Some ms |} /\ ccxtSymbol ∈ ms
           /\ fetch ccxtSymbol = FetchReturns (Some ticker)
           /\ et_bid ticker <> Undefined /\ et_ask ticker <> Undefined
           /\ tk_bid t = toField (et_bid ticker) /\ tk_ask t = toField (et_ask ticker)
           /\ tk_timestamp t = default now (et_timestamp ticker))
     /\ (is_Some (tk_bid t) -> is_Some (tk_last t)))
  /\ (forall (a : BaseBot.Agent) (i : CycleInput),
        BaseBot.kind a = Taker ->
        ci_ticker i = fetchTicker exchange fetch now ccxtSymbol ->
        ((BaseBot.runBody a i).2 = true
         <-> match fetchTicker exchange fetch now ccxtSymbol with
             | None => True
             | Some t => tk_bid t = None \/ tk_ask t = None
             end)).
Proof.
  assert (Hret : forall t : TickerData,
     fetchTicker exchange fetch now ccxtSymbol = Some t ->
     tk_symbol t = ccxtSymbol
     /\ (exists (ms : list string) (ticker : ExchangeTicker),
           exchange = Some {| markets := Some ms |} /\ ccxtSymbol ∈ ms
           /\ fetch ccxtSymbol = FetchReturns (Some ticker)
           /\ et_bid ticker <> Undefined /\ et_ask ticker <> Undefined
           /\ tk_bid t = toField (et_bid ticker) /\ tk_ask t = toField (et_ask ticker)
           /\ tk_timestamp t = default now (et_timestamp ticker))
     /\ (is_Some (tk_bid t) -> is_Some (tk_last t))).
  { intros t. unfold fetchTicker.
    destruct exchange as [[[ms |]] |]; try discriminate. cbn [markets].
    destruct (bool_decide (ccxtSymbol ∈ ms)) eqn:Em; [| discriminate].
    apply bool_decide_eq_true in Em.
    destruct (fetch ccxtSymbol) as [| [ticker |]] eqn:Ef; try discriminate.
    destruct (et_bid ticker) as [| | qb] eqn:Eb; try discriminate;
      destruct (et_ask ticker) as [| | qa] eqn:Ea; try discriminate;
      intros [= <-]; cbn [tk_symbol tk_bid tk_ask tk_last tk_timestamp];
      (split; [reflexivity |]);
      (split; [exists ms, ticker; rewrite Eb, Ea; repeat split; try assumption; discriminate |]);
      cbn; try (intros [x Hx]; discriminate);
      intros _; destruct (et_last ticker); cbn; eexists; reflexivity. }
  split; [exact Hret |].
  intros a i Hk Hi. unfold BaseBot.runBody. rewrite Hk, Hi.
  destruct (fetchTicker exchange fetch now ccxtSymbol) as [t |] eqn:Et;
    [| cbn; tauto].
  destruct (Hret t eq_refl) as (_ & _ & Hlast).
  destruct t as [sym ts [tb |] [ta |] tl]; cbn [tk_bid tk_ask tk_last] in *.
  - destruct (Hlast (ex_intro _ tb eq_refl)) as [l ->]. cbn.
    split; [discriminate | intros [H | H]; discriminate].
  - destruct tl; cbn; split; auto.
  - destruct tl; cbn; split; auto.
  - destruct tl; cbn; split; auto.
Qed.
End Provider.

Lemma X27_witness :
  match CcxtProvider.fetchTicker sampleExchange sampleFetch 0 "BTC/USD" with
  | Some t => tk_symbol t = "BTC/USD" /\ is_Some (tk_last t)
  | None => False
  end.
Proof.
  destruct (CcxtProvider.fetchTicker sampleExchange sampleFetch 0 "BTC/USD") as [t |] eqn:E;
    [| vm_compute in E; discriminate].
  destruct (X27_fetchTicker sampleExchange sampleFetch 0 "BTC/USD") as [Hret _].
  destruct (Hret t E) as (Hsym & _ & Hlast).
  split; [exact Hsym |]. apply Hlast.
  vm_compute in E. injection E as <-. eexists. reflexivity.
Defined.
